(** * Hardware-bound signing identity (hardware_identity.py)

    A shallow embedding of [hardware-camera-app/hardware_identity.py]:
    the salt store, the hardware fingerprint, key derivation, the address
    encoder, the signing operations and the module-level registry; and of
    its callers: the script [export_key.py], and [_export_device_key] and
    [_sign_image] of [raspberry_pi_camera_app.py].

    Python values are modelled as follows.
    - [bytes] objects are lists of [Byte.byte];
    - [str] objects are lists of Unicode code points ([N]);
    - exceptions are values of [exn], and a call that may raise returns a
      [result];
    - the filesystem, standard output, the entropy source and the module
      global [_hardware_identity] are fields of an explicit [world] that is
      threaded through the stateful functions.

    The libraries the module calls ([hashlib], [sha3], [ecdsa]) are
    modelled by executable definitions, so that every scenario below is
    computed; the curve arithmetic runs on [bigZ].  The JSON encoder,
    the clock and the path arithmetic of the callers are parameters. *)

From Stdlib Require Import ZArith NArith String Ascii List Bool Lia.
From Stdlib Require Import Strings.Byte.
From Bignums Require Import BigZ.
Import ListNotations.

(** ** Python values *)

Definition bytes := list byte.
Definition str := list N.

(** A string literal of the source, as a list of code points. *)
Definition lit (s : string) : str :=
  map N_of_ascii (list_ascii_of_string s).

Definition str_eqb (a b : str) : bool :=
  if list_eq_dec N.eq_dec a b then true else false.

Definition byte_of_N (n : N) : byte :=
  match Byte.of_N n with Some b => b | None => x00 end.

Definition byte_of_Z (z : Z) : byte := byte_of_N (Z.to_N z).
Definition Z_of_byte (b : byte) : Z := Z.of_N (Byte.to_N b).

(** ** Exceptions and results *)

Inductive exn : Type :=
| RuntimeError (msg : string)
| ValueError
| UnicodeEncodeError
| IndexError
| ImportError
| FileNotFoundError
| PermissionError
| OSError
| MalformedPointError
| BadSignatureError
| RSZeroError
| TypeError
| AttributeError.

(** [isinstance(e, OSError)]: [PermissionError] and [FileNotFoundError] are
    subclasses of [OSError]. *)
Definition is_OSError (e : exn) : bool :=
  match e with
  | PermissionError | FileNotFoundError | OSError => true
  | _ => false
  end.

Definition is_PermissionError (e : exn) : bool :=
  match e with PermissionError => true | _ => false end.

Inductive result (A : Type) : Type :=
| Ok (a : A)
| Raise (e : exn).
Arguments Ok {A} a.
Arguments Raise {A} e.

Definition rbind {A B} (r : result A) (k : A -> result B) : result B :=
  match r with Ok a => k a | Raise e => Raise e end.

Definition rmap {A B} (f : A -> B) (r : result A) : result B :=
  rbind r (fun a => Ok (f a)).

(** ** [bytes.hex], [bytes.fromhex], [str.replace], [str.encode] *)

Module pystr.

Local Open Scope N_scope.

(** Lower-case hexadecimal digit of a nibble. *)
Definition hexdigit (n : N) : N := if n <? 10 then 48 + n else 87 + n.

Definition hex_byte (b : byte) : str :=
  let n := Byte.to_N b in [hexdigit (n / 16); hexdigit (n mod 16)].

(** [b.hex()] *)
Definition hex (b : bytes) : str := flat_map hex_byte b.

(** Value of a hexadecimal digit, either case. *)
Definition digit_value (c : N) : option N :=
  if (48 <=? c) && (c <=? 57) then Some (c - 48)
  else if (97 <=? c) && (c <=? 102) then Some (c - 87)
  else if (65 <=? c) && (c <=? 70) then Some (c - 55)
  else None.

(** ASCII white space, skipped by [bytes.fromhex] between byte pairs. *)
Definition is_ascii_space (c : N) : bool :=
  (c =? 32) || ((9 <=? c) && (c <=? 13)).

(** [bytes.fromhex(s)]: pairs of hexadecimal digits, white space allowed
    between pairs only; anything else raises [ValueError]. *)
Fixpoint fromhex (s : str) : result bytes :=
  match s with
  | [] => Ok []
  | c :: rest =>
      if is_ascii_space c then fromhex rest
      else
        match digit_value c, rest with
        | Some hi, d :: rest' =>
            match digit_value d with
            | Some lo => rmap (cons (byte_of_N (hi * 16 + lo))) (fromhex rest')
            | None => Raise ValueError
            end
        | _, _ => Raise ValueError
        end
  end.

(** [s.replace('0x', '')]: every occurrence, scanned left to right. *)
Fixpoint remove_0x (s : str) : str :=
  match s with
  | [] => []
  | c :: rest =>
      match rest with
      | d :: rest' =>
          if (c =? 48) && (d =? 120) then remove_0x rest'
          else c :: remove_0x rest
      | [] => [c]
      end
  end.

(** UTF-8 encoding of one code point; a surrogate cannot be encoded. *)
Definition encode_char (c : N) : result bytes :=
  if c <? 128 then Ok [byte_of_N c]
  else if c <? 2048 then
    Ok [byte_of_N (192 + c / 64); byte_of_N (128 + c mod 64)]
  else if (55296 <=? c) && (c <=? 57343) then Raise UnicodeEncodeError
  else if c <? 65536 then
    Ok [byte_of_N (224 + c / 4096); byte_of_N (128 + (c / 64) mod 64);
        byte_of_N (128 + c mod 64)]
  else
    Ok [byte_of_N (240 + c / 262144); byte_of_N (128 + (c / 4096) mod 64);
        byte_of_N (128 + (c / 64) mod 64); byte_of_N (128 + c mod 64)].

(** [s.encode('utf-8')] *)
Fixpoint encode_utf8 (s : str) : result bytes :=
  match s with
  | [] => Ok []
  | c :: rest =>
      rbind (encode_char c) (fun b =>
      rbind (encode_utf8 rest) (fun bs => Ok (b ++ bs)))
  end.

(** [sep.join(parts)] *)
Fixpoint join (sep : str) (parts : list str) : str :=
  match parts with
  | [] => []
  | [p] => p
  | p :: ps => p ++ sep ++ join sep ps
  end.

(** [s.split(c)] for a one-character separator: never empty. *)
Fixpoint split (c : N) (s : str) : list str :=
  match s with
  | [] => [[]]
  | x :: rest =>
      if x =? c then [] :: split c rest
      else
        match split c rest with
        | piece :: pieces => (x :: piece) :: pieces
        | [] => [[x]]
        end
  end.

Fixpoint starts_with (p s : str) : bool :=
  match p, s with
  | [], _ => true
  | a :: p', b :: s' => (a =? b) && starts_with p' s'
  | _ :: _, [] => false
  end.

(** [p in s] *)
Fixpoint contains (p s : str) : bool :=
  starts_with p s ||
  match s with
  | [] => false
  | _ :: s' => contains p s'
  end.

(** [c.isspace()] *)
Definition is_space (c : N) : bool :=
  ((9 <=? c) && (c <=? 13)) || ((28 <=? c) && (c <=? 32))
  || (c =? 133) || (c =? 160) || (c =? 5760)
  || ((8192 <=? c) && (c <=? 8202))
  || (c =? 8232) || (c =? 8233) || (c =? 8239) || (c =? 8287) || (c =? 12288).

Fixpoint lstrip (s : str) : str :=
  match s with
  | c :: rest => if is_space c then lstrip rest else s
  | [] => []
  end.

(** [s.strip()] *)
Definition strip (s : str) : str := rev (lstrip (rev (lstrip s))).

End pystr.

(** ** Big-endian integers ([int.from_bytes], [number_to_string]) *)

Module BigEndian.

Local Open Scope Z_scope.

(** [int.from_bytes(b, 'big')] *)
Definition to_Z (b : bytes) : Z :=
  fold_left (fun acc x => acc * 256 + Z_of_byte x) b 0.

(** The [len] low-order bytes of [z], most significant first. *)
Fixpoint of_Z (len : nat) (z : Z) : bytes :=
  match len with
  | O => []
  | S k => of_Z k (z / 256) ++ [byte_of_Z (z mod 256)]
  end.

(** The [len] low-order bytes of [z], least significant first. *)
Fixpoint of_Z_le (len : nat) (z : Z) : bytes :=
  match len with
  | O => []
  | S k => byte_of_Z (z mod 256) :: of_Z_le k (z / 256)
  end.

Definition to_Z_le (b : bytes) : Z :=
  fold_right (fun x acc => Z_of_byte x + 256 * acc) 0 b.

(** Consecutive chunks of [size] elements; [fuel] bounds their number. *)
Fixpoint chunks {A} (size : nat) (fuel : nat) (l : list A) : list (list A) :=
  match fuel with
  | O => []
  | S f =>
      match l with
      | [] => []
      | _ => firstn size l :: chunks size f (skipn size l)
      end
  end.

End BigEndian.

(** ** [hashlib]: SHA-256 and SHA-1 (FIPS 180-4) *)

Module hashlib.

Import BigEndian.
Local Open Scope Z_scope.

Definition w32 (x : Z) : Z := x mod 2 ^ 32.
Definition rotr (n x : Z) : Z :=
  Z.lor (Z.shiftr x n) (w32 (Z.shiftl x (32 - n))).
Definition rotl (n x : Z) : Z := rotr (32 - n) x.
Definition not32 (x : Z) : Z := 2 ^ 32 - 1 - x.

(** Message padding shared by SHA-1 and SHA-256: a one bit, zeros, and the
    bit length on eight bytes, up to a multiple of 64 bytes. *)
Definition pad (m : bytes) : bytes :=
  let len := Z.of_nat (length m) in
  m ++ [x80] ++ repeat x00 (Z.to_nat ((55 - len) mod 64)) ++ of_Z 8 (8 * len).

Definition words (block : bytes) : list Z :=
  map to_Z (chunks 4 16 block).

Definition blocks (m : bytes) : list (list Z) :=
  map words (chunks 64 (S (length m)) (pad m)).

Definition primes64 : list Z :=
  [2; 3; 5; 7; 11; 13; 17; 19; 23; 29; 31; 37; 41; 43; 47; 53;
   59; 61; 67; 71; 73; 79; 83; 89; 97; 101; 103; 107; 109; 113; 127; 131;
   137; 139; 149; 151; 157; 163; 167; 173; 179; 181; 191; 193; 197; 199;
   211; 223; 227; 229; 233; 239; 241; 251; 257; 263; 269; 271; 277; 281;
   283; 293; 307; 311].

(** Integer cube root of a number below [2 ^ 108]. *)
Definition icbrt (x : Z) : Z :=
  fold_left
    (fun r i => let c := r + 2 ^ Z.of_nat i in
                if c * c * c <=? x then c else r)
    (rev (seq 0 36)) 0.

(** Round constants: the fractional parts of the cube roots of the first
    sixty-four primes. *)
Definition K256 : list Z :=
  Eval vm_compute in map (fun p => w32 (icbrt (p * 2 ^ 96))) primes64.

(** Initial state: the fractional parts of the square roots of the first
    eight primes. *)
Definition H256 : list Z :=
  Eval vm_compute in
    map (fun p => w32 (Z.sqrt (p * 2 ^ 64))) (firstn 8 primes64).

Record state256 : Type := State256 {
  ha : Z; hb : Z; hc : Z; hd : Z; he : Z; hf : Z; hg : Z; hh : Z
}.

Definition init256 : state256 :=
  match H256 with
  | [a; b; c; d; e; f; g; h] => State256 a b c d e f g h
  | _ => State256 0 0 0 0 0 0 0 0
  end.

Definition ch (x y z : Z) : Z := Z.lxor (Z.land x y) (Z.land (not32 x) z).
Definition maj (x y z : Z) : Z :=
  Z.lxor (Z.lxor (Z.land x y) (Z.land x z)) (Z.land y z).
Definition bsig0 x := Z.lxor (Z.lxor (rotr 2 x) (rotr 13 x)) (rotr 22 x).
Definition bsig1 x := Z.lxor (Z.lxor (rotr 6 x) (rotr 11 x)) (rotr 25 x).
Definition ssig0 x := Z.lxor (Z.lxor (rotr 7 x) (rotr 18 x)) (Z.shiftr x 3).
Definition ssig1 x := Z.lxor (Z.lxor (rotr 17 x) (rotr 19 x)) (Z.shiftr x 10).

(** The schedule is kept as a window of sixteen words, [w] holding
    [W(t) .. W(t+15)]. *)
Definition next256 (w : list Z) : list Z :=
  tl w ++ [w32 (ssig1 (nth 14 w 0) + nth 9 w 0 + ssig0 (nth 1 w 0) + nth 0 w 0)].

Definition round256 (sw : state256 * list Z) (k : Z) : state256 * list Z :=
  let (s, w) := sw in
  let t1 := hh s + bsig1 (he s) + ch (he s) (hf s) (hg s) + k + nth 0 w 0 in
  let t2 := bsig0 (ha s) + maj (ha s) (hb s) (hc s) in
  (State256 (w32 (t1 + t2)) (ha s) (hb s) (hc s)
            (w32 (hd s + t1)) (he s) (hf s) (hg s),
   next256 w).

Definition compress256 (s : state256) (block : list Z) : state256 :=
  let (r, _) := fold_left round256 K256 (s, block) in
  State256 (w32 (ha s + ha r)) (w32 (hb s + hb r)) (w32 (hc s + hc r))
           (w32 (hd s + hd r)) (w32 (he s + he r)) (w32 (hf s + hf r))
           (w32 (hg s + hg r)) (w32 (hh s + hh r)).

(** [hashlib.sha256(m).digest()] *)
Definition sha256 (m : bytes) : bytes :=
  let s := fold_left compress256 (blocks m) init256 in
  of_Z 4 (ha s) ++ of_Z 4 (hb s) ++ of_Z 4 (hc s) ++ of_Z 4 (hd s) ++
  of_Z 4 (he s) ++ of_Z 4 (hf s) ++ of_Z 4 (hg s) ++ of_Z 4 (hh s).

(** [hashlib.sha256(m).hexdigest()] *)
Definition sha256_hexdigest (m : bytes) : str := pystr.hex (sha256 m).

Record state1 : Type := State1 { sa : Z; sb : Z; sc : Z; sd : Z; se : Z }.

Definition init1 : state1 :=
  State1 0x67452301 0xEFCDAB89 0x98BADCFE 0x10325476 0xC3D2E1F0.

Definition next1 (w : list Z) : list Z :=
  tl w ++ [rotl 1 (Z.lxor (Z.lxor (nth 13 w 0) (nth 8 w 0))
                          (Z.lxor (nth 2 w 0) (nth 0 w 0)))].

Definition f1 (t : nat) (b c d : Z) : Z :=
  if (t <? 20)%nat then ch b c d
  else if (t <? 40)%nat then Z.lxor (Z.lxor b c) d
  else if (t <? 60)%nat then maj b c d
  else Z.lxor (Z.lxor b c) d.

Definition k1 (t : nat) : Z :=
  if (t <? 20)%nat then 0x5A827999
  else if (t <? 40)%nat then 0x6ED9EBA1
  else if (t <? 60)%nat then 0x8F1BBCDC
  else 0xCA62C1D6.

Definition round1 (sw : state1 * list Z) (t : nat) : state1 * list Z :=
  let (s, w) := sw in
  let tmp := w32 (rotl 5 (sa s) + f1 t (sb s) (sc s) (sd s) + se s + k1 t
                  + nth 0 w 0) in
  (State1 tmp (sa s) (rotl 30 (sb s)) (sc s) (sd s), next1 w).

Definition compress1 (s : state1) (block : list Z) : state1 :=
  let (r, _) := fold_left round1 (seq 0 80) (s, block) in
  State1 (w32 (sa s + sa r)) (w32 (sb s + sb r)) (w32 (sc s + sc r))
         (w32 (sd s + sd r)) (w32 (se s + se r)).

(** [hashlib.sha1(m).digest()] *)
Definition sha1 (m : bytes) : bytes :=
  let s := fold_left compress1 (blocks m) init1 in
  of_Z 4 (sa s) ++ of_Z 4 (sb s) ++ of_Z 4 (sc s) ++ of_Z 4 (sd s) ++
  of_Z 4 (se s).

End hashlib.

(** ** [sha3] / [Crypto.Hash.keccak]: Keccak-256 (original padding) *)

Module sha3.

Import BigEndian.
Local Open Scope Z_scope.

Definition w64 (x : Z) : Z := x mod 2 ^ 64.
Definition rol64 (n x : Z) : Z :=
  Z.lor (w64 (Z.shiftl x n)) (Z.shiftr x (64 - n)).
Definition not64 (x : Z) : Z := 2 ^ 64 - 1 - x.

(** The state is a list of twenty-five lanes, lane [(x, y)] at index
    [x + 5 * y]. *)
Definition lane (A : list Z) (x y : nat) : Z :=
  nth ((x mod 5) + 5 * (y mod 5)) A 0.

Definition coords : list (nat * nat) :=
  flat_map (fun y => map (fun x => (x, y)) (seq 0 5)) (seq 0 5).

Definition rotation : list Z :=
  [0; 1; 62; 28; 27;  36; 44; 6; 55; 20;  3; 10; 43; 25; 39;
   41; 45; 15; 21; 8;  18; 2; 61; 56; 14].

Definition round_constants : list Z :=
  [0x1; 0x8082; 0x800000000000808a; 0x8000000080008000; 0x808b;
   0x80000001; 0x8000000080008081; 0x8000000000008009; 0x8a; 0x88;
   0x80008009; 0x8000000a; 0x8000808b; 0x800000000000008b;
   0x8000000000008089; 0x8000000000008003; 0x8000000000008002;
   0x8000000000000080; 0x800a; 0x800000008000000a; 0x8000000080008081;
   0x8000000000008080; 0x80000001; 0x8000000080008008].

Definition theta (A : list Z) : list Z :=
  let C x := fold_left Z.lxor (map (lane A x) (seq 0 5)) 0 in
  let D x := Z.lxor (C (x + 4)%nat) (rol64 1 (C (x + 1)%nat)) in
  map (fun xy => Z.lxor (lane A (fst xy) (snd xy)) (D (fst xy))) coords.

Definition rho_pi (A : list Z) : list Z :=
  map (fun XY =>
         let x := ((fst XY + 3 * snd XY) mod 5)%nat in
         let y := fst XY in
         rol64 (nth (x + 5 * y) rotation 0) (lane A x y))
      coords.

Definition chi (B : list Z) : list Z :=
  map (fun xy : nat * nat =>
         let (x, y) := xy in
         Z.lxor (lane B x y)
                (Z.land (not64 (lane B (x + 1) y)) (lane B (x + 2) y)))
      coords.

Definition iota (rc : Z) (A : list Z) : list Z :=
  match A with
  | a :: rest => Z.lxor a rc :: rest
  | [] => []
  end.

Definition keccak_round (A : list Z) (rc : Z) : list Z :=
  iota rc (chi (rho_pi (theta A))).

Definition keccak_f (A : list Z) : list Z :=
  fold_left keccak_round round_constants A.

Definition rate : nat := 136.

Definition pad (m : bytes) : bytes :=
  let q := (rate - (length m mod rate))%nat in
  m ++ match q with
       | 1%nat => [x81]
       | _ => [x01] ++ repeat x00 (q - 2) ++ [x80]
       end.

Fixpoint xor_lanes (A B : list Z) : list Z :=
  match A, B with
  | a :: A', b :: B' => Z.lxor a b :: xor_lanes A' B'
  | _, [] => A
  | [], _ => []
  end.

Definition absorb (A : list Z) (block : bytes) : list Z :=
  keccak_f (xor_lanes A (map to_Z_le (chunks 8 17 block))).

(** [sha3.keccak_256(m).digest()], also
    [keccak.new(digest_bits=256).update(m).digest()] *)
Definition keccak_256 (m : bytes) : bytes :=
  let A := fold_left absorb (chunks rate (S (length m)) (pad m))
                     (repeat 0 25) in
  of_Z_le 8 (nth 0 A 0) ++ of_Z_le 8 (nth 1 A 0) ++
  of_Z_le 8 (nth 2 A 0) ++ of_Z_le 8 (nth 3 A 0).

End sha3.

(** ** [ecdsa]: keys and signatures over secp256k1

    A model of the parts of the python-ecdsa library the module calls:
    [SigningKey.from_string], [get_verifying_key], [to_string],
    [SigningKey.sign] and [VerifyingKey.verify], with the library defaults
    (SHA-1 digest, raw [r || s] signature encoding).  The nonce that
    [sign] draws from the system entropy is an explicit argument. *)

Module ecdsa.

Import BigEndian.
Local Open Scope Z_scope.

Definition p : Z := 2 ^ 256 - 2 ^ 32 - 977.
Definition order : Z :=
  0xFFFFFFFFFFFFFFFFFFFFFFFFFFFFFFFEBAAEDCE6AF48A03BBFD25E8CD0364141.
Definition Gx : Z :=
  0x79BE667EF9DCBBAC55A06295CE870B07029BFCDB2DCE28D959F2815B16F81798.
Definition Gy : Z :=
  0x483ADA7726A3C4655DA4FBFC0E1108A8FD17B448A68554199C47D08FFB10D4B8.
Definition baselen : nat := 32.

Inductive point : Type :=
| Infinity
| Affine (x y : Z).

Definition generator : point := Affine Gx Gy.

(** Field and scalar arithmetic runs on [bigZ] so that keys can be
    computed; points and scalars are exchanged as [Z]. *)
Definition mulm (m a b : bigZ) : bigZ := BigZ.modulo (BigZ.mul a b) m.
Definition subm (m a b : bigZ) : bigZ := BigZ.modulo (BigZ.sub a b) m.

Fixpoint powmod (m a : bigZ) (e : positive) : bigZ :=
  match e with
  | xH => BigZ.modulo a m
  | xO e' => let h := powmod m a e' in mulm m h h
  | xI e' => let h := powmod m a e' in mulm m (mulm m h h) a
  end.

(** Inverse modulo a prime [m]. *)
Definition inverse_mod (a m : Z) : Z :=
  match m - 2 with
  | Zpos e => BigZ.to_Z (powmod (BigZ.of_Z m) (BigZ.of_Z a) e)
  | _ => 0
  end.

Definition bp : bigZ := BigZ.of_Z p.
Definition is_zero (a : bigZ) : bool := BigZ.eqb a BigZ.zero.
Definition small (k : Z) (a : bigZ) : bigZ := BigZ.mul (BigZ.of_Z k) a.

(** Jacobian coordinates [(X, Y, Z)], the point at infinity having
    [Z = 0]. *)
Definition jac : Type := (bigZ * bigZ * bigZ)%type.

Definition jac_infinity : jac := (BigZ.zero, BigZ.one, BigZ.zero).

Definition jac_double (P : jac) : jac :=
  let '(X, Y, Zc) := P in
  if is_zero Zc || is_zero Y then jac_infinity
  else
    let YY := mulm bp Y Y in
    let Sv := mulm bp (small 4 X) YY in
    let Mv := mulm bp (small 3 X) X in
    let X' := subm bp (BigZ.mul Mv Mv) (small 2 Sv) in
    (X',
     subm bp (BigZ.mul Mv (BigZ.sub Sv X')) (small 8 (BigZ.mul YY YY)),
     mulm bp (small 2 Y) Zc).

Definition jac_add (P Q : jac) : jac :=
  let '(X1, Y1, Z1) := P in
  let '(X2, Y2, Z2) := Q in
  if is_zero Z1 then Q
  else if is_zero Z2 then P
  else
    let Z1Z1 := mulm bp Z1 Z1 in
    let Z2Z2 := mulm bp Z2 Z2 in
    let U1 := mulm bp X1 Z2Z2 in
    let U2 := mulm bp X2 Z1Z1 in
    let S1 := mulm bp (mulm bp Y1 Z2) Z2Z2 in
    let S2 := mulm bp (mulm bp Y2 Z1) Z1Z1 in
    if BigZ.eqb U1 U2 then
      if BigZ.eqb S1 S2 then jac_double P else jac_infinity
    else
      let H := subm bp U2 U1 in
      let R := subm bp S2 S1 in
      let HH := mulm bp H H in
      let HHH := mulm bp H HH in
      let V := mulm bp U1 HH in
      let X3 := subm bp (BigZ.sub (BigZ.mul R R) HHH) (small 2 V) in
      (X3,
       subm bp (BigZ.mul R (BigZ.sub V X3)) (BigZ.mul S1 HHH),
       mulm bp (mulm bp H Z1) Z2).

Fixpoint jac_mul (k : positive) (P : jac) : jac :=
  match k with
  | xH => P
  | xO k' => jac_double (jac_mul k' P)
  | xI k' => jac_add (jac_double (jac_mul k' P)) P
  end.

Definition to_jac (P : point) : jac :=
  match P with
  | Infinity => jac_infinity
  | Affine x y => (BigZ.of_Z x, BigZ.of_Z y, BigZ.one)
  end.

Definition of_jac (P : jac) : point :=
  let '(X, Y, Zc) := P in
  if is_zero Zc then Infinity
  else
    let zi := match p - 2 with Zpos e => powmod bp Zc e | _ => BigZ.zero end in
    let zi2 := mulm bp zi zi in
    Affine (BigZ.to_Z (mulm bp X zi2))
           (BigZ.to_Z (mulm bp (mulm bp Y zi2) zi)).

(** [k * P] *)
Definition mul (k : Z) (P : point) : point :=
  match k with
  | Zpos q => of_jac (jac_mul q (to_jac P))
  | _ => Infinity
  end.

(** [P + Q] *)
Definition add (P Q : point) : point := of_jac (jac_add (to_jac P) (to_jac Q)).

Record SigningKey : Type := { secexp : Z }.
Record VerifyingKey : Type := { pubkey_point : point }.

(** [SigningKey.from_string(s, curve=SECP256k1)] *)
Definition from_string (s : bytes) : result SigningKey :=
  if negb (length s =? baselen)%nat then Raise MalformedPointError
  else
    let d := to_Z s in
    if (1 <=? d) && (d <? order) then Ok {| secexp := d |}
    else Raise MalformedPointError.

(** [sk.to_string()] *)
Definition sk_to_string (sk : SigningKey) : bytes := of_Z baselen (secexp sk).

(** [sk.get_verifying_key()] *)
Definition get_verifying_key (sk : SigningKey) : VerifyingKey :=
  {| pubkey_point := mul (secexp sk) generator |}.

(** [vk.to_string()]: the raw encoding [x || y]. *)
Definition vk_to_string (vk : VerifyingKey) : bytes :=
  match pubkey_point vk with
  | Affine x y => of_Z baselen x ++ of_Z baselen y
  | Infinity => []
  end.

(** [sk.sign(data)] with nonce [k]. *)
Definition sign (sk : SigningKey) (data : bytes) (k : Z) : result bytes :=
  let z := to_Z (hashlib.sha1 data) in
  let k := k mod order in
  match mul k generator with
  | Infinity => Raise TypeError
  | Affine x _ =>
      let r := x mod order in
      if r =? 0 then Raise RSZeroError
      else
        let s := (inverse_mod k order * (z + (secexp sk * r) mod order))
                 mod order in
        if s =? 0 then Raise RSZeroError
        else Ok (of_Z baselen r ++ of_Z baselen s)
  end.

Definition verifies (vk : VerifyingKey) (z r s : Z) : result bool :=
  if (r <? 1) || (order - 1 <? r) then Ok false
  else if (s <? 1) || (order - 1 <? s) then Ok false
  else
    let c := inverse_mod s order in
    let u1 := (z * c) mod order in
    let u2 := (r * c) mod order in
    match add (mul u1 generator) (mul u2 (pubkey_point vk)) with
    | Infinity => Raise TypeError
    | Affine x _ => Ok (x mod order =? r)
    end.

(** [vk.verify(signature, data)]: returns [True] or raises. *)
Definition verify (vk : VerifyingKey) (signature data : bytes)
  : result bool :=
  let z := to_Z (hashlib.sha1 data) in
  if negb (length signature =? 2 * baselen)%nat then Raise BadSignatureError
  else
    let r := to_Z (firstn baselen signature) in
    let s := to_Z (skipn baselen signature) in
    rbind (verifies vk z r s) (fun ok =>
    if ok then Ok true else Raise BadSignatureError).

End ecdsa.

(** ** The process: configuration, objects, world *)

(** What is fixed when the module is imported: which optional libraries
    are installed, and the two salt locations read from the environment
    variables [SALT_PATH] and [SALT_BACKUP_PATH]. *)
Record Env : Type := {
  ECDSA_AVAILABLE : bool;
  has_pysha3 : bool;
  has_pycryptodome : bool;
  SALT_PATH : str;
  SALT_BACKUP_PATH : str
}.

(** Module lines 18-31: the flag is set by whichever import succeeds. *)
Definition KECCAK_AVAILABLE (env : Env) : bool :=
  has_pysha3 env || has_pycryptodome env.

(** The defaults, for a user whose home directory is [/home/pi]. *)
Definition default_env : Env :=
  {| ECDSA_AVAILABLE := true;
     has_pysha3 := true;
     has_pycryptodome := false;
     SALT_PATH := lit "/boot/.device_salt";
     SALT_BACKUP_PATH := lit "/home/pi/.lensmint/.device_salt_backup" |}.

(** An instance of the class [HardwareIdentity]. *)
Record HardwareIdentity : Type := {
  salt : option bytes;
  private_key : option ecdsa.SigningKey;
  public_key : option ecdsa.VerifyingKey;
  address : option str;
  initialized : bool;
  camera_id : option str
}.

(** The lines the module prints on standard output, one constructor per
    [print] call of the modelled functions. *)
Inductive event : Type :=
| SaltLoaded (path : str)               (* Salt loaded from <path> *)
| SaltPermissionDenied (path : str)     (* Permission denied reading <path> *)
| SaltLoadedBackup (path : str)         (* Salt loaded from backup: <path> *)
| SaltBackupError (e : exn)             (* Error reading backup salt *)
| SaltCreating                          (* Creating new device salt... *)
| SaltSaved (path : str)                (* Salt saved to <path> *)
| SaltWriteFailed (path : str) (e : exn) (* Cannot write to <path> *)
| SaltSavedBackup (path : str)          (* Salt saved to backup: <path> *)
| CameraIdFound (id : str)              (* Camera ID: <id> *)
| SerialFound (serial : str)            (* CPU Serial: <serial> *)
| SerialError (e : exn)                 (* Could not read CPU serial *)
| MacFound (interface mac : str)        (* MAC Address (<interface>): <mac> *)
| MachineIdFound (id : str)             (* Machine ID: <id> *)
| ComponentsFound (n : nat)             (* Hardware ID components: <n> found *)
| KeccakFailed (e : exn)                (* keccak256 calculation failed *)
| Sha256AddressWarning                  (* Using SHA256 for address *)
| Initialized (address_prefix : str)    (* Hardware identity initialized *)
| InitError (e : exn).                  (* Error initializing hardware identity *)

(** Everything outside the interpreter that the module reads or writes.
    - [files] holds the binary files by path: a path has an entry when
      [os.stat] succeeds on it; [read_fault], [write_fault], [chmod_fault]
      and [mkdir_fault] say which system calls fail, and how;
    - [stat_fault] gives, for a path without entry, the error of [os.stat]
      when the path cannot be examined: [os.path.exists] answers [False]
      for such a path, [Path.exists] raises the error unless it means
      absence;
    - [write_progress] says how far a failing write gets: [None] when
      [open] fails and the file is left as it is, [Some n] when the file
      has been created or truncated and at most [n] bytes have been
      written;
    - [entropy] is the stream behind [os.urandom]; [nonces] holds the
      nonces of the signatures, which the signing library draws from
      [os.urandom] too: they are kept apart, and their range is left open,
      so that what is proved of a signature holds for every nonce;
    - [cpuinfo] is what [cat /proc/cpuinfo] prints (or the exception of
      [subprocess.run]), [net_address] the content of
      [/sys/class/net/<interface>/address] ([None] when the path does not
      exist), [machine_id] that of [/etc/machine-id];
    - [stdout] is what has been printed, oldest first;
    - [_hardware_identity] is the module global. *)
Record world : Type := {
  files : str -> option bytes;
  read_fault : str -> option exn;
  write_fault : str -> option exn;
  chmod_fault : str -> option exn;
  mkdir_fault : str -> option exn;
  stat_fault : str -> option exn;
  write_progress : str -> option nat;
  entropy : nat -> byte;
  entropy_pos : nat;
  nonces : nat -> Z;
  nonce_pos : nat;
  cpuinfo : result str;
  net_address : str -> option (result str);
  machine_id : option (result str);
  stdout : list event;
  _hardware_identity : option HardwareIdentity
}.

Definition set_files (f : str -> option bytes) (w : world) : world :=
  {| files := f; read_fault := read_fault w; write_fault := write_fault w;
     chmod_fault := chmod_fault w; mkdir_fault := mkdir_fault w;
     stat_fault := stat_fault w; write_progress := write_progress w;
     entropy := entropy w; entropy_pos := entropy_pos w;
     nonces := nonces w; nonce_pos := nonce_pos w;
     cpuinfo := cpuinfo w; net_address := net_address w;
     machine_id := machine_id w; stdout := stdout w;
     _hardware_identity := _hardware_identity w |}.

Definition set_entropy_pos (n : nat) (w : world) : world :=
  {| files := files w; read_fault := read_fault w;
     write_fault := write_fault w;
     chmod_fault := chmod_fault w; mkdir_fault := mkdir_fault w;
     stat_fault := stat_fault w; write_progress := write_progress w;
     entropy := entropy w; entropy_pos := n;
     nonces := nonces w; nonce_pos := nonce_pos w;
     cpuinfo := cpuinfo w; net_address := net_address w;
     machine_id := machine_id w; stdout := stdout w;
     _hardware_identity := _hardware_identity w |}.

Definition set_nonce_pos (n : nat) (w : world) : world :=
  {| files := files w; read_fault := read_fault w;
     write_fault := write_fault w;
     chmod_fault := chmod_fault w; mkdir_fault := mkdir_fault w;
     stat_fault := stat_fault w; write_progress := write_progress w;
     entropy := entropy w; entropy_pos := entropy_pos w;
     nonces := nonces w; nonce_pos := n;
     cpuinfo := cpuinfo w; net_address := net_address w;
     machine_id := machine_id w; stdout := stdout w;
     _hardware_identity := _hardware_identity w |}.

Definition set_stdout (out : list event) (w : world) : world :=
  {| files := files w; read_fault := read_fault w;
     write_fault := write_fault w;
     chmod_fault := chmod_fault w; mkdir_fault := mkdir_fault w;
     stat_fault := stat_fault w; write_progress := write_progress w;
     entropy := entropy w; entropy_pos := entropy_pos w;
     nonces := nonces w; nonce_pos := nonce_pos w;
     cpuinfo := cpuinfo w; net_address := net_address w;
     machine_id := machine_id w; stdout := out;
     _hardware_identity := _hardware_identity w |}.

Definition set_hardware_identity (h : option HardwareIdentity) (w : world)
  : world :=
  {| files := files w; read_fault := read_fault w;
     write_fault := write_fault w;
     chmod_fault := chmod_fault w; mkdir_fault := mkdir_fault w;
     stat_fault := stat_fault w; write_progress := write_progress w;
     entropy := entropy w; entropy_pos := entropy_pos w;
     nonces := nonces w; nonce_pos := nonce_pos w;
     cpuinfo := cpuinfo w; net_address := net_address w;
     machine_id := machine_id w; stdout := stdout w;
     _hardware_identity := h |}.

(** ** A state and exception monad over the world *)

Definition M (A : Type) : Type := world -> result A * world.

Definition ret {A} (a : A) : M A := fun w => (Ok a, w).
Definition raise {A} (e : exn) : M A := fun w => (Raise e, w).
Definition lift {A} (r : result A) : M A := fun w => (r, w).

Definition bind {A B} (m : M A) (k : A -> M B) : M B :=
  fun w =>
    match m w with
    | (Ok a, w') => k a w'
    | (Raise e, w') => (Raise e, w')
    end.

(** [try: m  except <catches>: handler]; the effects of [m] up to the
    exception are kept. *)
Definition try_except {A} (m : M A) (catches : exn -> bool)
           (handler : exn -> M A) : M A :=
  fun w =>
    match m w with
    | (Ok a, w') => (Ok a, w')
    | (Raise e, w') => if catches e then handler e w' else (Raise e, w')
    end.

Definition any_exception (e : exn) : bool := true.

Declare Scope py_scope.
Delimit Scope py_scope with py.
Notation "x <- m ;; k" := (bind m (fun x => k))
  (at level 61, m at next level, right associativity) : py_scope.
Notation "m ;;; k" := (bind m (fun _ => k))
  (at level 61, right associativity) : py_scope.
Local Open Scope py_scope.

Definition print (ev : event) : M unit :=
  fun w => (Ok tt, set_stdout (stdout w ++ [ev]) w).

(** [os.path.exists(path)] *)
Definition path_exists (path : str) : M bool :=
  fun w => (Ok (match files w path with Some _ => true | None => false end), w).

(** [with open(path, "rb") as f: f.read()] *)
Definition read_binary (path : str) : M bytes :=
  fun w =>
    match read_fault w path with
    | Some e => (Raise e, w)
    | None =>
        match files w path with
        | Some data => (Ok data, w)
        | None => (Raise FileNotFoundError, w)
        end
    end.

(** [isinstance(e, FileNotFoundError)], or a [ValueError]: the errors of
    [os.stat] that [Path.exists] takes for the absence of the file. *)
Definition is_absence (e : exn) : bool :=
  match e with
  | FileNotFoundError | ValueError => true
  | _ => false
  end.

(** [path.exists()] of [pathlib]: unlike [os.path.exists], it raises the
    error of [os.stat] again when that does not mean absence. *)
Definition pathlib_exists (path : str) : M bool :=
  fun w =>
    match files w path with
    | Some _ => (Ok true, w)
    | None =>
        match stat_fault w path with
        | Some e => if is_absence e then (Ok false, w) else (Raise e, w)
        | None => (Ok false, w)
        end
    end.

(** [with open(path, "wb") as f: f.write(data)], and the same in text
    mode.  [open] creates or truncates the file before anything is
    written, so that a write that fails later leaves the beginning of
    [data], or nothing, in the file. *)
Definition write_binary (path : str) (data : bytes) : M unit :=
  fun w =>
    match write_fault w path with
    | Some e =>
        match write_progress w path with
        | None => (Raise e, w)
        | Some n =>
            (Raise e,
             set_files
               (fun q => if str_eqb q path then Some (firstn n data)
                         else files w q) w)
        end
    | None =>
        (Ok tt,
         set_files (fun q => if str_eqb q path then Some data else files w q) w)
    end.

(** [os.chmod(path, stat.S_IRUSR | stat.S_IWUSR)] *)
Definition chmod (path : str) : M unit :=
  fun w =>
    match chmod_fault w path with
    | Some e => (Raise e, w)
    | None => (Ok tt, w)
    end.

(** [path.parent.mkdir(parents=True, exist_ok=True)] *)
Definition mkdir_parent (path : str) : M unit :=
  fun w =>
    match mkdir_fault w path with
    | Some e => (Raise e, w)
    | None => (Ok tt, w)
    end.

(** [os.urandom(n)] *)
Definition os_urandom (n : nat) : M bytes :=
  fun w =>
    (Ok (map (entropy w) (seq (entropy_pos w) n)),
     set_entropy_pos (entropy_pos w + n) w).

(** The nonce of [SigningKey.sign]: the next one of the stream [nonces].
    The library draws it from [os.urandom], below the order of the curve;
    here any integer can come, and the random source of the salt is not
    advanced. *)
Definition draw_nonce : M Z :=
  fun w => (Ok (nonces w (nonce_pos w)), set_nonce_pos (S (nonce_pos w)) w).

(** ** The class [HardwareIdentity] *)

(** An argument that the caller may pass as [str] or as [bytes]. *)
Inductive pyarg : Type :=
| PyStr (s : str)
| PyBytes (b : bytes).

(** The dictionary returned by [sign_hash]. *)
Record SignatureRecord : Type := {
  rec_signature : str;
  rec_address : option str;
  rec_algorithm : str;
  rec_salt_path : str
}.

Definition not_initialized : exn :=
  RuntimeError "Hardware identity not initialized".
Definition no_identifiers : exn :=
  RuntimeError "Could not collect any hardware identifiers".
Definition ecdsa_required : exn :=
  RuntimeError "ecdsa library required. Install with: pip3 install ecdsa".

(** [b[-n:]] *)
Definition last_bytes (n : nat) (b : bytes) : bytes :=
  skipn (length b - n) b.

(** First line of the output that contains ['Serial']. *)
Fixpoint find_serial_line (lines : list str) : option str :=
  match lines with
  | [] => None
  | line :: rest =>
      if pystr.contains (lit "Serial") line then Some line
      else find_serial_line rest
  end.

(** The attributes assigned at the top of [__init__], lines 39-44. *)
Definition fresh_object (cam : option str) : HardwareIdentity :=
  {| salt := None; private_key := None; public_key := None;
     address := None; initialized := false; camera_id := cam |}.

Section Identity.

Variable env : Env.

(** [_get_or_create_salt], source lines 65-103.  The two [return]
    statements inside the reads are modelled by an [option]: [None] means
    that control falls through to the next candidate.  The primary path
    is examined with [os.path.exists], which never raises; the backup
    path with [Path.exists], outside the [try] of the read. *)
Definition try_primary : M (option bytes) :=
  ex <- path_exists (SALT_PATH env) ;;
  if ex then
    try_except
      (salt <- read_binary (SALT_PATH env) ;;
       if (length salt =? 32)%nat then
         print (SaltLoaded (SALT_PATH env)) ;;; ret (Some salt)
       else ret None)
      is_PermissionError
      (fun _ => print (SaltPermissionDenied (SALT_PATH env)) ;;; ret None)
  else ret None.

Definition try_backup : M (option bytes) :=
  ex <- pathlib_exists (SALT_BACKUP_PATH env) ;;
  if ex then
    try_except
      (salt <- read_binary (SALT_BACKUP_PATH env) ;;
       if (length salt =? 32)%nat then
         print (SaltLoadedBackup (SALT_BACKUP_PATH env)) ;;; ret (Some salt)
       else ret None)
      any_exception
      (fun e => print (SaltBackupError e) ;;; ret None)
  else ret None.

Definition create_salt : M bytes :=
  print SaltCreating ;;;
  salt <- os_urandom 32 ;;
  try_except
    (write_binary (SALT_PATH env) salt ;;;
     chmod (SALT_PATH env) ;;;
     print (SaltSaved (SALT_PATH env)))
    is_OSError
    (fun e =>
       print (SaltWriteFailed (SALT_PATH env) e) ;;;
       mkdir_parent (SALT_BACKUP_PATH env) ;;;
       write_binary (SALT_BACKUP_PATH env) salt ;;;
       chmod (SALT_BACKUP_PATH env) ;;;
       print (SaltSavedBackup (SALT_BACKUP_PATH env))) ;;;
  ret salt.

Definition _get_or_create_salt : M bytes :=
  primary <- try_primary ;;
  match primary with
  | Some salt => ret salt
  | None =>
      backup <- try_backup ;;
      match backup with
      | Some salt => ret salt
      | None => create_salt
      end
  end.

(** [_get_hardware_id], source lines 105-155, one definition per source
    of identifiers; each takes the list built so far. *)
Definition collect_camera (cam : option str) (identifiers : list str)
  : M (list str) :=
  match cam with
  | Some (c :: cs) =>
      print (CameraIdFound (c :: cs)) ;;;
      ret (identifiers ++ [lit "camera:" ++ c :: cs])
  | _ => ret identifiers
  end.

Definition collect_serial (identifiers : list str) : M (list str) :=
  try_except
    (out <- (fun w => (cpuinfo w, w)) ;;
     match find_serial_line (pystr.split 10 out) with
     | Some line =>
         match nth_error (pystr.split 58 line) 1 with
         | Some field =>
             let serial := pystr.strip field in
             print (SerialFound serial) ;;;
             ret (identifiers ++ [lit "serial:" ++ serial])
         | None => raise IndexError
         end
     | None => ret identifiers
     end)
    any_exception
    (fun e => print (SerialError e) ;;; ret identifiers).

Fixpoint collect_mac (interfaces : list str) (identifiers : list str)
  : M (list str) :=
  match interfaces with
  | [] => ret identifiers
  | interface :: rest =>
      fun w =>
        match net_address w interface with
        | Some (Ok content) =>
            let mac := pystr.strip content in
            (print (MacFound interface mac) ;;;
             ret (identifiers ++ [lit "mac:" ++ mac])) w
        | Some (Raise _) => collect_mac rest identifiers w
        | None => collect_mac rest identifiers w
        end
  end.

Definition collect_machine (identifiers : list str) : M (list str) :=
  fun w =>
    match machine_id w with
    | Some (Ok content) =>
        let id := pystr.strip content in
        (print (MachineIdFound id) ;;;
         ret (identifiers ++ [lit "machine:" ++ id])) w
    | Some (Raise _) => (Ok identifiers, w)
    | None => (Ok identifiers, w)
    end.

Definition collect_identifiers (cam : option str) : M (list str) :=
  identifiers <- collect_camera cam [] ;;
  identifiers <- collect_serial identifiers ;;
  identifiers <- collect_mac [lit "wlan0"; lit "eth0"] identifiers ;;
  collect_machine identifiers.

Definition _get_hardware_id (self : HardwareIdentity) : M bytes :=
  identifiers <- collect_identifiers (camera_id self) ;;
  match identifiers with
  | [] => raise no_identifiers
  | _ =>
      let hw_string := pystr.join (lit "|") identifiers in
      print (ComponentsFound (length identifiers)) ;;;
      lift (pystr.encode_utf8 hw_string)
  end.

(** [_derive_key], source lines 157-162. *)
Definition _derive_key (hw_id salt : bytes)
  : result (ecdsa.SigningKey * ecdsa.VerifyingKey) :=
  let combined := hw_id ++ salt in
  let seed := hashlib.sha256 combined in
  rbind (ecdsa.from_string seed) (fun private_key =>
  let public_key := ecdsa.get_verifying_key private_key in
  Ok (private_key, public_key)).

(** The two Keccak back ends tried by [_get_address]. *)
Definition keccak_pysha3 (data : bytes) : result bytes :=
  if has_pysha3 env then Ok (sha3.keccak_256 data) else Raise ImportError.

Definition keccak_pycryptodome (data : bytes) : result bytes :=
  if has_pycryptodome env then Ok (sha3.keccak_256 data)
  else Raise ImportError.

(** [_get_address], source lines 164-188.  [None] from the first part
    means that control reaches the SHA-256 lines. *)
Definition keccak_address (pub_key_bytes : bytes) : M (option str) :=
  if KECCAK_AVAILABLE env then
    try_except
      (hash_bytes <- try_except (lift (keccak_pysha3 pub_key_bytes))
                                any_exception
                                (fun _ => lift (keccak_pycryptodome pub_key_bytes)) ;;
       let address := pystr.hex (last_bytes 20 hash_bytes) in
       ret (Some (lit "0x" ++ address)))
      any_exception
      (fun e => print (KeccakFailed e) ;;; ret None)
  else ret None.

Definition sha256_address (pub_key_bytes : bytes) : M str :=
  let address_hash := firstn 40 (hashlib.sha256_hexdigest pub_key_bytes) in
  print Sha256AddressWarning ;;;
  ret (lit "0x" ++ address_hash).

Definition _get_address (self : HardwareIdentity) : M str :=
  match public_key self with
  | None => raise AttributeError
  | Some vk =>
      let pub_key_bytes := ecdsa.vk_to_string vk in
      preferred <- keccak_address pub_key_bytes ;;
      match preferred with
      | Some address => ret address
      | None => sha256_address pub_key_bytes
      end
  end.

(** [_initialize], source lines 51-63; returns the updated object. *)
Definition _initialize (self : HardwareIdentity) : M HardwareIdentity :=
  try_except
    (salt <- _get_or_create_salt ;;
     let self :=
       {| salt := Some salt; private_key := private_key self;
          public_key := public_key self; address := address self;
          initialized := initialized self; camera_id := camera_id self |} in
     hw_id <- _get_hardware_id self ;;
     keys <- lift (_derive_key hw_id salt) ;;
     let self :=
       {| salt := Some salt; private_key := Some (fst keys);
          public_key := Some (snd keys); address := address self;
          initialized := initialized self; camera_id := camera_id self |} in
     addr <- _get_address self ;;
     let self :=
       {| salt := Some salt; private_key := Some (fst keys);
          public_key := Some (snd keys); address := Some addr;
          initialized := true; camera_id := camera_id self |} in
     print (Initialized (firstn 16 addr)) ;;;
     ret self)
    any_exception
    (fun e => print (InitError e) ;;; raise e).

(** [HardwareIdentity(camera_id=...)], source lines 38-49: the object is
    returned only when [__init__] does not raise. *)
Definition __init__ (cam : option str) : M HardwareIdentity :=
  let self := fresh_object cam in
  if negb (ECDSA_AVAILABLE env) then raise ecdsa_required
  else _initialize self.

Definition as_bytes (data : pyarg) : result bytes :=
  match data with
  | PyStr s => pystr.encode_utf8 s
  | PyBytes b => Ok b
  end.

Definition hex_as_bytes (data : pyarg) : result bytes :=
  match data with
  | PyStr s => pystr.fromhex (pystr.remove_0x s)
  | PyBytes b => Ok b
  end.

(** [private_key.sign(data)] on the object's key. *)
Definition sign_with (self : HardwareIdentity) (data : bytes) : M bytes :=
  match private_key self with
  | None => raise AttributeError
  | Some sk => k <- draw_nonce ;; lift (ecdsa.sign sk data k)
  end.

(** [sign_data], source lines 190-198. *)
Definition sign_data (self : HardwareIdentity) (data : pyarg) : M bytes :=
  if negb (initialized self) then raise not_initialized
  else
    data <- lift (as_bytes data) ;;
    sign_with self data.

(** [sign_hash], source lines 200-215. *)
Definition sign_hash (self : HardwareIdentity) (data_hash : pyarg)
  : M SignatureRecord :=
  if negb (initialized self) then raise not_initialized
  else
    data_hash <- lift (hex_as_bytes data_hash) ;;
    signature <- sign_with self data_hash ;;
    primary <- path_exists (SALT_PATH env) ;;
    ret {| rec_signature := pystr.hex signature;
           rec_address := address self;
           rec_algorithm := lit "ECDSA_SECP256k1";
           rec_salt_path :=
             if primary then SALT_PATH env else SALT_BACKUP_PATH env |}.

(** [verify_signature], source lines 217-231. *)
Definition verify_signature (self : HardwareIdentity)
           (data signature : pyarg) : result bool :=
  if negb (initialized self) then Raise not_initialized
  else
    rbind (as_bytes data) (fun data =>
    rbind (hex_as_bytes signature) (fun signature =>
    match
      match public_key self with
      | None => Raise AttributeError
      | Some vk => ecdsa.verify vk signature data
      end
    with
    | Ok _ => Ok true
    | Raise _ => Ok false
    end)).

(** [get_public_key_hex], [get_address], [get_camera_id]. *)
Definition get_public_key_hex (self : HardwareIdentity)
  : result (option str) :=
  if negb (initialized self) then Ok None
  else
    match public_key self with
    | None => Raise AttributeError
    | Some vk => Ok (Some (pystr.hex (ecdsa.vk_to_string vk)))
    end.

Definition get_address (self : HardwareIdentity) : option str := address self.
Definition get_camera_id (self : HardwareIdentity) : option str :=
  camera_id self.

(** [a != b] on camera ids, each a [str] or [None]. *)
Definition camera_id_differs (a b : option str) : bool :=
  match a, b with
  | None, None => false
  | Some x, Some y => negb (str_eqb x y)
  | _, _ => true
  end.

(** [get_hardware_identity], source lines 255-261. *)
Definition construct_and_cache (cam : option str) : M HardwareIdentity :=
  fun w =>
    match __init__ cam w with
    | (Ok h, w') => (Ok h, set_hardware_identity (Some h) w')
    | (Raise e, w') => (Raise e, w')
    end.

Definition get_hardware_identity (cam : option str) : M HardwareIdentity :=
  fun w =>
    match _hardware_identity w with
    | None => construct_and_cache cam w
    | Some cached =>
        match cam with
        | Some _ =>
            if camera_id_differs (camera_id cached) cam
            then construct_and_cache cam w
            else (Ok cached, w)
        | None => (Ok cached, w)
        end
    end.

End Identity.

(** ** [get_hardware_info] and the export of the key *)

(** The dictionary returned by [get_hardware_info]. *)
Record HardwareInfo : Type := {
  info_address : option str;
  info_camera_id : option str;
  info_public_key_hex : option str;
  info_salt_path : str;
  info_initialized : bool
}.

(** [get_hardware_info], source lines 244-251. *)
Definition get_hardware_info (env : Env) (self : HardwareIdentity)
  : M HardwareInfo :=
  public_key_hex <- lift (get_public_key_hex self) ;;
  primary <- path_exists (SALT_PATH env) ;;
  ret {| info_address := address self;
         info_camera_id := camera_id self;
         info_public_key_hex := public_key_hex;
         info_salt_path :=
           if primary then SALT_PATH env else SALT_BACKUP_PATH env;
         info_initialized := initialized self |}.

(** The dictionary [export_data] of [export_key.py], lines 29-34. *)
Record ExportData : Type := {
  privateKey : str;
  export_address : option str;
  cameraId : option str;
  publicKey : option str
}.

(** [export_key.py], lines 27-34: the private key in hex, then the
    dictionary. *)
Definition export_data_of (hw_id : HardwareIdentity) : result ExportData :=
  match private_key hw_id with
  | None => Raise AttributeError
  | Some sk =>
      let private_key_hex := pystr.hex (ecdsa.sk_to_string sk) in
      rbind (get_public_key_hex hw_id) (fun public_key_hex =>
      Ok {| privateKey := lit "0x" ++ private_key_hex;
            export_address := get_address hw_id;
            cameraId := get_camera_id hw_id;
            publicKey := public_key_hex |})
  end.

(** ** The script [export_key.py] *)

(** The truth value of an optional string: [None] and the empty string are
    false. *)
Definition truthy (s : option str) : bool :=
  match s with
  | Some (_ :: _) => true
  | _ => false
  end.

(** The lines the script prints itself.  The first one goes to standard
    error, the others to standard output, after everything that the module
    [hardware_identity] has printed. *)
Inductive script_event : Type :=
| UsingExistingCameraId (id : str)   (* Using existing camera ID: <id> *)
| KeyExported (path : str)           (* Hardware key exported to: <path> *)
| ExportedAddress (a : option str)   (*    Address: <a> *)
| ExportedCameraId (c : option str)  (*    Camera ID: <c> *)
| ExportFailed (e : exn).            (* Error exporting key: <e> *)

(** How a run of the script ends: the exit status (1 after [sys.exit(1)])
    and what the script has printed. *)
Record Outcome : Type := {
  exit_status : Z;
  stderr : list script_event;
  printed : list script_event
}.

Section ExportKey.

Variable env : Env.

(** The bytes of the text that [json.dump(export_data, f, indent=2)]
    writes. *)
Variable json_dump : ExportData -> bytes.

(** The value of [DEVICE_KEY_EXPORT_PATH], or [.device_key_export] in the
    directory of the script. *)
Variable export_file : str.

(** Lines 11-15: the first command-line argument, else the environment
    variable [CAMERA_ID]. *)
Definition argument_camera_id (argv : list str)
           (environ_CAMERA_ID : option str) : option str :=
  match argv with
  | _ :: camera_id :: _ => Some camera_id
  | _ => environ_CAMERA_ID
  end.

(** Lines 17-24: without a camera id, the camera id of the identity that
    the registry gives, whatever goes wrong being ignored. *)
Definition existing_camera_id (camera_id : option str)
  : M (option str * list script_event) :=
  if negb (truthy camera_id) then
    try_except
      (hw_id_temp <- get_hardware_identity env None ;;
       let camera_id := get_camera_id hw_id_temp in
       ret (camera_id,
            match camera_id with
            | Some (c :: cs) => [UsingExistingCameraId (c :: cs)]
            | _ => []
            end))
      any_exception
      (fun _ => ret (camera_id, []))
  else ret (camera_id, []).

(** Lines 26-38: the identity, the dictionary, the file. *)
Definition export (camera_id : option str) : M ExportData :=
  hw_id <- get_hardware_identity env camera_id ;;
  export_data <- lift (export_data_of hw_id) ;;
  write_binary export_file (json_dump export_data) ;;;
  ret export_data.

(** The whole script, lines 8-46. *)
Definition export_key (argv : list str) (environ_CAMERA_ID : option str)
  : world -> Outcome * world :=
  fun w =>
    match
      existing_camera_id (argument_camera_id argv environ_CAMERA_ID) w
    with
    | (Ok (camera_id, warned), w1) =>
        match export camera_id w1 with
        | (Ok export_data, w2) =>
            ({| exit_status := 0;
                stderr := warned;
                printed := [KeyExported export_file;
                            ExportedAddress (export_address export_data);
                            ExportedCameraId (cameraId export_data)] |},
             w2)
        | (Raise e, w2) =>
            ({| exit_status := 1;
                stderr := warned;
                printed := [ExportFailed e] |},
             w2)
        end
    | (Raise e, w1) =>
        ({| exit_status := 1; stderr := []; printed := [ExportFailed e] |},
         w1)
    end.

End ExportKey.

(** ** The application: [_export_device_key] *)

(** What [_export_device_key] prints. *)
Inductive app_event : Type :=
| DeviceKeyExported (path : str)       (* Device key exported to: <path> *)
| DeviceKeyAddress (a : option str)    (*    Address: <a> *)
| DeviceKeyCameraId (c : option str)   (*    Camera ID: <c> *)
| DeviceKeyExportFailed (e : exn)      (* Could not export device key: <e> *)
| SignatureSaved (path : str)          (* Signature saved: <path> *)
| SignImageFailed (e : exn).           (* Error signing image: <e> *)

Section Application.

Variable env : Env.
Variable json_dump : ExportData -> bytes.

(** [.device_key_export] in the directory of the application. *)
Variable export_file : str.

(** [raspberry_pi_camera_app.py], lines 1049-1058: the dictionary built
    from [get_hardware_info]. *)
Definition device_key_data (hardware_identity : HardwareIdentity)
  : M ExportData :=
  hw_info <- get_hardware_info env hardware_identity ;;
  match private_key hardware_identity with
  | None => raise AttributeError
  | Some sk =>
      let private_key_hex := pystr.hex (ecdsa.sk_to_string sk) in
      ret {| privateKey := lit "0x" ++ private_key_hex;
             export_address := info_address hw_info;
             cameraId := info_camera_id hw_info;
             publicKey := info_public_key_hex hw_info |}
  end.

(** [_export_device_key], lines 1039-1069: returns nothing and raises
    nothing; the result is what it prints. *)
Definition _export_device_key (hardware_identity : option HardwareIdentity)
  : world -> list app_event * world :=
  fun w =>
    match hardware_identity with
    | None => ([], w)
    | Some h =>
        match
          (export_data <- device_key_data h ;;
           write_binary export_file (json_dump export_data) ;;;
           ret export_data) w
        with
        | (Ok export_data, w1) =>
            ([DeviceKeyExported export_file;
              DeviceKeyAddress (export_address export_data);
              DeviceKeyCameraId (cameraId export_data)], w1)
        | (Raise e, w1) => ([DeviceKeyExportFailed e], w1)
        end
    end.

End Application.

(** ** The application: [_sign_image] *)

(** The dictionary that [_sign_image] returns: the record of [sign_hash]
    with three more keys. *)
Record ImageSignature : Type := {
  signature_info : SignatureRecord;
  image_hash : str;
  image_path : str;
  timestamp : str
}.

Section SignImage.

Variable env : Env.

(** The bytes of the text that [json.dump(signature_info, f, indent=2)]
    writes. *)
Variable json_dump : ImageSignature -> bytes.

(** [datetime.now().isoformat()] at the time of the call. *)
Variable now_isoformat : str.

(** [Path(image_path).with_suffix('.sig.json')], which raises for a path
    without a name. *)
Variable with_suffix_sig_json : str -> result str.

(** [raspberry_pi_camera_app.py], lines 1390-1429: the dictionary, or
    [None]; and what has been printed. *)
Definition _sign_image (hardware_identity : option HardwareIdentity)
           (path : str)
  : world -> option ImageSignature * list app_event * world :=
  fun w =>
    match hardware_identity with
    | None => (None, [], w)
    | Some h =>
        match
          (image_data <- read_binary path ;;
           let image_hash := hashlib.sha256 image_data in
           let image_hash_hex := pystr.hex image_hash in
           record <- sign_hash env h (PyBytes image_hash) ;;
           let signature_info :=
             {| signature_info := record;
                image_hash := image_hash_hex;
                image_path := path;
                timestamp := now_isoformat |} in
           sig_path <- lift (with_suffix_sig_json path) ;;
           write_binary sig_path (json_dump signature_info) ;;;
           ret (signature_info, sig_path)) w
        with
        | (Ok (signature_info, sig_path), w1) =>
            (Some signature_info, [SignatureSaved sig_path], w1)
        | (Raise e, w1) => (None, [SignImageFailed e], w1)
        end
    end.

End SignImage.

(** ** Specification vocabulary *)

(** The Ready state of the specification: construction has completed. *)
Definition ready (h : HardwareIdentity) : Prop :=
  initialized h = true /\ salt h <> None /\ private_key h <> None /\
  public_key h <> None /\ address h <> None.

(** The worlds a process can be in: it starts with the module global
    unset and then constructs identities, asks the registry and signs. *)
Inductive reachable (env : Env) : world -> Prop :=
| reach_start w :
    _hardware_identity w = None -> reachable env w
| reach_construct cam w :
    reachable env w -> reachable env (snd (__init__ env cam w))
| reach_get cam w :
    reachable env w -> reachable env (snd (get_hardware_identity env cam w))
| reach_sign_data h data w :
    reachable env w -> reachable env (snd (sign_data h data w))
| reach_sign_hash h data w :
    reachable env w -> reachable env (snd (sign_hash env h data w)).

(** The objects a caller can hold: results of the constructor and of the
    registry. *)
Inductive obtainable (env : Env) : HardwareIdentity -> Prop :=
| from_constructor cam w h :
    fst (__init__ env cam w) = Ok h -> obtainable env h
| from_registry cam w h :
    reachable env w ->
    fst (get_hardware_identity env cam w) = Ok h -> obtainable env h.

(** The file the salt was read from, as reported on standard output by
    [_get_or_create_salt]; [None] when no salt was read. *)
Fixpoint salt_source (out : list event) : option str :=
  match out with
  | [] => None
  | SaltLoaded path :: _ => Some path
  | SaltLoadedBackup path :: _ => Some path
  | _ :: rest => salt_source rest
  end.

Definition is_hex_digit (c : N) : bool :=
  match pystr.digit_value c with Some _ => true | None => false end.

(** A hash argument of [sign_hash] that denotes the bytes [h]: the bytes
    themselves, or a string of hexadecimal digits with an optional [0x]
    in front. *)
Definition denotes_hash (input : pyarg) (h : bytes) : Prop :=
  input = PyBytes h \/
  exists digits,
    (input = PyStr digits \/ input = PyStr (lit "0x" ++ digits)) /\
    forallb is_hex_digit digits = true /\
    pystr.fromhex digits = Ok h.

(** A code point that UTF-8 can encode, that is, not a surrogate. *)
Definition scalar_value (c : N) : bool :=
  negb ((55296 <=? c)%N && (c <=? 57343)%N).

Definition well_formed (s : str) : Prop := forallb scalar_value s = true.

(** Text read in strict mode holds no surrogate. *)
Definition well_formed_sources (w : world) : Prop :=
  (forall out, cpuinfo w = Ok out -> well_formed out) /\
  (forall i content, net_address w i = Some (Ok content) ->
                     well_formed content) /\
  (forall content, machine_id w = Some (Ok content) -> well_formed content).

(** No identifier, or one identifier that starts with [prefix]. *)
Definition tagged (prefix : str) (l : list str) : Prop :=
  l = [] \/ exists value, l = [prefix ++ value].

(** The salt candidate at [path] cannot be used: it is absent, reading it
    raises an exception caught at that place, or it does not hold 32
    bytes. *)
Definition unusable (catches : exn -> bool) (path : str) (w : world) : Prop :=
  files w path = None \/
  (files w path <> None /\
   exists e, read_fault w path = Some e /\ catches e = true) \/
  (read_fault w path = None /\
   exists data, files w path = Some data /\ length data <> 32).

(** Examining [path] with [Path.exists] raises nothing: the path has a
    file, or it is absent, or the error of [os.stat] means absence. *)
Definition examinable (w : world) (path : str) : Prop :=
  files w path = None ->
  forall e, stat_fault w path = Some e -> is_absence e = true.

(** Each source adds at most one identifier, with its own prefix, never
    raises and only prints. *)
Definition adds (prefix : str) (collect : list str -> M (list str))
           (ok : world -> Prop) : Prop :=
  forall identifiers w,
    ok w ->
    exists found out,
      collect identifiers w = (Ok (identifiers ++ found), set_stdout out w) /\
      tagged prefix found /\ Forall well_formed found.

(** A source of identifiers adds no empty identifier and never raises. *)
Definition keeps_nonempty (collect : list str -> M (list str)) : Prop :=
  forall identifiers w,
    Forall (fun p => p <> []) identifiers ->
    exists identifiers' w',
      collect identifiers w = (Ok identifiers', w') /\
      Forall (fun p => p <> []) identifiers'.

(** The computation [m] leaves the module global as it is. *)
Definition keeps_registry {A} (m : M A) : Prop :=
  forall w, _hardware_identity (snd (m w)) = _hardware_identity w.

(** The salt that a readable file at [path] provides. *)
Definition valid_salt (w : world) (path : str) : option bytes :=
  match files w path with
  | Some data => if (length data =? 32)%nat then Some data else None
  | None => None
  end.

(** The computation [m] only prints: files, faults, entropy and the module
    global are left as they are. *)
Definition only_prints {A} (m : M A) : Prop :=
  forall w, exists out, snd (m w) = set_stdout out w.

(** Two worlds show the same hardware identifiers. *)
Definition same_sources (w w' : world) : Prop :=
  cpuinfo w = cpuinfo w' /\
  (forall i, net_address w i = net_address w' i) /\
  machine_id w = machine_id w'.

(** The value of [m] depends on the hardware identifiers only, and [m]
    leaves them as they are. *)
Definition reads_sources_only {A} (m : M A) : Prop :=
  forall w w',
    same_sources w w' ->
    fst (m w) = fst (m w') /\ same_sources (snd (m w)) (snd (m w')).

(** Two worlds hold the same files, with the same read faults, and show
    the same hardware identifiers. *)
Definition same_machine (w w' : world) : Prop :=
  (forall path, files w path = files w' path) /\
  (forall path, read_fault w path = read_fault w' path) /\
  same_sources w w'.

(** The computation [m] writes no file but the two salt files. *)
Definition writes_salt_only {A} (env : Env) (m : M A) : Prop :=
  forall w path,
    path <> SALT_PATH env -> path <> SALT_BACKUP_PATH env ->
    files (snd (m w)) path = files w path.

(** A Python string holds code points below 0x110000. *)
Definition code_point (c : N) : bool := (c <? 1114112)%N.

Definition text (s : str) : Prop := forallb code_point s = true.

(** What a source of identifiers finds does not depend on the identifiers
    collected before it, nor on what has been printed. *)
Definition appends (collect : list str -> M (list str)) : Prop :=
  forall w, exists found,
    forall identifiers out, exists out',
      collect identifiers (set_stdout out w)
      = (Ok (identifiers ++ found), set_stdout out' w).

(** The identity that [__init__] builds for camera id [cam] from the salt
    [s] and the key pair [(sk, vk)]. *)
Definition built_identity (env : Env) (cam : option str) (s : bytes)
           (sk : ecdsa.SigningKey) (vk : ecdsa.VerifyingKey)
  : HardwareIdentity :=
  {| salt := Some s;
     private_key := Some sk;
     public_key := Some vk;
     address :=
       Some (lit "0x"
             ++ pystr.hex
                  (if KECCAK_AVAILABLE env
                   then last_bytes 20
                          (sha3.keccak_256 (ecdsa.vk_to_string vk))
                   else firstn 20
                          (hashlib.sha256 (ecdsa.vk_to_string vk))));
     initialized := true;
     camera_id := cam |}.

(** ** Scenarios *)

Definition ascii_bytes (s : string) : bytes := map byte_of_N (lit s).

Definition no_fault : str -> option exn := fun _ => None.

(** The end-to-end scenario of the specification: camera [abc123], CPU
    serial [0000000012345678], a salt of 32 zero bytes in the primary
    file. *)
Definition example_world : world :=
  {| files := fun path =>
       if str_eqb path (SALT_PATH default_env) then Some (repeat x00 32)
       else None;
     read_fault := no_fault; write_fault := no_fault;
     chmod_fault := no_fault; mkdir_fault := no_fault;
     stat_fault := no_fault; write_progress := fun _ => None;
     entropy := fun _ => x2a; entropy_pos := 0;
     nonces := fun _ => 12345%Z; nonce_pos := 0;
     cpuinfo := Ok (lit "processor : 0" ++ [10%N] ++
                    lit "Serial : 0000000012345678" ++ [10%N]);
     net_address := fun _ => None;
     machine_id := None;
     stdout := [];
     _hardware_identity := None |}.

(** The same machine with a truncated primary salt file and the salt in
    the backup file. *)
Definition corrupt_primary_world : world :=
  set_files
    (fun path =>
       if str_eqb path (SALT_PATH default_env) then Some (repeat x00 5)
       else if str_eqb path (SALT_BACKUP_PATH default_env)
            then Some (repeat x00 32)
            else None)
    example_world.

(** The same machine without any salt file and without identifiers. *)
Definition bare_world : world :=
  {| files := fun _ => None;
     read_fault := no_fault; write_fault := no_fault;
     chmod_fault := no_fault; mkdir_fault := no_fault;
     stat_fault := no_fault; write_progress := fun _ => None;
     entropy := fun _ => x2a; entropy_pos := 0;
     nonces := fun _ => 12345%Z; nonce_pos := 0;
     cpuinfo := Ok [];
     net_address := fun _ => None;
     machine_id := None;
     stdout := [];
     _hardware_identity := None |}.

(** A deployment without any Keccak library. *)
Definition fallback_env : Env :=
  {| ECDSA_AVAILABLE := true;
     has_pysha3 := false;
     has_pycryptodome := false;
     SALT_PATH := SALT_PATH default_env;
     SALT_BACKUP_PATH := SALT_BACKUP_PATH default_env |}.

(** The example machine before its first start: no salt file yet. *)
Definition first_boot_world : world := set_files (fun _ => None) example_world.

(** The example machine with a primary salt file that cannot be read for
    another reason than permissions. *)
Definition io_error_world : world :=
  {| files := files corrupt_primary_world;
     read_fault := fun path =>
       if str_eqb path (SALT_PATH default_env) then Some OSError else None;
     write_fault := no_fault; chmod_fault := no_fault;
     mkdir_fault := no_fault;
     stat_fault := no_fault; write_progress := fun _ => None;
     entropy := entropy example_world; entropy_pos := 0;
     nonces := nonces example_world; nonce_pos := 0;
     cpuinfo := cpuinfo example_world;
     net_address := net_address example_world;
     machine_id := machine_id example_world;
     stdout := [];
     _hardware_identity := None |}.

(** The example machine before its first start, with the given write
    faults and the progress of the failing writes. *)
Definition unwritable_world (faults : str -> option exn)
           (progress : str -> option nat) : world :=
  {| files := fun _ => None;
     read_fault := no_fault; write_fault := faults;
     chmod_fault := no_fault; mkdir_fault := no_fault;
     stat_fault := no_fault; write_progress := progress;
     entropy := entropy example_world; entropy_pos := 0;
     nonces := nonces example_world; nonce_pos := 0;
     cpuinfo := cpuinfo example_world;
     net_address := net_address example_world;
     machine_id := machine_id example_world;
     stdout := [];
     _hardware_identity := None |}.

(** Nothing can be opened for writing. *)
Definition read_only_world : world :=
  unwritable_world (fun _ => Some PermissionError) (fun _ => None).

(** Only [/boot] cannot be opened for writing. *)
Definition read_only_boot_world : world :=
  unwritable_world
    (fun path =>
       if str_eqb path (SALT_PATH default_env) then Some PermissionError
       else None)
    (fun _ => None).


(** The directory of the backup salt file cannot be searched. *)
Definition locked_home_world : world :=
  {| files := fun _ => None;
     read_fault := no_fault; write_fault := no_fault;
     chmod_fault := no_fault; mkdir_fault := no_fault;
     stat_fault := fun path =>
       if str_eqb path (SALT_BACKUP_PATH default_env)
       then Some PermissionError else None;
     write_progress := fun _ => None;
     entropy := entropy example_world; entropy_pos := 0;
     nonces := nonces example_world; nonce_pos := 0;
     cpuinfo := cpuinfo example_world;
     net_address := net_address example_world;
     machine_id := machine_id example_world;
     stdout := [];
     _hardware_identity := None |}.

(** An export file and an encoder for the examples: the encoder writes the
    private key only. *)
Definition example_export_file : str := lit "/home/pi/.device_key_export".

Definition example_json_dump (data : ExportData) : bytes :=
  map byte_of_N (privateKey data).

(** The example machine with a photo, and a name, a time and an encoder
    for its signature file: the encoder writes the signature only. *)
Definition example_photo : str := lit "/home/pi/photo.jpg".

Definition photo_world : world :=
  set_files
    (fun path =>
       if str_eqb path example_photo then Some (ascii_bytes "test image data")
       else files example_world path)
    example_world.

Definition example_sig_path (path : str) : result str :=
  Ok (lit "/home/pi/photo.sig.json").

Definition example_time : str := lit "2025-01-01T00:00:00".

Definition example_json_dump_signature (info : ImageSignature) : bytes :=
  map byte_of_N (rec_signature (signature_info info)).

(** The example machine with the photo and a full disk under [/home/pi]:
    the export file and the signature file are created, and the write
    fails after 4 bytes. *)
Definition full_home_world : world :=
  {| files := files photo_world;
     read_fault := no_fault;
     write_fault := fun path =>
       if str_eqb path example_export_file
          || str_eqb path (lit "/home/pi/photo.sig.json")
       then Some OSError else None;
     chmod_fault := no_fault; mkdir_fault := no_fault;
     stat_fault := no_fault;
     write_progress := fun path =>
       if str_eqb path example_export_file
          || str_eqb path (lit "/home/pi/photo.sig.json")
       then Some 4 else None;
     entropy := entropy example_world; entropy_pos := 0;
     nonces := nonces example_world; nonce_pos := 0;
     cpuinfo := cpuinfo example_world;
     net_address := net_address example_world;
     machine_id := machine_id example_world;
     stdout := [];
     _hardware_identity := None |}.

Definition constructed (env : Env) (cam : option str) (w : world)
  : HardwareIdentity :=
  match fst (__init__ env cam w) with
  | Ok h => h
  | Raise _ => fresh_object cam
  end.

Definition example_identity : HardwareIdentity :=
  Eval vm_compute in
    constructed default_env (Some (lit "abc123")) example_world.

Definition fallback_identity : HardwareIdentity :=
  Eval vm_compute in
    constructed fallback_env (Some (lit "abc123")) example_world.

Definition test_hash : bytes :=
  Eval vm_compute in hashlib.sha256 (ascii_bytes "test").

(** The record of [sign_hash] for that hash in the example. *)
Definition example_record : SignatureRecord :=
  Eval vm_compute in
    match
      fst (sign_hash default_env example_identity (PyBytes test_hash)
                     example_world)
    with
    | Ok r => r
    | Raise _ =>
        {| rec_signature := []; rec_address := None; rec_algorithm := [];
           rec_salt_path := [] |}
    end.

(** ** Tactics *)

(** Unfold the monad and the system calls. *)
Ltac run :=
  unfold bind, ret, raise, lift, try_except, print, path_exists,
    pathlib_exists, read_binary, write_binary, chmod, mkdir_parent,
    os_urandom, draw_nonce in *.

(** Case analysis on the next system call or test. *)
Ltac branch :=
  match goal with
  | |- context [match ?x with Some _ => _ | None => _ end] =>
      destruct x eqn:?
  | |- context [if ?b then _ else _] => destruct b eqn:?
  end.

Ltac branches := repeat (cbn -[seq]; try branch).

Create HintDb fingerprint.
Create HintDb registry.
Create HintDb frame.

(** Structural proof that a computation keeps the module global. *)
Ltac keeps := auto 60 with registry.

#[global] Hint Extern 4 (keeps_registry (if ?b then _ else _)) =>
  destruct b : registry.
#[global] Hint Extern 4 (keeps_registry (match ?x with _ => _ end)) =>
  destruct x : registry.

(** ** Auxiliary facts: integers and bytes *)

Lemma byte_of_Z_of_byte (b : byte) : byte_of_Z (Z_of_byte b) = b.
Proof.
  unfold byte_of_Z, Z_of_byte, byte_of_N.
  rewrite N2Z.id, Byte.of_to_N. reflexivity.
Qed.

Lemma Z_of_byte_range (b : byte) : (0 <= Z_of_byte b < 256)%Z.
Proof.
  unfold Z_of_byte. pose proof (Byte.to_N_bounded b). lia.
Qed.

Lemma length_of_Z (n : nat) (z : Z) : length (BigEndian.of_Z n z) = n.
Proof.
  revert z. induction n as [|n IH]; intros z; simpl.
  - reflexivity.
  - rewrite length_app, IH. simpl. lia.
Qed.

Lemma length_of_Z_le (n : nat) (z : Z) : length (BigEndian.of_Z_le n z) = n.
Proof.
  revert z. induction n as [|n IH]; intros z; simpl; [|rewrite IH]; reflexivity.
Qed.

Lemma to_Z_snoc (d : bytes) (x : byte) :
  BigEndian.to_Z (d ++ [x]) = (BigEndian.to_Z d * 256 + Z_of_byte x)%Z.
Proof.
  unfold BigEndian.to_Z. rewrite fold_left_app. reflexivity.
Qed.

(** Writing back the integer read from [d] on as many bytes gives [d]. *)
Lemma of_Z_to_Z (d : bytes) : BigEndian.of_Z (length d) (BigEndian.to_Z d) = d.
Proof.
  induction d as [|x d IH] using rev_ind.
  - reflexivity.
  - rewrite length_app, Nat.add_comm. simpl.
    rewrite to_Z_snoc.
    pose proof (Z_of_byte_range x) as Hx.
    replace ((BigEndian.to_Z d * 256 + Z_of_byte x) / 256)%Z
      with (BigEndian.to_Z d)
      by (rewrite Z.div_add_l, Z.div_small by lia; lia).
    replace ((BigEndian.to_Z d * 256 + Z_of_byte x) mod 256)%Z
      with (Z_of_byte x)
      by (rewrite Z.add_comm, Z.mod_add, Z.mod_small by lia; lia).
    rewrite IH, byte_of_Z_of_byte. reflexivity.
Qed.

Lemma sha256_length (m : bytes) : length (hashlib.sha256 m) = 32.
Proof.
  unfold hashlib.sha256. cbv zeta.
  rewrite !length_app, !length_of_Z. reflexivity.
Qed.

Lemma keccak_256_length (m : bytes) : length (sha3.keccak_256 m) = 32.
Proof.
  unfold sha3.keccak_256. cbv zeta.
  rewrite !length_app, !length_of_Z_le. reflexivity.
Qed.

(** ** Auxiliary facts: hexadecimal text *)

Lemma hex_cons (b : byte) (d : bytes) :
  pystr.hex (b :: d) = pystr.hex_byte b ++ pystr.hex d.
Proof. reflexivity. Qed.

Lemma hex_length (d : bytes) : length (pystr.hex d) = 2 * length d.
Proof.
  induction d as [|b d IH]; [reflexivity|].
  rewrite hex_cons, length_app, IH. simpl. lia.
Qed.

(** Cutting the text after [2 * n] digits is cutting the bytes after
    [n]. *)
Lemma firstn_hex (n : nat) (d : bytes) :
  firstn (2 * n) (pystr.hex d) = pystr.hex (firstn n d).
Proof.
  revert d. induction n as [|n IH]; intros d.
  - reflexivity.
  - replace (2 * S n) with (S (S (2 * n))) by lia.
    destruct d as [|b d]; [reflexivity|].
    rewrite hex_cons. unfold pystr.hex_byte. simpl firstn.
    rewrite IH. reflexivity.
Qed.

Lemma hex_digits (d : bytes) : forallb is_hex_digit (pystr.hex d) = true.
Proof.
  induction d as [|b d IH]; [reflexivity|].
  rewrite hex_cons, forallb_app, IH, andb_true_r.
  destruct b; reflexivity.
Qed.

(** [bytes.fromhex] undoes [bytes.hex]. *)
Lemma fromhex_hex (d : bytes) : pystr.fromhex (pystr.hex d) = Ok d.
Proof.
  induction d as [|b d IH]; [reflexivity|].
  rewrite hex_cons.
  assert (Hb : forall rest,
             pystr.fromhex (pystr.hex_byte b ++ rest)
             = rmap (cons b) (pystr.fromhex rest))
    by (intros rest; destruct b; reflexivity).
  rewrite Hb, IH. reflexivity.
Qed.

Lemma hex_digit_not_x (c : N) : is_hex_digit c = true -> (c =? 120)%N = false.
Proof.
  intros H. apply N.eqb_neq. intros ->. discriminate H.
Qed.

(** A string of hexadecimal digits holds no [0x]. *)
Lemma remove_0x_digits (s : str) :
  forallb is_hex_digit s = true -> pystr.remove_0x s = s.
Proof.
  induction s as [|c s IH]; intros H; [reflexivity|].
  simpl in H. apply andb_true_iff in H as [_ Hs].
  destruct s as [|d s]; [reflexivity|].
  assert (Hd : (d =? 120)%N = false).
  { simpl in Hs. apply andb_true_iff in Hs as [Hd _].
    now apply hex_digit_not_x. }
  change (pystr.remove_0x (c :: d :: s))
    with (if ((c =? 48)%N && (d =? 120)%N)%bool then pystr.remove_0x s
          else c :: pystr.remove_0x (d :: s)).
  rewrite Hd, andb_false_r, (IH Hs). reflexivity.
Qed.

Lemma remove_0x_prefixed (s : str) :
  pystr.remove_0x (lit "0x" ++ s) = pystr.remove_0x s.
Proof. reflexivity. Qed.

(** ** The address encoder *)

Lemma sha256_address_value (pub : bytes) (w : world) :
  sha256_address pub w
  = (Ok (lit "0x" ++ firstn 40 (pystr.hex (hashlib.sha256 pub))),
     set_stdout (stdout w ++ [Sha256AddressWarning]) w).
Proof. reflexivity. Qed.

Lemma keccak_address_absent (env : Env) (pub : bytes) (w : world) :
  KECCAK_AVAILABLE env = false -> keccak_address env pub w = (Ok None, w).
Proof. intros H. unfold keccak_address. rewrite H. reflexivity. Qed.

(** Claim C5.  When no Keccak library is installed, the address is
    [0x] followed by the first 40 characters of the SHA-256 hex digest of
    the raw public key bytes; these are the hex encoding of the first 20
    bytes of the digest, so the address is a 20-byte value in hex with a
    fixed prefix. *)
Theorem fallback_address_is_sha256
        (env : Env) (self : HardwareIdentity) (vk : ecdsa.VerifyingKey)
        (w : world) :
  KECCAK_AVAILABLE env = false ->
  public_key self = Some vk ->
  let digest := hashlib.sha256 (ecdsa.vk_to_string vk) in
  fst (_get_address env self w) = Ok (lit "0x" ++ firstn 40 (pystr.hex digest))
  /\ firstn 40 (pystr.hex digest) = pystr.hex (firstn 20 digest)
  /\ length (firstn 20 digest) = 20.
Proof.
  intros Hk Hpk digest. split; [|split].
  - unfold _get_address. rewrite Hpk. unfold bind.
    rewrite (keccak_address_absent env _ _ Hk), sha256_address_value.
    reflexivity.
  - apply (firstn_hex 20).
  - apply firstn_length_le. unfold digest. rewrite sha256_length. lia.
Qed.

Lemma fallback_address_is_sha256_witness :
  fst (_get_address fallback_env fallback_identity example_world)
  = Ok (lit "0xf501a4e588d318365045e37516c0f1c6d241721d").
Proof.
  destruct (fallback_address_is_sha256 fallback_env fallback_identity _
              example_world eq_refl eq_refl) as [H _].
  rewrite H. vm_compute. reflexivity.
Defined.

(** Claim C1, at the input where the code departs from it.  On a Ready
    identity, a signature passed as a string that is not hexadecimal makes
    [verify_signature] raise [ValueError] instead of returning [False]:
    [bytes.fromhex] runs before the [try] block. *)
Theorem verify_signature_non_hex_raises
        (self : HardwareIdentity) (data : bytes) :
  initialized self = true ->
  verify_signature self (PyBytes data) (PyStr (lit "zz")) = Raise ValueError.
Proof.
  intros H. unfold verify_signature. rewrite H. reflexivity.
Qed.

Lemma verify_signature_non_hex_raises_witness :
  verify_signature example_identity (PyBytes (ascii_bytes "test"))
                   (PyStr (lit "zz"))
  = Raise ValueError.
Proof.
  apply verify_signature_non_hex_raises. reflexivity.
Defined.

(** ** The salt store *)

Lemma set_stdout_same (w : world) : set_stdout (stdout w) w = w.
Proof. destruct w. reflexivity. Qed.

(** An unusable primary file is passed over: nothing is returned, nothing
    is raised and only standard output changes. *)
Lemma try_primary_unusable (env : Env) (w : world) :
  unusable is_PermissionError (SALT_PATH env) w ->
  exists out, try_primary env w = (Ok None, set_stdout out w).
Proof.
  intros [H | [[Hex [e [He Hc]]] | [Hr [data [Hd Hl]]]]];
    unfold try_primary; run.
  - rewrite H. exists (stdout w). now rewrite set_stdout_same.
  - destruct (files w (SALT_PATH env)); [|contradiction].
    rewrite He, Hc. eexists. reflexivity.
  - apply Nat.eqb_neq in Hl.
    repeat (cbn; rewrite ?Hd, ?Hr, ?Hl).
    exists (stdout w). now rewrite set_stdout_same.
Qed.



(** What [create_salt] does in every case: it announces the creation,
    draws 32 bytes, and can only return those bytes. *)
(** An error of examining the backup path that does not mean absence is
    raised. *)
Lemma try_backup_raises (env : Env) (w : world) (e : exn) :
  files w (SALT_BACKUP_PATH env) = None ->
  stat_fault w (SALT_BACKUP_PATH env) = Some e ->
  is_absence e = false ->
  try_backup env w = (Raise e, w).
Proof.
  intros Hf Hs He. unfold try_backup; run. now rewrite Hf, Hs, He.
Qed.


Lemma salt_after_primary (env : Env) (w : world) :
  unusable is_PermissionError (SALT_PATH env) w ->
  exists out,
    _get_or_create_salt env w
    = bind (try_backup env)
           (fun backup => match backup with
                          | Some salt => ret salt
                          | None => create_salt env
                          end)
           (set_stdout out w).
Proof.
  intros H. destruct (try_primary_unusable env w H) as [out Hp].
  exists out. unfold _get_or_create_salt, bind at 1. rewrite Hp. reflexivity.
Qed.


(** Without salt files and with a home directory that cannot be
    searched, the lookup ends in the error of examining the backup
    path. *)
Example locked_home_aborts_the_lookup :
  fst (_get_or_create_salt default_env locked_home_world)
  = Raise PermissionError.
Proof. reflexivity. Qed.


(** ** The fingerprint collector *)

Lemma lstrip_incl (s : str) (x : N) : In x (pystr.lstrip s) -> In x s.
Proof.
  induction s as [|c s IH]; simpl; [tauto|].
  destruct (pystr.is_space c); simpl; tauto.
Qed.

Lemma strip_incl (s : str) (x : N) : In x (pystr.strip s) -> In x s.
Proof.
  unfold pystr.strip. intros H.
  apply in_rev, lstrip_incl, in_rev, lstrip_incl in H. exact H.
Qed.

Lemma split_incl (c : N) (s piece : str) (x : N) :
  In piece (pystr.split c s) -> In x piece -> In x s.
Proof.
  revert piece. induction s as [|y s IH]; intros piece Hp Hx.
  - simpl in Hp. destruct Hp as [<-|[]]. exact Hx.
  - simpl in Hp. destruct (y =? c)%N.
    + destruct Hp as [<-|Hp]; [destruct Hx|]. right. eauto.
    + destruct (pystr.split c s) as [|p ps] eqn:E.
      * destruct Hp as [<-|[]]. destruct Hx as [<-|[]]. now left.
      * destruct Hp as [<-|Hp].
        -- destruct Hx as [<-|Hx]; [now left|]. right.
           apply (IH p); [now left | exact Hx].
        -- right. apply (IH piece); [now right | exact Hx].
Qed.

Lemma find_serial_line_In (lines : list str) (line : str) :
  find_serial_line lines = Some line -> In line lines.
Proof.
  induction lines as [|l ls IH]; simpl; [discriminate|].
  destruct (pystr.contains (lit "Serial") l).
  - intros [= <-]. now left.
  - intros H. right. auto.
Qed.

Lemma well_formed_incl (s t : str) :
  (forall x, In x t -> In x s) -> well_formed s -> well_formed t.
Proof.
  unfold well_formed. rewrite !forallb_forall. auto.
Qed.

Lemma well_formed_strip (s : str) : well_formed s -> well_formed (pystr.strip s).
Proof. apply well_formed_incl. intros x. apply strip_incl. Qed.

Lemma well_formed_app (s t : str) :
  well_formed s -> well_formed t -> well_formed (s ++ t).
Proof.
  unfold well_formed. intros Hs Ht. now rewrite forallb_app, Hs, Ht.
Qed.

Lemma well_formed_join (sep : str) (parts : list str) :
  well_formed sep -> Forall well_formed parts ->
  well_formed (pystr.join sep parts).
Proof.
  intros Hsep H. induction H as [|p ps Hp Hps IH]; [reflexivity|].
  destruct ps as [|q ps]; [exact Hp|].
  change (pystr.join sep (p :: q :: ps))
    with (p ++ sep ++ pystr.join sep (q :: ps)).
  auto using well_formed_app.
Qed.

Lemma encode_char_well_formed (c : N) :
  scalar_value c = true ->
  exists b bs, pystr.encode_char c = Ok (b :: bs).
Proof.
  unfold scalar_value, pystr.encode_char. intros H.
  apply negb_true_iff in H. rewrite H.
  destruct (c <? 128)%N; [eauto|].
  destruct (c <? 2048)%N; [eauto|].
  destruct (c <? 65536)%N; eauto.
Qed.

(** Well-formed text can be encoded, and non-empty text gives bytes. *)
Lemma encode_utf8_well_formed (s : str) :
  well_formed s ->
  exists b, pystr.encode_utf8 s = Ok b /\ (s <> [] -> b <> []).
Proof.
  unfold well_formed. induction s as [|c s IH]; intros H.
  - exists []. split; [reflexivity | congruence].
  - simpl in H. apply andb_true_iff in H as [Hc Hs].
    destruct (encode_char_well_formed c Hc) as (b & bs & Hb).
    destruct (IH Hs) as (rest & Hrest & _).
    exists ((b :: bs) ++ rest). simpl. rewrite Hb. simpl. rewrite Hrest.
    split; [reflexivity | discriminate].
Qed.

Lemma join_nonempty (sep prefix value : str) (parts : list str) :
  prefix <> [] -> pystr.join sep ((prefix ++ value) :: parts) <> [].
Proof.
  intros Hp. destruct prefix as [|c prefix]; [congruence|].
  destruct parts; discriminate.
Qed.

Lemma tagged_one (prefix value : str) : tagged prefix [prefix ++ value].
Proof. right. now exists value. Qed.

Lemma well_formed_tagged (prefix value : str) :
  well_formed prefix -> well_formed value ->
  Forall well_formed [prefix ++ value].
Proof.
  intros Hp Hv. constructor; [|constructor]. now apply well_formed_app.
Qed.

Lemma tagged_none (prefix : str) : tagged prefix [].
Proof. now left. Qed.

#[local] Hint Resolve tagged_one tagged_none well_formed_strip
  well_formed_app : fingerprint.

Lemma collect_camera_adds (cam : option str) :
  (forall c, cam = Some c -> well_formed c) ->
  adds (lit "camera:") (collect_camera cam) (fun _ => True).
Proof.
  intros Hc identifiers w _. unfold collect_camera.
  destruct cam as [[|c cs]|].
  - exists [], (stdout w). rewrite app_nil_r, set_stdout_same.
    auto with fingerprint.
  - exists [lit "camera:" ++ c :: cs]. eexists. run. cbn.
    split; [reflexivity|]. split; [solve [auto with fingerprint | right; eexists; reflexivity] | ].
    apply (well_formed_tagged (lit "camera:") (c :: cs)); [reflexivity|].
    now apply Hc.
  - exists [], (stdout w). rewrite app_nil_r, set_stdout_same.
    auto with fingerprint.
Qed.

Lemma collect_serial_adds :
  adds (lit "serial:") collect_serial
       (fun w => forall out, cpuinfo w = Ok out -> well_formed out).
Proof.
  intros identifiers w Hw. unfold collect_serial; run.
  destruct (cpuinfo w) as [out|e] eqn:E.
  - destruct (find_serial_line (pystr.split 10 out)) as [line|] eqn:F.
    + destruct (nth_error (pystr.split 58 line) 1) as [field|] eqn:G.
      * exists [lit "serial:" ++ pystr.strip field]. eexists. cbn.
        split; [reflexivity|]. split; [solve [auto with fingerprint | right; eexists; reflexivity] | ].
        apply (well_formed_tagged (lit "serial:") (pystr.strip field));
          [reflexivity|].
        apply well_formed_strip.
        apply (well_formed_incl out); [|now apply Hw].
        intros x Hx. apply find_serial_line_In in F.
        apply nth_error_In in G.
        eapply split_incl; [exact F|]. eapply split_incl; eassumption.
      * exists []. eexists. cbn. rewrite app_nil_r.
        split; [reflexivity|]. auto with fingerprint.
    + exists [], (stdout w). cbn. rewrite app_nil_r, set_stdout_same.
      auto with fingerprint.
  - exists []. eexists. cbn. rewrite app_nil_r.
    split; [reflexivity|]. auto with fingerprint.
Qed.

Lemma collect_mac_adds (interfaces : list str) :
  adds (lit "mac:") (collect_mac interfaces)
       (fun w => forall i content,
            net_address w i = Some (Ok content) -> well_formed content).
Proof.
  intros identifiers w Hw.
  induction interfaces as [|i rest IH]; simpl.
  - exists [], (stdout w). unfold ret. rewrite app_nil_r, set_stdout_same.
    auto with fingerprint.
  - destruct (net_address w i) as [[content|e]|] eqn:E; try exact IH.
    exists [lit "mac:" ++ pystr.strip content]. eexists. run. cbn.
    split; [reflexivity|]. split; [solve [auto with fingerprint | right; eexists; reflexivity] | ].
    apply (well_formed_tagged (lit "mac:") (pystr.strip content));
      [reflexivity|].
    apply well_formed_strip. eapply Hw; eassumption.
Qed.

Lemma collect_machine_adds :
  adds (lit "machine:") collect_machine
       (fun w => forall content,
            machine_id w = Some (Ok content) -> well_formed content).
Proof.
  intros identifiers w Hw. unfold collect_machine.
  destruct (machine_id w) as [[content|e]|] eqn:E.
  - exists [lit "machine:" ++ pystr.strip content]. eexists. run. cbn.
    split; [reflexivity|]. split; [solve [auto with fingerprint | right; eexists; reflexivity] | ].
    apply (well_formed_tagged (lit "machine:") (pystr.strip content));
      [reflexivity|].
    apply well_formed_strip. now apply Hw.
  - exists [], (stdout w). rewrite app_nil_r, set_stdout_same.
    auto with fingerprint.
  - exists [], (stdout w). rewrite app_nil_r, set_stdout_same.
    auto with fingerprint.
Qed.

(** The identifiers come in the order camera, serial, mac, machine. *)
Lemma collect_identifiers_ordered (cam : option str) (w : world) :
  (forall c, cam = Some c -> well_formed c) ->
  well_formed_sources w ->
  exists camera serial mac machine out,
    collect_identifiers cam w
    = (Ok (camera ++ serial ++ mac ++ machine), set_stdout out w) /\
    tagged (lit "camera:") camera /\ tagged (lit "serial:") serial /\
    tagged (lit "mac:") mac /\ tagged (lit "machine:") machine /\
    Forall well_formed (camera ++ serial ++ mac ++ machine).
Proof.
  intros Hc (Hs & Hm & Hi). unfold collect_identifiers, bind.
  destruct (collect_camera_adds cam Hc [] w I) as (c & o1 & E1 & T1 & F1).
  rewrite E1.
  destruct (collect_serial_adds ([] ++ c) (set_stdout o1 w) Hs)
    as (s & o2 & E2 & T2 & F2).
  rewrite E2.
  destruct (collect_mac_adds [lit "wlan0"; lit "eth0"] (([] ++ c) ++ s)
              (set_stdout o2 (set_stdout o1 w)) Hm)
    as (m & o3 & E3 & T3 & F3).
  rewrite E3.
  destruct (collect_machine_adds ((([] ++ c) ++ s) ++ m)
              (set_stdout o3 (set_stdout o2 (set_stdout o1 w))) Hi)
    as (k & o4 & E4 & T4 & F4).
  rewrite E4.
  exists c, s, m, k, o4. cbn [app]. rewrite <- !app_assoc.
  split; [reflexivity|].
  repeat (split; [assumption|]).
  rewrite !Forall_app. auto.
Qed.

Lemma tagged_nonempty (prefix : str) (l : list str) :
  prefix <> [] -> tagged prefix l -> Forall (fun p => p <> []) l.
Proof.
  intros Hp [-> | [value ->]]; constructor; [|constructor].
  destruct prefix; [congruence | discriminate].
Qed.

Lemma join_nonempty_parts (sep : str) (parts : list str) :
  parts <> [] -> Forall (fun p => p <> []) parts ->
  pystr.join sep parts <> [].
Proof.
  intros Hne H. destruct H as [|p ps Hp _]; [now elim Hne|].
  destruct p as [|c p]; [now elim Hp|]. destruct ps; discriminate.
Qed.


Lemma nonempty_snoc (identifiers : list str) (prefix value : str) :
  prefix <> [] ->
  Forall (fun p => p <> []) identifiers ->
  Forall (fun p : str => p <> []) (identifiers ++ [prefix ++ value]).
Proof.
  intros Hp H. apply Forall_app. split; [exact H|].
  constructor; [|constructor]. destruct prefix; [congruence | discriminate].
Qed.

Lemma collect_camera_nonempty (cam : option str) :
  keeps_nonempty (collect_camera cam).
Proof.
  intros identifiers w H. unfold collect_camera.
  destruct cam as [[|c cs]|]; run; eexists _, _;
    (split; [reflexivity|]); auto.
  now apply (nonempty_snoc identifiers (lit "camera:") (c :: cs)).
Qed.

Lemma collect_serial_nonempty : keeps_nonempty collect_serial.
Proof.
  intros identifiers w H. unfold collect_serial; run.
  destruct (cpuinfo w) as [out|e].
  - destruct (find_serial_line (pystr.split 10 out)) as [line|].
    + destruct (nth_error (pystr.split 58 line) 1) as [field|];
        eexists _, _; (split; [reflexivity|]); auto.
      now apply (nonempty_snoc identifiers (lit "serial:")).
    + eexists _, _. split; [reflexivity | exact H].
  - eexists _, _. split; [reflexivity | exact H].
Qed.

Lemma collect_mac_nonempty (interfaces : list str) :
  keeps_nonempty (collect_mac interfaces).
Proof.
  intros identifiers w H. induction interfaces as [|i rest IH]; simpl.
  - eexists _, _. split; [reflexivity | exact H].
  - destruct (net_address w i) as [[content|e]|]; try exact IH.
    run. eexists _, _. split; [reflexivity|].
    now apply (nonempty_snoc identifiers (lit "mac:")).
Qed.

Lemma collect_machine_nonempty : keeps_nonempty collect_machine.
Proof.
  intros identifiers w H. unfold collect_machine.
  destruct (machine_id w) as [[content|e]|]; run; eexists _, _;
    (split; [reflexivity|]); auto.
  now apply (nonempty_snoc identifiers (lit "machine:")).
Qed.

Lemma collect_identifiers_nonempty (cam : option str) (w : world) :
  exists identifiers w',
    collect_identifiers cam w = (Ok identifiers, w') /\
    Forall (fun p => p <> []) identifiers.
Proof.
  destruct (collect_camera_nonempty cam (@nil str) w (Forall_nil _))
    as (i1 & w1 & E1 & F1).
  destruct (collect_serial_nonempty i1 w1 F1) as (i2 & w2 & E2 & F2).
  destruct (collect_mac_nonempty [lit "wlan0"; lit "eth0"] i2 w2 F2)
    as (i3 & w3 & E3 & F3).
  destruct (collect_machine_nonempty i3 w3 F3) as (i4 & w4 & E4 & F4).
  exists i4, w4. split; [|exact F4].
  unfold collect_identifiers, bind. rewrite E1, E2, E3. exact E4.
Qed.

Lemma encode_utf8_empty (s : str) : pystr.encode_utf8 s = Ok [] -> s = [].
Proof.
  destruct s as [|c s]; [reflexivity|]. simpl.
  unfold pystr.encode_char.
  destruct (c <? 128)%N; [|destruct (c <? 2048)%N;
    [|destruct ((55296 <=? c)%N && (c <=? 57343)%N);
      [|destruct (c <? 65536)%N]]]; simpl;
    try discriminate;
    destruct (pystr.encode_utf8 s); discriminate.
Qed.

(** The fingerprint is never empty, whatever the camera id and the
    machine. *)
Lemma encode_utf8_error (s : str) (e : exn) :
  pystr.encode_utf8 s = Raise e -> e = UnicodeEncodeError.
Proof.
  induction s as [|c s IH]; simpl; [discriminate|].
  unfold pystr.encode_char.
  destruct (c <? 128)%N; [|destruct (c <? 2048)%N;
    [|destruct ((55296 <=? c)%N && (c <=? 57343)%N);
      [|destruct (c <? 65536)%N]]]; simpl;
    try (destruct (pystr.encode_utf8 s); simpl; [discriminate|];
         intros [= <-]; now apply IH).
  intros [= <-]. reflexivity.
Qed.

Lemma fingerprint_not_empty (self : HardwareIdentity) (w : world) :
  fst (_get_hardware_id self w) <> Ok [].
Proof.
  unfold _get_hardware_id, bind.
  destruct (collect_identifiers_nonempty (camera_id self) w)
    as (ids & w' & E & F).
  rewrite E. destruct ids as [|p ps]; [discriminate|].
  unfold print, lift. cbn [fst]. intros H.
  apply encode_utf8_empty in H. revert H.
  apply join_nonempty_parts; [discriminate | exact F].
Qed.

(** Claim C8, as amended.  For every camera id, [_get_hardware_id] never
    returns an empty fingerprint, and the only errors it raises are the
    error that no identifier could be collected and, when a lone
    surrogate stands in the camera id or in what is read from the system,
    the encoding error of UTF-8.  On well-formed text it either returns
    the UTF-8 encoding of at least one identifier among camera, serial,
    mac and machine, in that order and joined with [|], or raises the
    error that no identifier could be collected. *)
Theorem fingerprint_never_empty (self : HardwareIdentity) (w : world) :
  fst (_get_hardware_id self w) <> Ok [] /\
  (forall e,
      fst (_get_hardware_id self w) = Raise e ->
      (e = no_identifiers /\
       fst (collect_identifiers (camera_id self) w) = Ok []) \/
      (e = UnicodeEncodeError /\
       ~ ((forall c, camera_id self = Some c -> well_formed c) /\
          well_formed_sources w))) /\
  ((forall c, camera_id self = Some c -> well_formed c) ->
   well_formed_sources w ->
   match fst (_get_hardware_id self w) with
   | Ok fingerprint =>
       exists camera serial mac machine,
         tagged (lit "camera:") camera /\ tagged (lit "serial:") serial /\
         tagged (lit "mac:") mac /\ tagged (lit "machine:") machine /\
         camera ++ serial ++ mac ++ machine <> [] /\
         fst (collect_identifiers (camera_id self) w)
         = Ok (camera ++ serial ++ mac ++ machine) /\
         pystr.encode_utf8
           (pystr.join (lit "|") (camera ++ serial ++ mac ++ machine))
         = Ok fingerprint
   | Raise e =>
       e = no_identifiers /\
       fst (collect_identifiers (camera_id self) w) = Ok []
   end).
Proof.
  assert (Hwf : (forall c, camera_id self = Some c -> well_formed c) ->
                well_formed_sources w ->
                match fst (_get_hardware_id self w) with
                | Ok fingerprint =>
                    exists camera serial mac machine,
                      tagged (lit "camera:") camera /\
                      tagged (lit "serial:") serial /\
                      tagged (lit "mac:") mac /\
                      tagged (lit "machine:") machine /\
                      camera ++ serial ++ mac ++ machine <> [] /\
                      fst (collect_identifiers (camera_id self) w)
                      = Ok (camera ++ serial ++ mac ++ machine) /\
                      pystr.encode_utf8
                        (pystr.join (lit "|")
                                    (camera ++ serial ++ mac ++ machine))
                      = Ok fingerprint
                | Raise e =>
                    e = no_identifiers /\
                    fst (collect_identifiers (camera_id self) w) = Ok []
                end).
  { intros Hc Hw.
    destruct (collect_identifiers_ordered (camera_id self) w Hc Hw)
      as (c & s & m & k & out & E & Tc & Ts & Tm & Tk & F).
    unfold _get_hardware_id, bind. rewrite E.
    destruct (c ++ s ++ m ++ k) as [|p ps] eqn:Ids.
    - split; reflexivity.
    - destruct (encode_utf8_well_formed (pystr.join (lit "|") (p :: ps)))
        as (b & Hb & _).
      { apply well_formed_join; [reflexivity | exact F]. }
      unfold print, lift. cbn [fst]. rewrite Hb.
      exists c, s, m, k. rewrite Ids.
      repeat (split; [assumption|]).
      split; [discriminate|]. split; [reflexivity | exact Hb]. }
  split; [apply fingerprint_not_empty|]. split; [|exact Hwf].
  intros e He.
  destruct (collect_identifiers_nonempty (camera_id self) w)
    as (ids & w' & E & _).
  assert (Hcases : (e = no_identifiers /\ ids = []) \/ e = UnicodeEncodeError).
  { revert He. unfold _get_hardware_id, bind. rewrite E.
    destruct ids as [|p ps].
    - intros [= <-]. left. split; reflexivity.
    - unfold print, lift. cbn [fst]. intros He. right.
      exact (encode_utf8_error _ e He). }
  destruct Hcases as [[-> ->] | ->].
  - left. split; [reflexivity | now rewrite E].
  - right. split; [reflexivity|]. intros [Hc Hw].
    specialize (Hwf Hc Hw). rewrite He in Hwf. destruct Hwf as [Hn _].
    discriminate Hn.
Qed.

(** Claim C8 fails as stated: a camera id that holds a lone surrogate, as
    the command line or the environment can give one, ends in the
    encoding error, which is neither a fingerprint nor the error that no
    identifier could be collected. *)
Lemma fingerprint_surrogate_counterexample :
  let self := fresh_object (Some [55296%N]) in
  fst (_get_hardware_id self example_world) = Raise UnicodeEncodeError /\
  UnicodeEncodeError <> no_identifiers.
Proof.
  intros self. subst self. split; [vm_compute; reflexivity | discriminate].
Qed.

Lemma fingerprint_never_empty_witness :
  exists fingerprint,
    fst (_get_hardware_id example_identity example_world) = Ok fingerprint /\
    pystr.encode_utf8 (lit "camera:abc123|serial:0000000012345678")
    = Ok fingerprint.
Proof.
  assert (Hc : forall c, camera_id example_identity = Some c -> well_formed c)
    by (intros c [= <-]; reflexivity).
  assert (Hw : well_formed_sources example_world).
  { repeat split.
    - intros out [= <-]. reflexivity.
    - intros i content H. discriminate H.
    - intros content H. discriminate H. }
  pose proof (proj2 (proj2 (fingerprint_never_empty example_identity
                              example_world)) Hc Hw) as H.
  destruct (fst (_get_hardware_id example_identity example_world))
    as [fingerprint|e].
  - exists fingerprint. split; [reflexivity|].
    destruct H as (c & s & m & k & _ & _ & _ & _ & _ & E & F).
    rewrite <- F. f_equal. f_equal.
    revert E. vm_compute. intros [= <-]. reflexivity.
  - exfalso. destruct H as [_ H]. revert H. vm_compute. discriminate.
Defined.

(** ** The module global is written by the registry only *)

Lemma keeps_ret {A} (a : A) : keeps_registry (ret a).
Proof. intros w. reflexivity. Qed.

Lemma keeps_raise {A} (e : exn) : keeps_registry (@raise A e).
Proof. intros w. reflexivity. Qed.

Lemma keeps_lift {A} (r : result A) : keeps_registry (lift r).
Proof. intros w. reflexivity. Qed.

Lemma keeps_bind {A B} (m : M A) (k : A -> M B) :
  keeps_registry m -> (forall a, keeps_registry (k a)) ->
  keeps_registry (bind m k).
Proof.
  intros Hm Hk w. unfold bind. specialize (Hm w).
  destruct (m w) as [[a|e] w1]; simpl in *.
  - rewrite Hk. exact Hm.
  - exact Hm.
Qed.

Lemma keeps_try_except {A} (m : M A) (catches : exn -> bool)
      (handler : exn -> M A) :
  keeps_registry m -> (forall e, keeps_registry (handler e)) ->
  keeps_registry (try_except m catches handler).
Proof.
  intros Hm Hh w. unfold try_except. specialize (Hm w).
  destruct (m w) as [[a|e] w1]; simpl in *; [exact Hm|].
  destruct (catches e); [|exact Hm]. rewrite Hh. exact Hm.
Qed.

Lemma keeps_print (ev : event) : keeps_registry (print ev).
Proof. intros w. reflexivity. Qed.

Lemma keeps_path_exists (path : str) : keeps_registry (path_exists path).
Proof. intros w. reflexivity. Qed.

Lemma keeps_pathlib_exists (path : str) :
  keeps_registry (pathlib_exists path).
Proof.
  intros w. unfold pathlib_exists.
  destruct (files w path); [reflexivity|].
  destruct (stat_fault w path) as [e|]; [destruct (is_absence e)|];
    reflexivity.
Qed.

Lemma keeps_read_binary (path : str) : keeps_registry (read_binary path).
Proof.
  intros w. unfold read_binary.
  destruct (read_fault w path); [|destruct (files w path)]; reflexivity.
Qed.

Lemma keeps_write_binary (path : str) (data : bytes) :
  keeps_registry (write_binary path data).
Proof.
  intros w. unfold write_binary.
  destruct (write_fault w path); [destruct (write_progress w path)|];
    reflexivity.
Qed.

Lemma keeps_chmod (path : str) : keeps_registry (chmod path).
Proof. intros w. unfold chmod. destruct (chmod_fault w path); reflexivity. Qed.

Lemma keeps_mkdir_parent (path : str) : keeps_registry (mkdir_parent path).
Proof.
  intros w. unfold mkdir_parent. destruct (mkdir_fault w path); reflexivity.
Qed.

Lemma keeps_os_urandom (n : nat) : keeps_registry (os_urandom n).
Proof. intros w. reflexivity. Qed.

Lemma keeps_draw_nonce : keeps_registry draw_nonce.
Proof. intros w. reflexivity. Qed.

#[local] Hint Resolve keeps_ret keeps_raise keeps_lift keeps_print
  keeps_path_exists keeps_pathlib_exists keeps_read_binary
  keeps_write_binary keeps_chmod keeps_mkdir_parent keeps_os_urandom
  keeps_draw_nonce : registry.
#[local] Hint Resolve keeps_bind keeps_try_except | 3 : registry.

Lemma keeps_get_or_create_salt (env : Env) :
  keeps_registry (_get_or_create_salt env).
Proof.
  unfold _get_or_create_salt, try_primary, try_backup, create_salt. keeps.
Qed.

Lemma keeps_collect_identifiers (cam : option str) :
  keeps_registry (collect_identifiers cam).
Proof.
  unfold collect_identifiers. apply keeps_bind; [|intros ids1].
  { unfold collect_camera. keeps. }
  apply keeps_bind; [|intros ids2].
  { unfold collect_serial. apply keeps_try_except; [|keeps].
    apply keeps_bind; [intros w; reflexivity | keeps]. }
  apply keeps_bind; [|intros ids3].
  { generalize [lit "wlan0"; lit "eth0"] as interfaces.
    induction interfaces as [|i rest IH]; simpl; [keeps|].
    intros w. destruct (net_address w i) as [[content|e]|]; try apply IH.
    reflexivity. }
  intros w. unfold collect_machine.
  destruct (machine_id w) as [[content|e]|]; reflexivity.
Qed.

Lemma keeps_get_hardware_id (self : HardwareIdentity) :
  keeps_registry (_get_hardware_id self).
Proof.
  unfold _get_hardware_id. apply keeps_bind; [|keeps].
  apply keeps_collect_identifiers.
Qed.

Lemma keeps_get_address (env : Env) (self : HardwareIdentity) :
  keeps_registry (_get_address env self).
Proof.
  unfold _get_address, keccak_address, sha256_address. keeps.
Qed.

#[local] Hint Resolve keeps_get_or_create_salt keeps_get_hardware_id
  keeps_get_address : registry.

Lemma keeps_init (env : Env) (cam : option str) :
  keeps_registry (__init__ env cam).
Proof.
  unfold __init__, _initialize. keeps.
Qed.

Lemma keeps_sign_data (self : HardwareIdentity) (data : pyarg) :
  keeps_registry (sign_data self data).
Proof. unfold sign_data, sign_with. keeps. Qed.

Lemma keeps_sign_hash (env : Env) (self : HardwareIdentity) (data : pyarg) :
  keeps_registry (sign_hash env self data).
Proof. unfold sign_hash, sign_with. keeps. Qed.

(** ** Construction *)

(** A constructor call that returns has run [_initialize] to its end. *)
Lemma init_ready (env : Env) (cam : option str) (w : world)
      (h : HardwareIdentity) :
  fst (__init__ env cam w) = Ok h -> ready h /\ camera_id h = cam.
Proof.
  unfold __init__. destruct (ECDSA_AVAILABLE env); [|discriminate].
  unfold _initialize, try_except, bind, lift, print, ret, raise. cbn [negb].
  destruct (_get_or_create_salt env w) as [[s|e] w1]; [|discriminate].
  match goal with
  | |- context [_get_hardware_id ?self w1] =>
      destruct (_get_hardware_id self w1) as [[hw|e] w2]; [|discriminate]
  end.
  destruct (_derive_key hw s) as [[sk vk]|e]; [|discriminate].
  match goal with
  | |- context [_get_address env ?self w2] =>
      destruct (_get_address env self w2) as [[a|e] w3]; [|discriminate]
  end.
  cbn. intros [= <-]. unfold ready. cbn.
  repeat split; try discriminate; reflexivity.
Qed.

Lemma registry_after_construct (env : Env) (cam : option str) (w : world) :
  match fst (__init__ env cam w) with
  | Ok h =>
      construct_and_cache env cam w
      = (Ok h, set_hardware_identity (Some h) (snd (__init__ env cam w)))
  | Raise e =>
      construct_and_cache env cam w = (Raise e, snd (__init__ env cam w))
  end.
Proof.
  unfold construct_and_cache.
  destruct (__init__ env cam w) as [[h|e] w']; reflexivity.
Qed.

(** Every object held by the module global is in the Ready state. *)
Lemma registry_holds_ready (env : Env) (w : world) :
  reachable env w ->
  forall h, _hardware_identity w = Some h -> ready h.
Proof.
  induction 1 as [w H0 | cam w _ IH | cam w _ IH | h0 data w _ IH
                  | h0 data w _ IH]; intros h Hh.
  - congruence.
  - rewrite keeps_init in Hh. auto.
  - unfold get_hardware_identity in Hh.
    pose proof (registry_after_construct env cam w) as Hc.
    pose proof (init_ready env cam w) as Hr.
    pose proof (keeps_init env cam w) as Hk.
    destruct (_hardware_identity w) as [cached|] eqn:E.
    + destruct cam as [c|]; [|cbn [snd] in Hh; rewrite E in Hh; auto].
      destruct (camera_id_differs (camera_id cached) (Some c));
        [|cbn [snd] in Hh; rewrite E in Hh; auto].
      destruct (fst (__init__ env (Some c) w)) as [h1|e]; rewrite Hc in Hh.
      * cbn in Hh. injection Hh as <-. now apply Hr.
      * cbn [snd] in Hh. rewrite Hk in Hh. auto.
    + destruct (fst (__init__ env cam w)) as [h1|e]; rewrite Hc in Hh.
      * cbn in Hh. injection Hh as <-. now apply Hr.
      * cbn [snd] in Hh. rewrite Hk in Hh. congruence.
  - rewrite keeps_sign_data in Hh. auto.
  - rewrite keeps_sign_hash in Hh. auto.
Qed.

Lemma obtainable_ready (env : Env) (h : HardwareIdentity) :
  obtainable env h -> ready h.
Proof.
  intros [cam w h0 H | cam w h0 Hw H].
  - now apply (init_ready env cam w).
  - unfold get_hardware_identity in H.
    pose proof (registry_after_construct env cam w) as Hc.
    pose proof (init_ready env cam w) as Hr.
    pose proof (registry_holds_ready env w Hw) as Hinv.
    destruct (_hardware_identity w) as [cached|] eqn:E.
    + destruct cam as [c|]; [|injection H as <-; auto].
      destruct (camera_id_differs (camera_id cached) (Some c));
        [|injection H as <-; auto].
      destruct (fst (__init__ env (Some c) w)) as [h1|e]; rewrite Hc in H.
      * injection H as <-. now apply Hr.
      * discriminate.
    + destruct (fst (__init__ env cam w)) as [h1|e]; rewrite Hc in H.
      * injection H as <-. now apply Hr.
      * discriminate.
Qed.

(** ** The errors of the operations *)

Lemma fromhex_error (s : str) (e : exn) :
  pystr.fromhex s = Raise e -> e = ValueError.
Proof.
  remember (length s) as n eqn:Hn. revert s Hn.
  induction n as [n IH] using lt_wf_ind. intros s Hn.
  destruct s as [|c s]; simpl; [discriminate|].
  destruct (pystr.is_ascii_space c).
  - apply (IH (length s)); [simpl in Hn; lia | reflexivity].
  - destruct (pystr.digit_value c); [|now intros [= <-]].
    destruct s as [|d s]; [now intros [= <-]|].
    destruct (pystr.digit_value d); [|now intros [= <-]].
    destruct (pystr.fromhex s) as [b|e'] eqn:E; simpl; [discriminate|].
    intros [= <-].
    apply (IH (length s) ltac:(simpl in Hn; lia) s eq_refl E).
Qed.

Lemma sign_error (sk : ecdsa.SigningKey) (data : bytes) (k : Z) (e : exn) :
  ecdsa.sign sk data k = Raise e -> e = TypeError \/ e = RSZeroError.
Proof.
  unfold ecdsa.sign.
  destruct (ecdsa.mul _ _); [intros [= <-]; now left|].
  destruct (_ =? 0)%Z; [intros [= <-]; now right|].
  destruct (_ =? 0)%Z; [intros [= <-]; now right|discriminate].
Qed.

Lemma as_bytes_error (data : pyarg) (e : exn) :
  as_bytes data = Raise e -> e = UnicodeEncodeError.
Proof.
  destruct data as [s|b]; simpl; [apply encode_utf8_error | discriminate].
Qed.

Lemma hex_as_bytes_error (data : pyarg) (e : exn) :
  hex_as_bytes data = Raise e -> e = ValueError.
Proof.
  destruct data as [s|b]; simpl; [apply fromhex_error | discriminate].
Qed.

Lemma sign_with_error (h : HardwareIdentity) (data : bytes) (w : world)
      (e : exn) :
  private_key h <> None ->
  fst (sign_with h data w) = Raise e -> e = TypeError \/ e = RSZeroError.
Proof.
  intros Hk. unfold sign_with.
  destruct (private_key h) as [sk|]; [|congruence].
  unfold bind, draw_nonce, lift. cbn [fst]. apply sign_error.
Qed.

(** Claim C10.  Every object obtained from the constructor or from the
    registry is Ready: [initialized] is true and salt, keys and address
    are set.  Hence [sign_data], [sign_hash] and [verify_signature] never
    raise the not-initialized error on such an object. *)
Theorem exposed_identities_are_initialized (env : Env) (h : HardwareIdentity) :
  obtainable env h ->
  ready h /\
  (forall data w, fst (sign_data h data w) <> Raise not_initialized) /\
  (forall data w, fst (sign_hash env h data w) <> Raise not_initialized) /\
  (forall data signature,
      verify_signature h data signature <> Raise not_initialized).
Proof.
  intros Ho. pose proof (obtainable_ready env h Ho) as Hr.
  split; [exact Hr|]. destruct Hr as (Hi & _ & Hk & _).
  split; [|split].
  - intros data w. unfold sign_data. rewrite Hi. cbn [negb].
    unfold bind, lift.
    destruct (as_bytes data) as [b|e] eqn:E.
    + intros H. apply sign_with_error in H; [|exact Hk].
      destruct H; discriminate.
    + apply as_bytes_error in E. subst e. discriminate.
  - intros data w. unfold sign_hash. rewrite Hi. cbn [negb].
    unfold bind at 1. unfold lift.
    destruct (hex_as_bytes data) as [b|e] eqn:E.
    + unfold bind at 1.
      destruct (sign_with h b w) as [[sg|e] w1] eqn:S.
      * discriminate.
      * intros H. cbn in H. injection H as ->.
        assert (Hs : fst (sign_with h b w) = Raise not_initialized)
          by now rewrite S.
        apply sign_with_error in Hs; [|exact Hk].
        destruct Hs; discriminate.
    + apply hex_as_bytes_error in E. subst e. discriminate.
  - intros data signature. unfold verify_signature. rewrite Hi. cbn [negb].
    destruct (as_bytes data) as [b|e] eqn:E; simpl.
    + destruct (hex_as_bytes signature) as [s|e] eqn:F; simpl.
      * destruct (match public_key h with
                  | Some vk => ecdsa.verify vk s b
                  | None => Raise AttributeError
                  end); discriminate.
      * apply hex_as_bytes_error in F. subst e. discriminate.
    + apply as_bytes_error in E. subst e. discriminate.
Qed.

Lemma exposed_identities_are_initialized_witness :
  initialized example_identity = true.
Proof.
  apply (exposed_identities_are_initialized default_env example_identity).
  apply (from_constructor default_env (Some (lit "abc123")) example_world).
  vm_compute. reflexivity.
Defined.

(** ** The registry *)

Lemma str_eqb_eq (a b : str) : str_eqb a b = true <-> a = b.
Proof.
  unfold str_eqb. destruct (list_eq_dec N.eq_dec a b); split;
    congruence.
Qed.

Lemma camera_id_differs_spec (a b : option str) :
  camera_id_differs a b = true <-> a <> b.
Proof.
  destruct a as [x|], b as [y|]; simpl; try (split; congruence).
  rewrite negb_true_iff. split.
  - intros H [= ->]. assert (str_eqb y y = true) by now apply str_eqb_eq.
    congruence.
  - intros H. destruct (str_eqb x y) eqn:E; [|reflexivity].
    apply str_eqb_eq in E. congruence.
Qed.

(** Claim C9.  With the module global unset, [get_hardware_identity]
    constructs an identity with the given camera id and caches it.  With
    an instance cached, a call without camera id, or with the camera id of
    the cached instance, returns that instance and changes nothing; a call
    with another, explicit camera id constructs a new instance with that
    camera id and caches it in place of the old one.  When a construction
    raises, the exception is passed on and the global is left as it
    was. *)
Theorem registry_caches_one_instance
        (env : Env) (cam : option str) (w : world) :
  let construct :=
    match fst (__init__ env cam w) with
    | Ok h =>
        get_hardware_identity env cam w
        = (Ok h, set_hardware_identity (Some h) (snd (__init__ env cam w)))
        /\ camera_id h = cam
    | Raise e =>
        get_hardware_identity env cam w = (Raise e, snd (__init__ env cam w))
        /\ _hardware_identity (snd (__init__ env cam w))
           = _hardware_identity w
    end in
  match _hardware_identity w with
  | None => construct
  | Some cached =>
      (cam = None -> get_hardware_identity env cam w = (Ok cached, w)) /\
      (cam = camera_id cached ->
       get_hardware_identity env cam w = (Ok cached, w)) /\
      (cam <> None -> cam <> camera_id cached -> construct)
  end.
Proof.
  intros construct.
  assert (Hc : construct_and_cache env cam w = get_hardware_identity env cam w
               -> construct).
  { intros Heq. unfold construct. rewrite <- Heq.
    pose proof (registry_after_construct env cam w) as H.
    pose proof (init_ready env cam w) as Hr.
    destruct (fst (__init__ env cam w)) as [h|e].
    - split; [exact H | now apply Hr].
    - split; [exact H | apply keeps_init]. }
  unfold get_hardware_identity in *.
  destruct (_hardware_identity w) as [cached|] eqn:E.
  - split; [|split].
    + intros ->. reflexivity.
    + intros ->. destruct (camera_id cached) as [c|] eqn:C; [|reflexivity].
      replace (camera_id_differs (Some c) (Some c)) with false; [reflexivity|].
      symmetry. apply not_true_is_false. rewrite camera_id_differs_spec.
      congruence.
    + intros Hn Hd. apply Hc.
      destruct cam as [c|]; [|congruence].
      replace (camera_id_differs (camera_id cached) (Some c)) with true;
        [reflexivity|].
      symmetry. apply camera_id_differs_spec. congruence.
  - apply Hc. reflexivity.
Qed.

Lemma registry_caches_one_instance_witness :
  get_hardware_identity default_env None
    (set_hardware_identity (Some example_identity) example_world)
  = (Ok example_identity,
     set_hardware_identity (Some example_identity) example_world).
Proof.
  apply (proj1 (registry_caches_one_instance default_env None
                  (set_hardware_identity (Some example_identity)
                                         example_world))).
  reflexivity.
Defined.

(** ** Key derivation *)

Lemma keccak_address_value (env : Env) (pub : bytes) (w : world) :
  keccak_address env pub w
  = (Ok (if KECCAK_AVAILABLE env
         then Some (lit "0x"
                    ++ pystr.hex (last_bytes 20 (sha3.keccak_256 pub)))
         else None),
     w).
Proof.
  unfold keccak_address, KECCAK_AVAILABLE, keccak_pysha3,
    keccak_pycryptodome.
  destruct (has_pysha3 env), (has_pycryptodome env); reflexivity.
Qed.

(** The address is a function of the public key and of the installed
    libraries: the world and the other attributes play no part. *)
Lemma get_address_value (env : Env) (self : HardwareIdentity)
      (vk : ecdsa.VerifyingKey) (w : world) :
  public_key self = Some vk ->
  let pub := ecdsa.vk_to_string vk in
  fst (_get_address env self w)
  = Ok (lit "0x"
        ++ pystr.hex (if KECCAK_AVAILABLE env
                      then last_bytes 20 (sha3.keccak_256 pub)
                      else firstn 20 (hashlib.sha256 pub))).
Proof.
  intros Hpk pub. unfold _get_address. rewrite Hpk. unfold bind.
  rewrite keccak_address_value. fold pub.
  destruct (KECCAK_AVAILABLE env); [reflexivity|].
  rewrite sha256_address_value. cbn [fst].
  unfold hashlib.sha256_hexdigest. now rewrite (firstn_hex 20).
Qed.

(** Claim C2.  Key derivation is a deterministic function of the
    fingerprint bytes and the 32-byte salt: the private scalar is the
    SHA-256 digest of fingerprint followed by salt, the public key is the
    one of that scalar, and the address computed from it is the same in
    every world and for every object that holds this public key.  (A
    digest that is not a valid scalar makes the derivation raise.) *)
Theorem key_derivation_is_deterministic
        (env : Env) (hw_id salt : bytes) :
  length salt = 32 ->
  match _derive_key hw_id salt with
  | Ok (sk, vk) =>
      ecdsa.sk_to_string sk = hashlib.sha256 (hw_id ++ salt) /\
      vk = ecdsa.get_verifying_key sk /\
      forall self1 self2 w1 w2,
        public_key self1 = Some vk -> public_key self2 = Some vk ->
        fst (_get_address env self1 w1) = fst (_get_address env self2 w2) /\
        exists address, fst (_get_address env self1 w1) = Ok address
  | Raise e => e = MalformedPointError
  end.
Proof.
  intros _. unfold _derive_key, ecdsa.from_string.
  pose proof (sha256_length (hw_id ++ salt)) as Hlen.
  rewrite Hlen. cbn [Nat.eqb ecdsa.baselen negb].
  destruct ((1 <=? _)%Z && _)%bool; cbn [rbind]; [|reflexivity].
  split; [|split].
  - unfold ecdsa.sk_to_string. cbn [ecdsa.secexp].
    change ecdsa.baselen with 32. rewrite <- Hlen. apply of_Z_to_Z.
  - reflexivity.
  - intros self1 self2 w1 w2 H1 H2.
    rewrite (get_address_value env self1 _ w1 H1),
            (get_address_value env self2 _ w2 H2).
    split; [reflexivity | eexists; reflexivity].
Qed.

Lemma key_derivation_is_deterministic_witness :
  option_map ecdsa.sk_to_string (private_key example_identity)
  = Some (hashlib.sha256
            (ascii_bytes "camera:abc123|serial:0000000012345678"
             ++ repeat x00 32)).
Proof.
  pose proof (key_derivation_is_deterministic default_env
                (ascii_bytes "camera:abc123|serial:0000000012345678")
                (repeat x00 32) eq_refl) as H.
  destruct (_derive_key (ascii_bytes "camera:abc123|serial:0000000012345678")
                        (repeat x00 32)) as [[sk vk]|e] eqn:E.
  - destruct H as [H _]. rewrite <- H.
    assert (Hsk : private_key example_identity = Some sk).
    { revert E. vm_compute. intros [= <- _]. reflexivity. }
    rewrite Hsk. reflexivity.
  - exfalso. revert E. vm_compute. discriminate.
Defined.

(** What a completed construction has computed from the salt and the
    fingerprint it obtained. *)
Lemma init_derivation (env : Env) (cam : option str) (w w1 : world)
      (s hw : bytes) (h : HardwareIdentity) :
  _get_or_create_salt env w = (Ok s, w1) ->
  fst (_get_hardware_id (fresh_object cam) w1) = Ok hw ->
  fst (__init__ env cam w) = Ok h ->
  exists sk vk,
    _derive_key hw s = Ok (sk, vk) /\
    salt h = Some s /\ private_key h = Some sk /\ public_key h = Some vk /\
    address h
    = Some (lit "0x"
            ++ pystr.hex
                 (if KECCAK_AVAILABLE env
                  then last_bytes 20 (sha3.keccak_256 (ecdsa.vk_to_string vk))
                  else firstn 20 (hashlib.sha256 (ecdsa.vk_to_string vk)))).
Proof.
  intros Hs Hhw. unfold __init__.
  destruct (ECDSA_AVAILABLE env); [|discriminate].
  unfold _initialize, try_except, bind, lift, print, ret, raise. cbn [negb].
  rewrite Hs.
  change (_get_hardware_id
            {| salt := Some s;
               private_key := private_key (fresh_object cam);
               public_key := public_key (fresh_object cam);
               address := address (fresh_object cam);
               initialized := initialized (fresh_object cam);
               camera_id := camera_id (fresh_object cam) |} w1)
    with (_get_hardware_id (fresh_object cam) w1).
  destruct (_get_hardware_id (fresh_object cam) w1) as [[hw'|e] w2];
    [|discriminate].
  cbn [fst] in Hhw. injection Hhw as ->.
  destruct (_derive_key hw s) as [[sk vk]|e]; [|discriminate].
  cbn [fst snd].
  match goal with
  | |- context [_get_address env ?self w2] =>
      pose proof (get_address_value env self vk w2 eq_refl) as Ha;
      destruct (_get_address env self w2) as [[a|e] w3]; [|discriminate]
  end.
  cbn in Ha. injection Ha as ->.
  cbn. intros [= <-]. exists sk, vk. cbn. repeat split; reflexivity.
Qed.

(** Two constructions, in any two worlds, that obtain the same salt and
    the same fingerprint build the same keys and the same address. *)
Lemma construction_is_deterministic
      (env : Env) (cam1 cam2 : option str) (w1 w2 wa wb : world)
      (s hw : bytes) (h1 h2 : HardwareIdentity) :
  _get_or_create_salt env w1 = (Ok s, wa) ->
  _get_or_create_salt env w2 = (Ok s, wb) ->
  fst (_get_hardware_id (fresh_object cam1) wa) = Ok hw ->
  fst (_get_hardware_id (fresh_object cam2) wb) = Ok hw ->
  fst (__init__ env cam1 w1) = Ok h1 ->
  fst (__init__ env cam2 w2) = Ok h2 ->
  private_key h1 = private_key h2 /\ public_key h1 = public_key h2 /\
  address h1 = address h2.
Proof.
  intros S1 S2 F1 F2 I1 I2.
  destruct (init_derivation env cam1 w1 wa s hw h1 S1 F1 I1)
    as (sk1 & vk1 & D1 & _ & K1 & P1 & A1).
  destruct (init_derivation env cam2 w2 wb s hw h2 S2 F2 I2)
    as (sk2 & vk2 & D2 & _ & K2 & P2 & A2).
  rewrite D1 in D2. injection D2 as <- <-.
  rewrite K1, K2, P1, P2, A1, A2. repeat split; reflexivity.
Qed.

(** ** Signing *)

Lemma denotes_hash_normalized (input : pyarg) (h : bytes) :
  denotes_hash input h -> hex_as_bytes input = Ok h.
Proof.
  intros [-> | (digits & [-> | ->] & Hd & Hf)]; unfold hex_as_bytes.
  - reflexivity.
  - now rewrite (remove_0x_digits digits Hd).
  - now rewrite (remove_0x_prefixed digits), (remove_0x_digits digits Hd).
Qed.

(** The hexadecimal text of [h], with or without [0x], denotes [h]. *)
Lemma hex_denotes_hash (h : bytes) :
  denotes_hash (PyStr (pystr.hex h)) h /\
  denotes_hash (PyStr (lit "0x" ++ pystr.hex h)) h.
Proof.
  split; right; exists (pystr.hex h);
    (split; [auto | split; [apply hex_digits | apply fromhex_hex]]).
Qed.

(** Claim C4, as amended.  For a Ready identity and a hash given as
    bytes, or as hexadecimal digits with an optional [0x], [sign_hash]
    returns a record with the hex of the signature, the identity's
    address, the label [ECDSA_SECP256k1], and as salt path the primary
    path when a file exists there at the time of the call, the backup
    path otherwise. *)
Theorem sign_hash_record
        (env : Env) (self : HardwareIdentity) (input : pyarg) (h : bytes)
        (w : world) :
  ready self ->
  denotes_hash input h ->
  exists sk,
    private_key self = Some sk /\
    sign_hash env self input w
    = (rmap (fun signature =>
               {| rec_signature := pystr.hex signature;
                  rec_address := address self;
                  rec_algorithm := lit "ECDSA_SECP256k1";
                  rec_salt_path :=
                    match files w (SALT_PATH env) with
                    | Some _ => SALT_PATH env
                    | None => SALT_BACKUP_PATH env
                    end |})
            (ecdsa.sign sk h (nonces w (nonce_pos w))),
       set_nonce_pos (S (nonce_pos w)) w).
Proof.
  intros (Hi & _ & Hk & _) Hd.
  destruct (private_key self) as [sk|] eqn:Esk; [|congruence].
  exists sk. split; [reflexivity|].
  unfold sign_hash. rewrite Hi. cbn [negb].
  unfold bind at 1. unfold lift at 1.
  rewrite (denotes_hash_normalized input h Hd).
  unfold sign_with. rewrite Esk. run.
  destruct (ecdsa.sign sk h (nonces w (nonce_pos w))) as [sg|e]; cbn.
  - destruct (files w (SALT_PATH env)); reflexivity.
  - reflexivity.
Qed.

Lemma example_identity_constructed :
  fst (__init__ default_env (Some (lit "abc123")) example_world)
  = Ok example_identity.
Proof. vm_compute. reflexivity. Qed.

Lemma example_identity_ready : ready example_identity.
Proof.
  apply (init_ready default_env (Some (lit "abc123")) example_world).
  apply example_identity_constructed.
Qed.

Lemma sign_hash_record_witness :
  exists signature,
    fst (sign_hash default_env example_identity
                   (PyStr (lit "0x" ++ pystr.hex test_hash)) example_world)
    = Ok {| rec_signature := signature;
            rec_address := address example_identity;
            rec_algorithm := lit "ECDSA_SECP256k1";
            rec_salt_path := SALT_PATH default_env |}.
Proof.
  destruct (sign_hash_record default_env example_identity
              (PyStr (lit "0x" ++ pystr.hex test_hash)) test_hash
              example_world example_identity_ready
              (proj2 (hex_denotes_hash test_hash)))
    as (sk & Hsk & H).
  rewrite H. injection Hsk as <-.
  eexists. vm_compute. reflexivity.
Defined.

(** Claim C4 fails as stated: with a truncated primary salt file, the
    salt is read from the backup file while the record names the primary
    file. *)
Lemma sign_hash_salt_path_counterexample :
  let run := __init__ default_env (Some (lit "abc123")) corrupt_primary_world in
  exists h r,
    fst run = Ok h /\
    salt_source (stdout (snd run)) = Some (SALT_BACKUP_PATH default_env) /\
    fst (sign_hash default_env h (PyBytes test_hash) (snd run)) = Ok r /\
    rec_salt_path r = SALT_PATH default_env /\
    SALT_PATH default_env <> SALT_BACKUP_PATH default_env.
Proof.
  intros run. subst run. eexists. eexists.
  split; [vm_compute; reflexivity|].
  split; [vm_compute; reflexivity|].
  split; [vm_compute; reflexivity|].
  split; [vm_compute; reflexivity|].
  vm_compute. discriminate.
Qed.

Lemma sign_hash_label (env : Env) (self : HardwareIdentity) (input : pyarg)
      (w : world) (r : SignatureRecord) :
  fst (sign_hash env self input w) = Ok r ->
  rec_algorithm r = lit "ECDSA_SECP256k1".
Proof.
  unfold sign_hash. destruct (negb (initialized self)); [discriminate|].
  unfold bind, lift, path_exists, ret.
  destruct (hex_as_bytes input) as [b|e]; [|discriminate].
  destruct (sign_with self b w) as [[sg|e] w1]; [|discriminate].
  cbn. intros [= <-]. reflexivity.
Qed.

Lemma last_bytes_length (n : nat) (b : bytes) :
  n <= length b -> length (last_bytes n b) = n.
Proof. intros H. unfold last_bytes. rewrite length_skipn. lia. Qed.

(** Claim C6, as amended.  On both paths the address encoder returns
    only a string, [0x] followed by the hex of 20 bytes (the last 20 of
    the Keccak-256 digest, or the first 20 of the SHA-256 digest), with no
    algorithm tag; the fallback shows only as a warning on standard
    output.  The single label in the [sign_hash] record is
    [ECDSA_SECP256k1] on both paths. *)
Theorem address_carries_no_algorithm_tag
        (env : Env) (self : HardwareIdentity) (vk : ecdsa.VerifyingKey)
        (w : world) :
  public_key self = Some vk ->
  let pub := ecdsa.vk_to_string vk in
  let digest20 :=
    if KECCAK_AVAILABLE env then last_bytes 20 (sha3.keccak_256 pub)
    else firstn 20 (hashlib.sha256 pub) in
  _get_address env self w
  = (Ok (lit "0x" ++ pystr.hex digest20),
     if KECCAK_AVAILABLE env then w
     else set_stdout (stdout w ++ [Sha256AddressWarning]) w)
  /\ length digest20 = 20
  /\ forall input w' r,
       fst (sign_hash env self input w') = Ok r ->
       rec_algorithm r = lit "ECDSA_SECP256k1".
Proof.
  intros Hpk pub digest20. split; [|split].
  - unfold _get_address. rewrite Hpk. unfold bind.
    rewrite keccak_address_value. fold pub. subst digest20.
    destruct (KECCAK_AVAILABLE env); [reflexivity|].
    rewrite sha256_address_value.
    unfold hashlib.sha256_hexdigest. now rewrite <- (firstn_hex 20).
  - subst digest20. destruct (KECCAK_AVAILABLE env).
    + apply last_bytes_length. rewrite keccak_256_length. lia.
    + apply firstn_length_le. rewrite sha256_length. lia.
  - intros input w' r. apply sign_hash_label.
Qed.

Lemma address_carries_no_algorithm_tag_witness :
  fst (_get_address fallback_env fallback_identity example_world)
  = fst (_get_address fallback_env fallback_identity bare_world).
Proof.
  destruct (address_carries_no_algorithm_tag fallback_env fallback_identity
              _ example_world eq_refl) as [H1 _].
  destruct (address_carries_no_algorithm_tag fallback_env fallback_identity
              _ bare_world eq_refl) as [H2 _].
  rewrite H1, H2. reflexivity.
Defined.

(** Claim C6 fails as stated: the Keccak address and the SHA-256
    address of one key come with the same label. *)
Lemma address_tag_counterexample :
  exists rk rs,
    fst (__init__ default_env (Some (lit "abc123")) example_world)
    = Ok example_identity /\
    fst (__init__ fallback_env (Some (lit "abc123")) example_world)
    = Ok fallback_identity /\
    public_key example_identity = public_key fallback_identity /\
    fst (sign_hash default_env example_identity (PyBytes test_hash)
                   example_world) = Ok rk /\
    fst (sign_hash fallback_env fallback_identity (PyBytes test_hash)
                   example_world) = Ok rs /\
    rec_address rk = Some (lit "0x045183b17b7811c8b772e95e72a6e69e10ad6d9b") /\
    rec_address rs = Some (lit "0xf501a4e588d318365045e37516c0f1c6d241721d") /\
    rec_algorithm rk = rec_algorithm rs.
Proof.
  eexists. eexists.
  split; [vm_compute; reflexivity|].
  split; [vm_compute; reflexivity|].
  split; [reflexivity|].
  split; [vm_compute; reflexivity|].
  split; [vm_compute; reflexivity|].
  split; [reflexivity|]. split; reflexivity.
Qed.

(** ** Verification *)

(** On [bytes] arguments [verify_signature] always answers. *)
Lemma verify_signature_bytes (self : HardwareIdentity)
      (vk : ecdsa.VerifyingKey) (data signature : bytes) :
  initialized self = true ->
  public_key self = Some vk ->
  verify_signature self (PyBytes data) (PyBytes signature)
  = Ok (match ecdsa.verify vk signature data with
        | Ok _ => true
        | Raise _ => false
        end).
Proof.
  intros Hi Hk. unfold verify_signature. rewrite Hi, Hk. simpl.
  destruct (ecdsa.verify vk signature data); reflexivity.
Qed.

(** The scenario of the specification: a signature of [b"test"] is
    accepted, and rejected for another payload and after the flip of one
    bit of its first byte (0xf0). *)
Example round_trip_on_example :
  exists signature,
    fst (sign_data example_identity (PyBytes (ascii_bytes "test"))
                   example_world) = Ok signature /\
    verify_signature example_identity (PyBytes (ascii_bytes "test"))
                     (PyBytes signature) = Ok true /\
    verify_signature example_identity (PyBytes (ascii_bytes "tesu"))
                     (PyBytes signature) = Ok false /\
    verify_signature example_identity (PyBytes (ascii_bytes "test"))
                     (PyBytes (xf1 :: tl signature)) = Ok false.
Proof.
  eexists. split; [vm_compute; reflexivity|].
  split; [vm_compute; reflexivity|].
  split; vm_compute; reflexivity.
Qed.

(** ** The salt store: stability, errors and fallback *)

Lemma try_primary_readable (env : Env) (w : world) :
  read_fault w (SALT_PATH env) = None ->
  try_primary env w
  = (Ok (valid_salt w (SALT_PATH env)),
     match valid_salt w (SALT_PATH env) with
     | Some _ => set_stdout (stdout w ++ [SaltLoaded (SALT_PATH env)]) w
     | None => w
     end).
Proof.
  intros Hr. unfold try_primary, valid_salt; run.
  destruct (files w (SALT_PATH env)) as [data|] eqn:E; [|reflexivity].
  cbn. rewrite Hr, E. destruct (length data =? 32)%nat; reflexivity.
Qed.

Lemma try_backup_readable (env : Env) (w : world) :
  read_fault w (SALT_BACKUP_PATH env) = None ->
  examinable w (SALT_BACKUP_PATH env) ->
  try_backup env w
  = (Ok (valid_salt w (SALT_BACKUP_PATH env)),
     match valid_salt w (SALT_BACKUP_PATH env) with
     | Some _ =>
         set_stdout (stdout w ++ [SaltLoadedBackup (SALT_BACKUP_PATH env)]) w
     | None => w
     end).
Proof.
  intros Hr Hx. unfold try_backup, valid_salt; run.
  destruct (files w (SALT_BACKUP_PATH env)) as [data|] eqn:E.
  - cbn. rewrite Hr, E. destruct (length data =? 32)%nat; reflexivity.
  - destruct (stat_fault w (SALT_BACKUP_PATH env)) as [e|] eqn:S;
      [|reflexivity].
    now rewrite (Hx E e S).
Qed.

(** The backup path can be examined, or examining it raises. *)
Lemma examinable_or_not (w : world) (path : str) :
  examinable w path \/
  exists e, files w path = None /\ stat_fault w path = Some e /\
            is_absence e = false.
Proof.
  unfold examinable. destruct (files w path) as [d|]; [left; discriminate|].
  destruct (stat_fault w path) as [e|]; [|left; discriminate].
  destruct (is_absence e) eqn:A.
  - left. now intros _ e' [= <-].
  - right. now exists e.
Qed.

Lemma valid_salt_length (w : world) (path : str) (s : bytes) :
  valid_salt w path = Some s -> length s = 32.
Proof.
  unfold valid_salt. destruct (files w path) as [d|]; [|discriminate].
  destruct (length d =? 32)%nat eqn:E; [|discriminate].
  intros [= <-]. now apply Nat.eqb_eq.
Qed.

Lemma valid_salt_whole (w : world) (path : str) (s : bytes) :
  files w path = Some s -> length s = 32 -> valid_salt w path = Some s.
Proof.
  intros Hf Hl. unfold valid_salt. rewrite Hf.
  apply Nat.eqb_eq in Hl. now rewrite Hl.
Qed.

(** A file that holds the beginning of a salt is that salt, or no salt. *)
Lemma valid_salt_beginning (w : world) (path : str) (s : bytes) (n : nat) :
  files w path = Some (firstn n s) -> length s = 32 ->
  valid_salt w path = Some s \/ valid_salt w path = None.
Proof.
  intros Hf Hl. unfold valid_salt. rewrite Hf.
  destruct (length (firstn n s) =? 32)%nat eqn:E; [left | now right].
  apply Nat.eqb_eq in E. rewrite length_firstn in E.
  now rewrite firstn_all2 by lia.
Qed.

Lemma str_eqb_refl (a : str) : str_eqb a a = true.
Proof. now apply str_eqb_eq. Qed.

(** Where [create_salt] leaves the salt it returns: in the primary file,
    or in the backup file beside a primary file that is as it was or
    holds the beginning of the salt. *)
Lemma create_salt_persisted (env : Env) (w w1 : world) (s : bytes) :
  create_salt env w = (Ok s, w1) ->
  length s = 32 /\
  (files w1 (SALT_PATH env) = Some s \/
   ((files w1 (SALT_PATH env) = files w (SALT_PATH env) \/
     exists n, files w1 (SALT_PATH env) = Some (firstn n s)) /\
    files w1 (SALT_BACKUP_PATH env) = Some s)).
Proof.
  unfold create_salt; run. cbn -[seq].
  set (fresh := map (entropy w) (seq (entropy_pos w) 32)).
  assert (Hlen : length fresh = 32)
    by (unfold fresh; now rewrite length_map, length_seq).
  branches; intros [= <- <-]; cbn -[seq];
    rewrite ?str_eqb_refl;
    (split; [exact Hlen|]);
    try (left; reflexivity).
  all: destruct (str_eqb (SALT_PATH env) (SALT_BACKUP_PATH env)) eqn:E.
  all: try (left; reflexivity).
  all: try (right; split; [left; reflexivity | reflexivity]).
  all: right; split; [right; eexists; reflexivity | reflexivity].
Qed.

Lemma salt_lookup_readable (env : Env) (w : world) :
  read_fault w (SALT_PATH env) = None ->
  read_fault w (SALT_BACKUP_PATH env) = None ->
  examinable w (SALT_BACKUP_PATH env) ->
  _get_or_create_salt env w
  = match valid_salt w (SALT_PATH env) with
    | Some s =>
        (Ok s, set_stdout (stdout w ++ [SaltLoaded (SALT_PATH env)]) w)
    | None =>
        match valid_salt w (SALT_BACKUP_PATH env) with
        | Some s =>
            (Ok s,
             set_stdout
               (stdout w ++ [SaltLoadedBackup (SALT_BACKUP_PATH env)]) w)
        | None => create_salt env w
        end
    end.
Proof.
  intros Hp Hb Hx. unfold _get_or_create_salt, bind.
  rewrite (try_primary_readable env w Hp).
  destruct (valid_salt w (SALT_PATH env)); [reflexivity|].
  rewrite (try_backup_readable env w Hb Hx).
  destruct (valid_salt w (SALT_BACKUP_PATH env)); reflexivity.
Qed.

(** With a readable primary file that holds no salt, an error of examining
    the backup path is raised. *)
Lemma salt_lookup_unexaminable (env : Env) (w : world) (e : exn) :
  read_fault w (SALT_PATH env) = None ->
  valid_salt w (SALT_PATH env) = None ->
  files w (SALT_BACKUP_PATH env) = None ->
  stat_fault w (SALT_BACKUP_PATH env) = Some e ->
  is_absence e = false ->
  _get_or_create_salt env w = (Raise e, w).
Proof.
  intros Hp V Hf Hs He. unfold _get_or_create_salt, bind.
  rewrite (try_primary_readable env w Hp), V.
  now rewrite (try_backup_raises env w e Hf Hs He).
Qed.

(** The lookup leaves the read faults as they are. *)
Lemma salt_lookup_keeps_faults (env : Env) (w : world) :
  read_fault (snd (_get_or_create_salt env w)) = read_fault w.
Proof.
  unfold _get_or_create_salt, try_primary, try_backup, create_salt; run.
  branches; reflexivity.
Qed.

(** After a lookup with readable files the salt is in the file that the
    next lookup reads. *)
Lemma salt_persisted (env : Env) (w wa : world) (s : bytes) :
  read_fault w (SALT_PATH env) = None ->
  read_fault w (SALT_BACKUP_PATH env) = None ->
  _get_or_create_salt env w = (Ok s, wa) ->
  valid_salt wa (SALT_PATH env) = Some s \/
  (valid_salt wa (SALT_PATH env) = None /\
   valid_salt wa (SALT_BACKUP_PATH env) = Some s).
Proof.
  intros Hp Hb.
  destruct (valid_salt w (SALT_PATH env)) as [s1|] eqn:V1.
  { unfold _get_or_create_salt, bind.
    rewrite (try_primary_readable env w Hp), V1.
    intros [= <- <-]. left. exact V1. }
  destruct (examinable_or_not w (SALT_BACKUP_PATH env))
    as [Hx | (e & Hf & Hs & He)].
  2:{ rewrite (salt_lookup_unexaminable env w e Hp V1 Hf Hs He).
      discriminate. }
  rewrite (salt_lookup_readable env w Hp Hb Hx), V1.
  destruct (valid_salt w (SALT_BACKUP_PATH env)) as [s2|] eqn:V2.
  { intros [= <- <-]. right. split; [exact V1 | exact V2]. }
  intros C. destruct (create_salt_persisted env w wa s C) as (Hl & Hf).
  destruct Hf as [Hf | [[Hf1 | [n Hf1]] Hf2]].
  - left. now apply valid_salt_whole.
  - right. split; [|now apply valid_salt_whole].
    unfold valid_salt in *. now rewrite Hf1.
  - destruct (valid_salt_beginning wa (SALT_PATH env) s n Hf1 Hl) as [V | V].
    + left. exact V.
    + right. split; [exact V | now apply valid_salt_whole].
Qed.


(** A usable salt file is returned as it is. *)
Lemma salt_lookup_loads (env : Env) (w : world) (s : bytes) :
  (read_fault w (SALT_PATH env) = None /\
   valid_salt w (SALT_PATH env) = Some s) \/
  (unusable is_PermissionError (SALT_PATH env) w /\
   read_fault w (SALT_BACKUP_PATH env) = None /\
   valid_salt w (SALT_BACKUP_PATH env) = Some s) ->
  exists out, _get_or_create_salt env w = (Ok s, set_stdout out w).
Proof.
  intros [[Hr Hv] | (Hu & Hr & Hv)].
  - unfold _get_or_create_salt, bind.
    rewrite (try_primary_readable env w Hr), Hv. eexists. reflexivity.
  - destruct (salt_after_primary env w Hu) as [o1 H1]. rewrite H1.
    assert (Hx : examinable (set_stdout o1 w) (SALT_BACKUP_PATH env)).
    { intros Hf. unfold valid_salt in Hv. cbn in Hf.
      rewrite Hf in Hv. discriminate. }
    unfold bind. rewrite (try_backup_readable env (set_stdout o1 w) Hr Hx).
    change (valid_salt (set_stdout o1 w) (SALT_BACKUP_PATH env))
      with (valid_salt w (SALT_BACKUP_PATH env)).
    rewrite Hv. eexists. reflexivity.
Qed.

(** A readable file without salt is unusable. *)
Lemma no_salt_unusable (catches : exn -> bool) (w : world) (path : str) :
  read_fault w path = None -> valid_salt w path = None ->
  unusable catches path w.
Proof.
  intros Hr V. unfold valid_salt in V. unfold unusable.
  destruct (files w path) as [d|] eqn:E; [|now left].
  right; right. split; [exact Hr|]. exists d. split; [reflexivity|].
  destruct (length d =? 32)%nat eqn:L; [discriminate|].
  now apply Nat.eqb_neq.
Qed.

(** Property X1.  With readable salt files, a second call of
    [_get_or_create_salt] returns the salt of the first one: a salt that
    was loaded is loaded again, and a salt that was created has been
    written where the next call finds it. *)
Theorem salt_is_stable (env : Env) (w : world) (s : bytes) :
  read_fault w (SALT_PATH env) = None ->
  read_fault w (SALT_BACKUP_PATH env) = None ->
  fst (_get_or_create_salt env w) = Ok s ->
  fst (_get_or_create_salt env (snd (_get_or_create_salt env w))) = Ok s.
Proof.
  intros Hp Hb H.
  pose proof (salt_lookup_keeps_faults env w) as Hk.
  destruct (_get_or_create_salt env w) as [r wa] eqn:E.
  cbn [fst snd] in *. subst r.
  assert (Hs : exists out,
             _get_or_create_salt env wa = (Ok s, set_stdout out wa)).
  { apply salt_lookup_loads.
    destruct (salt_persisted env w wa s Hp Hb E) as [V | [V1 V2]].
    - left. split; [now rewrite Hk | exact V].
    - right. split; [|split; [now rewrite Hk | exact V2]].
      apply no_salt_unusable; [now rewrite Hk | exact V1]. }
  destruct Hs as [out ->]. reflexivity.
Qed.

Lemma salt_is_stable_witness :
  fst (_get_or_create_salt default_env
         (snd (_get_or_create_salt default_env bare_world)))
  = Ok (repeat x2a 32).
Proof.
  apply (salt_is_stable default_env bare_world); reflexivity.
Defined.

Lemma try_primary_length (env : Env) (w w1 : world) (s : bytes) :
  try_primary env w = (Ok (Some s), w1) -> length s = 32.
Proof.
  unfold try_primary; run.
  destruct (files w (SALT_PATH env)) as [d|] eqn:F; [|discriminate].
  destruct (read_fault w (SALT_PATH env)) as [e|].
  - cbn. destruct (is_PermissionError e); discriminate.
  - rewrite F. cbn. destruct (length d =? 32)%nat eqn:E; [|discriminate].
    intros [= <- _]. now apply Nat.eqb_eq.
Qed.

Lemma try_backup_length (env : Env) (w w1 : world) (s : bytes) :
  try_backup env w = (Ok (Some s), w1) -> length s = 32.
Proof.
  unfold try_backup; run.
  destruct (files w (SALT_BACKUP_PATH env)) as [d|] eqn:F.
  - destruct (read_fault w (SALT_BACKUP_PATH env)) as [e|].
    + cbn. discriminate.
    + rewrite F. cbn. destruct (length d =? 32)%nat eqn:E; [|discriminate].
      intros [= <- _]. now apply Nat.eqb_eq.
  - destruct (stat_fault w (SALT_BACKUP_PATH env)) as [e|];
      [destruct (is_absence e)|]; discriminate.
Qed.

(** Property X2.  Whatever the files hold and whichever system call fails,
    a salt that [_get_or_create_salt] returns has exactly 32 bytes. *)
Theorem salt_has_32_bytes (env : Env) (w : world) (s : bytes) :
  fst (_get_or_create_salt env w) = Ok s -> length s = 32.
Proof.
  unfold _get_or_create_salt, bind.
  destruct (try_primary env w) as [[[s1|]|e] w1] eqn:P; cbn [fst].
  - intros [= <-]. exact (try_primary_length env w w1 s1 P).
  - destruct (try_backup env w1) as [[[s2|]|e] w2] eqn:B; cbn [fst].
    + intros [= <-]. exact (try_backup_length env w1 w2 s2 B).
    + destruct (create_salt env w2) as [r w3] eqn:C. cbn [fst]. intros ->.
      now destruct (create_salt_persisted env w2 w3 s C).
    + discriminate.
  - discriminate.
Qed.

Lemma salt_has_32_bytes_witness :
  length (repeat x00 32) = 32.
Proof.
  apply (salt_has_32_bytes default_env example_world). reflexivity.
Defined.



(** Property X4.  A read error of the primary salt file that is not a
    permission error is fatal: when the file exists and reading it raises
    such an exception, [_get_or_create_salt] raises it without looking at
    the backup file and without any effect, and the construction of the
    identity fails with the same exception after reporting it. *)
Theorem primary_read_error_is_fatal
        (env : Env) (cam : option str) (w : world) (e : exn) :
  files w (SALT_PATH env) <> None ->
  read_fault w (SALT_PATH env) = Some e ->
  is_PermissionError e = false ->
  _get_or_create_salt env w = (Raise e, w) /\
  (ECDSA_AVAILABLE env = true ->
   __init__ env cam w = (Raise e, set_stdout (stdout w ++ [InitError e]) w)).
Proof.
  intros Hf Hr He.
  assert (Hs : _get_or_create_salt env w = (Raise e, w)).
  { unfold _get_or_create_salt, try_primary; run.
    destruct (files w (SALT_PATH env)); [|contradiction].
    rewrite Hr, He. reflexivity. }
  split; [exact Hs|]. intros Ha.
  unfold __init__. rewrite Ha. cbn [negb].
  unfold _initialize, try_except, bind. rewrite Hs. reflexivity.
Qed.

Lemma primary_read_error_is_fatal_witness :
  _get_or_create_salt default_env io_error_world
  = (Raise OSError, io_error_world).
Proof.
  apply (primary_read_error_is_fatal default_env None io_error_world OSError).
  - discriminate.
  - reflexivity.
  - reflexivity.
Defined.






(** ** What the stages of a construction read and write *)

Lemma only_prints_ret {A} (a : A) : only_prints (ret a).
Proof. intros w. exists (stdout w). cbn. now rewrite set_stdout_same. Qed.

Lemma only_prints_raise {A} (e : exn) : only_prints (@raise A e).
Proof. intros w. exists (stdout w). cbn. now rewrite set_stdout_same. Qed.

Lemma only_prints_lift {A} (r : result A) : only_prints (lift r).
Proof. intros w. exists (stdout w). cbn. now rewrite set_stdout_same. Qed.

Lemma only_prints_print (ev : event) : only_prints (print ev).
Proof. intros w. eexists. reflexivity. Qed.

Lemma only_prints_bind {A B} (m : M A) (k : A -> M B) :
  only_prints m -> (forall a, only_prints (k a)) -> only_prints (bind m k).
Proof.
  intros Hm Hk w. unfold bind. destruct (Hm w) as [o1 H1].
  destruct (m w) as [[a|e] w1]; cbn in *; subst w1.
  - destruct (Hk a (set_stdout o1 w)) as [o2 H2]. rewrite H2.
    exists o2. reflexivity.
  - exists o1. reflexivity.
Qed.

Lemma only_prints_try_except {A} (m : M A) (catches : exn -> bool)
      (handler : exn -> M A) :
  only_prints m -> (forall e, only_prints (handler e)) ->
  only_prints (try_except m catches handler).
Proof.
  intros Hm Hh w. unfold try_except. destruct (Hm w) as [o1 H1].
  destruct (m w) as [[a|e] w1]; cbn in *; subst w1.
  - exists o1. reflexivity.
  - destruct (catches e); [|exists o1; reflexivity].
    destruct (Hh e (set_stdout o1 w)) as [o2 H2]. rewrite H2.
    exists o2. reflexivity.
Qed.

#[local] Hint Resolve only_prints_ret only_prints_raise only_prints_lift
  only_prints_print : frame.
#[local] Hint Resolve only_prints_bind only_prints_try_except | 3 : frame.
#[local] Hint Extern 4 (only_prints (if ?b then _ else _)) =>
  destruct b : frame.
#[local] Hint Extern 4 (only_prints (match ?x with _ => _ end)) =>
  destruct x : frame.

Lemma only_prints_collect_identifiers (cam : option str) :
  only_prints (collect_identifiers cam).
Proof.
  unfold collect_identifiers. apply only_prints_bind; [|intros ids1].
  { unfold collect_camera. auto 20 with frame. }
  apply only_prints_bind; [|intros ids2].
  { unfold collect_serial. apply only_prints_try_except;
      [|auto 20 with frame].
    apply only_prints_bind; [|auto 20 with frame].
    intros w. exists (stdout w). cbn. now rewrite set_stdout_same. }
  apply only_prints_bind; [|intros ids3].
  { generalize [lit "wlan0"; lit "eth0"] as interfaces.
    induction interfaces as [|i rest IH]; simpl; [auto with frame|].
    intros w. destruct (net_address w i) as [[content|e]|]; try apply IH.
    eexists. reflexivity. }
  intros w. unfold collect_machine.
  destruct (machine_id w) as [[content|e]|];
    [eexists; reflexivity | | ];
    exists (stdout w); cbn; now rewrite set_stdout_same.
Qed.

Lemma only_prints_get_hardware_id (self : HardwareIdentity) :
  only_prints (_get_hardware_id self).
Proof.
  unfold _get_hardware_id. apply only_prints_bind;
    [apply only_prints_collect_identifiers | auto 20 with frame].
Qed.

Lemma only_prints_get_address (env : Env) (self : HardwareIdentity) :
  only_prints (_get_address env self).
Proof.
  unfold _get_address, keccak_address, sha256_address. auto 40 with frame.
Qed.

Lemma same_sources_refl (w : world) : same_sources w w.
Proof. repeat split. Qed.

Lemma same_sources_printed (w w' : world) (o o' : list event) :
  same_sources w w' -> same_sources (set_stdout o w) (set_stdout o' w').
Proof. intros H. exact H. Qed.

Lemma sources_ret {A} (a : A) : reads_sources_only (ret a).
Proof. intros w w' H. split; [reflexivity | exact H]. Qed.

Lemma sources_raise {A} (e : exn) : reads_sources_only (@raise A e).
Proof. intros w w' H. split; [reflexivity | exact H]. Qed.

Lemma sources_lift {A} (r : result A) : reads_sources_only (lift r).
Proof. intros w w' H. split; [reflexivity | exact H]. Qed.

Lemma sources_print (ev : event) : reads_sources_only (print ev).
Proof. intros w w' H. split; [reflexivity | exact H]. Qed.

Lemma sources_bind {A B} (m : M A) (k : A -> M B) :
  reads_sources_only m -> (forall a, reads_sources_only (k a)) ->
  reads_sources_only (bind m k).
Proof.
  intros Hm Hk w w' H. unfold bind. destruct (Hm w w' H) as [Hv Hs].
  destruct (m w) as [[a|e] w1], (m w') as [[a'|e'] w1']; cbn in *;
    try discriminate.
  - injection Hv as <-. now apply Hk.
  - injection Hv as <-. split; [reflexivity | exact Hs].
Qed.

Lemma sources_try_except {A} (m : M A) (catches : exn -> bool)
      (handler : exn -> M A) :
  reads_sources_only m -> (forall e, reads_sources_only (handler e)) ->
  reads_sources_only (try_except m catches handler).
Proof.
  intros Hm Hh w w' H. unfold try_except. destruct (Hm w w' H) as [Hv Hs].
  destruct (m w) as [[a|e] w1], (m w') as [[a'|e'] w1']; cbn in *;
    try discriminate.
  - split; [exact Hv | exact Hs].
  - injection Hv as <-. destruct (catches e); [now apply Hh|].
    split; [reflexivity | exact Hs].
Qed.

#[local] Hint Resolve sources_ret sources_raise sources_lift sources_print
  : frame.
#[local] Hint Resolve sources_bind sources_try_except | 3 : frame.
#[local] Hint Extern 4 (reads_sources_only (if ?b then _ else _)) =>
  destruct b : frame.
#[local] Hint Extern 4 (reads_sources_only (match ?x with _ => _ end)) =>
  destruct x : frame.

Lemma sources_collect_mac (interfaces identifiers : list str) :
  reads_sources_only (collect_mac interfaces identifiers).
Proof.
  intros w w' H. induction interfaces as [|i rest IH]; simpl.
  - split; [reflexivity | exact H].
  - pose proof H as (Hc & Hn & Hm). rewrite <- (Hn i).
    destruct (net_address w i) as [[content|e]|];
      try (apply IH; repeat split; assumption).
    split; [reflexivity | exact H].
Qed.

Lemma sources_collect_identifiers (cam : option str) :
  reads_sources_only (collect_identifiers cam).
Proof.
  unfold collect_identifiers. apply sources_bind; [|intros ids1].
  { unfold collect_camera. auto 20 with frame. }
  apply sources_bind; [|intros ids2].
  { unfold collect_serial. apply sources_try_except; [|auto 20 with frame].
    apply sources_bind; [|auto 20 with frame].
    intros w w' H. cbn. split; [apply H | exact H]. }
  apply sources_bind; [apply sources_collect_mac | intros ids3].
  intros w w' H. unfold collect_machine.
  pose proof H as (Hc & Hn & Hm). rewrite <- Hm.
  destruct (machine_id w) as [[content|e]|];
    (split; [reflexivity | exact H]).
Qed.

(** The fingerprint is a function of the camera id and of the hardware
    identifiers: nothing else in the world matters. *)
Lemma fingerprint_reads_sources_only (self : HardwareIdentity) :
  reads_sources_only (_get_hardware_id self).
Proof.
  unfold _get_hardware_id. apply sources_bind;
    [apply sources_collect_identifiers | auto 20 with frame].
Qed.

(** Property X7.  The fingerprint is a function of the camera id and of
    the hardware identifiers (CPU information, interface addresses, machine
    id): two objects with the same camera id, in two worlds that show the
    same identifiers, get the same fingerprint or the same exception,
    whatever the files, the salt, the random streams and the registry
    hold; and collecting the fingerprint changes nothing but standard
    output. *)
Theorem fingerprint_depends_on_identifiers_only
        (self self' : HardwareIdentity) (w w' : world) :
  camera_id self = camera_id self' ->
  same_sources w w' ->
  fst (_get_hardware_id self w) = fst (_get_hardware_id self' w') /\
  exists out, snd (_get_hardware_id self w) = set_stdout out w.
Proof.
  intros Hc Hs. split.
  - replace (_get_hardware_id self') with (_get_hardware_id self)
      by (unfold _get_hardware_id; now rewrite Hc).
    now apply fingerprint_reads_sources_only.
  - apply only_prints_get_hardware_id.
Qed.

Lemma fingerprint_depends_on_identifiers_only_witness :
  fst (_get_hardware_id example_identity example_world)
  = fst (_get_hardware_id (fresh_object (Some (lit "abc123")))
                          read_only_world).
Proof.
  apply (fingerprint_depends_on_identifiers_only example_identity
           (fresh_object (Some (lit "abc123"))) example_world
           read_only_world).
  - reflexivity.
  - split; [reflexivity | split; [reflexivity | reflexivity]].
Defined.

Lemma salt_stage_keeps (env : Env) (w : world) :
  let w' := snd (_get_or_create_salt env w) in
  read_fault w' = read_fault w /\ same_sources w w'.
Proof.
  unfold _get_or_create_salt, try_primary, try_backup, create_salt; run.
  branches; (split; [reflexivity | repeat split]).
Qed.

(** The stages of a construction that returns. *)
Lemma init_stages (env : Env) (cam : option str) (w : world)
      (h : HardwareIdentity) :
  fst (__init__ env cam w) = Ok h ->
  exists s wa hw sk vk out,
    ECDSA_AVAILABLE env = true /\
    _get_or_create_salt env w = (Ok s, wa) /\
    fst (_get_hardware_id (fresh_object cam) wa) = Ok hw /\
    _derive_key hw s = Ok (sk, vk) /\
    h = built_identity env cam s sk vk /\
    snd (__init__ env cam w) = set_stdout out wa.
Proof.
  unfold __init__. destruct (ECDSA_AVAILABLE env); [|discriminate].
  unfold _initialize, try_except, bind, lift, print, ret, raise. cbn [negb].
  destruct (_get_or_create_salt env w) as [[s|e] wa]; [|discriminate].
  change (_get_hardware_id
            {| salt := Some s;
               private_key := private_key (fresh_object cam);
               public_key := public_key (fresh_object cam);
               address := address (fresh_object cam);
               initialized := initialized (fresh_object cam);
               camera_id := camera_id (fresh_object cam) |} wa)
    with (_get_hardware_id (fresh_object cam) wa).
  destruct (only_prints_get_hardware_id (fresh_object cam) wa) as [o1 H1].
  destruct (_get_hardware_id (fresh_object cam) wa) as [[hw|e] wb] eqn:F;
    [|discriminate].
  cbn [snd] in H1. subst wb.
  destruct (_derive_key hw s) as [[sk vk]|e] eqn:D; [|discriminate].
  cbn [fst snd].
  match goal with
  | |- context [_get_address env ?self ?w0] =>
      pose proof (get_address_value env self vk w0 eq_refl) as Ha;
      destruct (only_prints_get_address env self w0) as [o2 H2];
      destruct (_get_address env self w0) as [[a|e] wc]; [|discriminate]
  end.
  cbn in Ha. injection Ha as ->. cbn [snd] in H2. subst wc.
  cbn. intros [= <-].
  exists s, wa, hw, sk, vk. eexists.
  split; [reflexivity|]. split; [reflexivity|].
  split; [now rewrite F|]. split; [exact D|]. split; reflexivity.
Qed.

(** The result of a construction whose stages succeed. *)
Lemma init_success (env : Env) (cam : option str) (w wa : world)
      (s hw : bytes) (sk : ecdsa.SigningKey) (vk : ecdsa.VerifyingKey) :
  ECDSA_AVAILABLE env = true ->
  _get_or_create_salt env w = (Ok s, wa) ->
  fst (_get_hardware_id (fresh_object cam) wa) = Ok hw ->
  _derive_key hw s = Ok (sk, vk) ->
  fst (__init__ env cam w) = Ok (built_identity env cam s sk vk).
Proof.
  intros He Hs Hhw Hd. unfold __init__. rewrite He.
  unfold _initialize, try_except, bind, lift, print, ret, raise. cbn [negb].
  rewrite Hs.
  change (_get_hardware_id
            {| salt := Some s;
               private_key := private_key (fresh_object cam);
               public_key := public_key (fresh_object cam);
               address := address (fresh_object cam);
               initialized := initialized (fresh_object cam);
               camera_id := camera_id (fresh_object cam) |} wa)
    with (_get_hardware_id (fresh_object cam) wa).
  destruct (_get_hardware_id (fresh_object cam) wa) as [[hw'|e] wb];
    [|discriminate].
  cbn [fst] in Hhw. injection Hhw as ->. rewrite Hd. cbn [fst snd].
  match goal with
  | |- context [_get_address env ?self ?w0] =>
      pose proof (get_address_value env self vk w0 eq_refl) as Ha;
      destruct (_get_address env self w0) as [[a|e] wc]; [|discriminate]
  end.
  cbn in Ha. injection Ha as ->. reflexivity.
Qed.

Lemma valid_salt_same (w w' : world) (path : str) :
  (forall p, files w p = files w' p) -> valid_salt w path = valid_salt w' path.
Proof. intros H. unfold valid_salt. now rewrite H. Qed.

(** Property X8.  An identity survives a restart.  When a construction
    with readable salt files returns an identity, every later construction
    with the same camera id on the same machine (the files as the first
    construction left them, the same read faults, the same hardware
    identifiers) returns the same identity: the same salt, keys and
    address, whatever the random source gives this time. *)
Theorem identity_survives_restart
        (env : Env) (cam : option str) (w w2 : world) (h : HardwareIdentity) :
  read_fault w (SALT_PATH env) = None ->
  read_fault w (SALT_BACKUP_PATH env) = None ->
  fst (__init__ env cam w) = Ok h ->
  same_machine (snd (__init__ env cam w)) w2 ->
  fst (__init__ env cam w2) = Ok h.
Proof.
  intros Hp Hb Hi Hm.
  destruct (init_stages env cam w h Hi)
    as (s & wa & hw & sk & vk & out & He & Hs & Hhw & Hd & -> & Hw).
  rewrite Hw in Hm. destruct Hm as (Hf & Hr & Hsrc).
  pose proof (salt_stage_keeps env w) as Hk. rewrite Hs in Hk.
  cbn [snd] in Hk. destruct Hk as [Hrf _].
  assert (Hp2 : read_fault w2 (SALT_PATH env) = None)
    by (rewrite <- Hr; cbn; now rewrite Hrf).
  assert (Hb2 : read_fault w2 (SALT_BACKUP_PATH env) = None)
    by (rewrite <- Hr; cbn; now rewrite Hrf).
  assert (Hsalt : exists o2,
             _get_or_create_salt env w2 = (Ok s, set_stdout o2 w2)).
  { apply salt_lookup_loads.
    rewrite <- !(valid_salt_same (set_stdout out wa) w2) by exact Hf.
    change (valid_salt (set_stdout out wa)) with (valid_salt wa).
    destruct (salt_persisted env w wa s Hp Hb Hs) as [V | [V1 V2]].
    - left. split; [exact Hp2 | exact V].
    - right. split; [|split; [exact Hb2 | exact V2]].
      unfold valid_salt in V1. unfold unusable.
      rewrite <- (Hf (SALT_PATH env)). cbn [files set_stdout].
      destruct (files wa (SALT_PATH env)) as [d|] eqn:E; [|now left].
      right; right. split; [exact Hp2|].
      exists d. split; [reflexivity|].
      destruct (length d =? 32)%nat eqn:L; [discriminate|].
      now apply Nat.eqb_neq. }
  destruct Hsalt as [o2 Hsalt].
  apply (init_success env cam w2 (set_stdout o2 w2) s hw sk vk He Hsalt);
    [|exact Hd].
  rewrite <- Hhw. symmetry.
  apply (fingerprint_reads_sources_only (fresh_object cam)). exact Hsrc.
Qed.

Lemma identity_survives_restart_witness :
  fst (__init__ default_env (Some (lit "abc123"))
         (snd (__init__ default_env (Some (lit "abc123")) first_boot_world)))
  = Ok (constructed default_env (Some (lit "abc123")) first_boot_world).
Proof.
  apply (identity_survives_restart default_env (Some (lit "abc123"))
           first_boot_world).
  - reflexivity.
  - reflexivity.
  - vm_compute. reflexivity.
  - split; [reflexivity | split; [reflexivity | apply same_sources_refl]].
Defined.

(** ** The registry: camera ids and repeated calls *)

(** What holds of every result of the constructor holds of every object a
    caller can hold. *)
Lemma obtainable_from_init (env : Env) (P : HardwareIdentity -> Prop) :
  (forall cam w h, fst (__init__ env cam w) = Ok h -> P h) ->
  forall h, obtainable env h -> P h.
Proof.
  intros HP.
  assert (Hreg : forall w, reachable env w ->
                           forall h, _hardware_identity w = Some h -> P h).
  { induction 1 as [w H0 | cam w _ IH | cam w _ IH | h0 data w _ IH
                    | h0 data w _ IH]; intros h Hh.
    - congruence.
    - rewrite keeps_init in Hh. auto.
    - unfold get_hardware_identity in Hh.
      pose proof (registry_after_construct env cam w) as Hc.
      pose proof (HP cam w) as Hr.
      pose proof (keeps_init env cam w) as Hk.
      destruct (_hardware_identity w) as [cached|] eqn:E.
      + destruct cam as [c|]; [|cbn [snd] in Hh; rewrite E in Hh; auto].
        destruct (camera_id_differs (camera_id cached) (Some c));
          [|cbn [snd] in Hh; rewrite E in Hh; auto].
        destruct (fst (__init__ env (Some c) w)) as [h1|e]; rewrite Hc in Hh.
        * cbn in Hh. injection Hh as <-. now apply Hr.
        * cbn [snd] in Hh. rewrite Hk in Hh. auto.
      + destruct (fst (__init__ env cam w)) as [h1|e]; rewrite Hc in Hh.
        * cbn in Hh. injection Hh as <-. now apply Hr.
        * cbn [snd] in Hh. rewrite Hk in Hh. congruence.
    - rewrite keeps_sign_data in Hh. auto.
    - rewrite keeps_sign_hash in Hh. auto. }
  intros h [cam w h0 H | cam w h0 Hw H].
  - now apply (HP cam w).
  - unfold get_hardware_identity in H.
    pose proof (registry_after_construct env cam w) as Hc.
    pose proof (HP cam w) as Hr.
    pose proof (Hreg w Hw) as Hinv.
    destruct (_hardware_identity w) as [cached|] eqn:E.
    + destruct cam as [c|]; [|injection H as <-; auto].
      destruct (camera_id_differs (camera_id cached) (Some c));
        [|injection H as <-; auto].
      destruct (fst (__init__ env (Some c) w)) as [h1|e]; rewrite Hc in H.
      * injection H as <-. now apply Hr.
      * discriminate.
    + destruct (fst (__init__ env cam w)) as [h1|e]; rewrite Hc in H.
      * injection H as <-. now apply Hr.
      * discriminate.
Qed.

Lemma camera_id_same (a b : option str) :
  camera_id_differs a b = false -> a = b.
Proof.
  destruct a as [x|], b as [y|]; simpl; try discriminate; [|reflexivity].
  rewrite negb_false_iff, str_eqb_eq. now intros ->.
Qed.

Lemma registry_camera_id
      (env : Env) (c : str) (w : world) (h : HardwareIdentity) :
  fst (get_hardware_identity env (Some c) w) = Ok h ->
  camera_id h = Some c.
Proof.
  unfold get_hardware_identity.
  pose proof (registry_after_construct env (Some c) w) as Hc.
  pose proof (init_ready env (Some c) w) as Hr.
  destruct (_hardware_identity w) as [cached|].
  - destruct (camera_id_differs (camera_id cached) (Some c)) eqn:D.
    + destruct (fst (__init__ env (Some c) w)) as [h1|e]; rewrite Hc.
      * intros [= <-]. now apply Hr.
      * discriminate.
    + intros [= <-]. now apply camera_id_same.
  - destruct (fst (__init__ env (Some c) w)) as [h1|e]; rewrite Hc.
    + intros [= <-]. now apply Hr.
    + discriminate.
Qed.

(** Property X9.  The registry never answers with the identity of another
    camera: whatever is cached, an identity that
    [get_hardware_identity(camera_id=c)] returns for an explicit camera id
    [c] has the camera id [c]. *)
Theorem registry_honours_camera_id
        (env : Env) (c : str) (w : world) (h : HardwareIdentity) :
  fst (get_hardware_identity env (Some c) w) = Ok h ->
  camera_id h = Some c.
Proof. apply registry_camera_id. Qed.

Lemma registry_honours_camera_id_witness :
  camera_id example_identity = Some (lit "abc123").
Proof.
  apply (registry_honours_camera_id default_env (lit "abc123")
           example_world).
  vm_compute. reflexivity.
Defined.

(** Property X10.  Asking the registry again is free.  After a call of
    [get_hardware_identity] that returned an identity, the same call, and
    the call without camera id, return the same identity and change
    nothing: nothing is constructed, read, written or printed. *)
Theorem registry_is_idempotent
        (env : Env) (cam : option str) (w : world) (h : HardwareIdentity) :
  fst (get_hardware_identity env cam w) = Ok h ->
  let w1 := snd (get_hardware_identity env cam w) in
  get_hardware_identity env cam w1 = (Ok h, w1) /\
  get_hardware_identity env None w1 = (Ok h, w1).
Proof.
  intros H w1.
  assert (Hreg : _hardware_identity w1 = Some h /\
                 (forall c, cam = Some c -> camera_id h = Some c)).
  { split; [|intros c ->; now apply (registry_camera_id env c w)].
    subst w1. revert H. unfold get_hardware_identity.
    pose proof (registry_after_construct env cam w) as Hc.
    destruct (_hardware_identity w) as [cached|] eqn:E.
    - destruct cam as [c|]; [|intros [= <-]; exact E].
      destruct (camera_id_differs (camera_id cached) (Some c));
        [|intros [= <-]; exact E].
      destruct (fst (__init__ env (Some c) w)) as [h1|e]; rewrite Hc.
      + intros [= <-]. reflexivity.
      + discriminate.
    - destruct (fst (__init__ env cam w)) as [h1|e]; rewrite Hc.
      + intros [= <-]. reflexivity.
      + discriminate. }
  destruct Hreg as [Hreg Hcam]. unfold get_hardware_identity.
  rewrite Hreg. split; [|reflexivity].
  destruct cam as [c|]; [|reflexivity].
  rewrite (Hcam c eq_refl).
  replace (camera_id_differs (Some c) (Some c)) with false; [reflexivity|].
  simpl. now rewrite str_eqb_refl.
Qed.

Lemma registry_is_idempotent_witness :
  fst (get_hardware_identity default_env None
         (snd (get_hardware_identity default_env (Some (lit "abc123"))
                 example_world)))
  = Ok example_identity.
Proof.
  destruct (registry_is_idempotent default_env (Some (lit "abc123"))
              example_world example_identity) as [_ H].
  - vm_compute. reflexivity.
  - cbv zeta in H. rewrite H. reflexivity.
Defined.

(** ** The exported key *)

Lemma Z_of_byte_of_Z (z : Z) : (0 <= z < 256)%Z -> Z_of_byte (byte_of_Z z) = z.
Proof.
  intros H. unfold Z_of_byte, byte_of_Z, byte_of_N.
  destruct (Byte.of_N (Z.to_N z)) as [b|] eqn:E.
  - apply Byte.to_of_N in E. rewrite E. lia.
  - exfalso. pose proof (Byte.to_of_N_option_map (Z.to_N z)) as H1.
    rewrite E in H1. simpl in H1.
    destruct (Z.to_N z <=? 255)%N eqn:L; [discriminate|].
    apply N.leb_gt in L. lia.
Qed.

(** Reading back an integer written on [n] bytes gives the integer, when
    it fits. *)
Lemma to_Z_of_Z (n : nat) (z : Z) :
  (0 <= z < 256 ^ Z.of_nat n)%Z -> BigEndian.to_Z (BigEndian.of_Z n z) = z.
Proof.
  revert z. induction n as [|n IH]; intros z Hz.
  - simpl in *. cbn. lia.
  - cbn [BigEndian.of_Z]. rewrite to_Z_snoc.
    rewrite Nat2Z.inj_succ, Z.pow_succ_r in Hz by lia.
    rewrite IH, Z_of_byte_of_Z.
    + pose proof (Z.div_mod z 256). lia.
    + apply Z.mod_pos_bound. lia.
    + split; [apply Z.div_pos; lia|].
      apply Z.div_lt_upper_bound; lia.
Qed.

Lemma derive_key_range (hw s : bytes) (sk : ecdsa.SigningKey)
      (vk : ecdsa.VerifyingKey) :
  _derive_key hw s = Ok (sk, vk) ->
  (1 <= ecdsa.secexp sk < ecdsa.order)%Z /\ vk = ecdsa.get_verifying_key sk.
Proof.
  unfold _derive_key, ecdsa.from_string.
  destruct (negb _); [discriminate|].
  destruct ((1 <=? _)%Z && _)%bool eqn:R; cbn [rbind]; [|discriminate].
  intros [= <- <-]. cbn [ecdsa.secexp]. split; [|reflexivity].
  apply andb_true_iff in R as [R1 R2].
  apply Z.leb_le in R1. apply Z.ltb_lt in R2. lia.
Qed.

(** A private scalar in range is recovered from its hex text. *)
Lemma private_key_hex_round_trip (sk : ecdsa.SigningKey) :
  (1 <= ecdsa.secexp sk < ecdsa.order)%Z ->
  rbind (pystr.fromhex
           (pystr.remove_0x
              (lit "0x" ++ pystr.hex (ecdsa.sk_to_string sk))))
        ecdsa.from_string
  = Ok sk.
Proof.
  intros Hr. rewrite remove_0x_prefixed, remove_0x_digits by apply hex_digits.
  rewrite fromhex_hex. cbn [rbind].
  unfold ecdsa.from_string, ecdsa.sk_to_string.
  rewrite length_of_Z. cbn [negb Nat.eqb ecdsa.baselen].
  rewrite to_Z_of_Z.
  - replace ((1 <=? ecdsa.secexp sk)%Z && (ecdsa.secexp sk <? ecdsa.order)%Z)
      with true
      by (symmetry; apply andb_true_iff; rewrite Z.leb_le, Z.ltb_lt; lia).
    destruct sk. reflexivity.
  - change ecdsa.baselen with 32.
    assert (ecdsa.order < 256 ^ Z.of_nat 32)%Z by reflexivity. lia.
Qed.

(** Property X11.  The export of the key is lossless.  For every identity
    obtained from the constructor or from the registry, the dictionary of
    [export_key.py] is built without error; its [privateKey] has 66
    characters, from which
    [SigningKey.from_string(bytes.fromhex(privateKey.replace('0x', '')))]
    gives back the private key of the identity; [publicKey] is the hex
    text of the public key of that private key, and [address] and
    [cameraId] are those of the identity. *)
Theorem exported_key_round_trip (env : Env) (h : HardwareIdentity) :
  obtainable env h ->
  exists data sk,
    export_data_of h = Ok data /\
    private_key h = Some sk /\
    length (privateKey data) = 66 /\
    rbind (pystr.fromhex (pystr.remove_0x (privateKey data)))
          ecdsa.from_string = Ok sk /\
    public_key h = Some (ecdsa.get_verifying_key sk) /\
    publicKey data
    = Some (pystr.hex (ecdsa.vk_to_string (ecdsa.get_verifying_key sk))) /\
    export_address data = address h /\
    cameraId data = camera_id h.
Proof.
  revert h. apply obtainable_from_init. intros cam w h Hi.
  destruct (init_stages env cam w h Hi)
    as (s & wa & hw & sk & vk & out & _ & _ & _ & Hd & -> & _).
  destruct (derive_key_range hw s sk vk Hd) as [Hr ->].
  eexists. exists sk.
  unfold export_data_of, get_public_key_hex, get_address, get_camera_id.
  cbn [private_key public_key initialized address camera_id built_identity
       negb rbind].
  split; [reflexivity|]. split; [reflexivity|].
  cbn [privateKey publicKey export_address cameraId].
  split.
  { rewrite length_app, hex_length. unfold ecdsa.sk_to_string.
    now rewrite length_of_Z. }
  split; [exact (private_key_hex_round_trip sk Hr)|].
  split; [reflexivity|]. split; [reflexivity|]. split; reflexivity.
Qed.

Lemma exported_key_round_trip_witness :
  exists data,
    export_data_of example_identity = Ok data /\
    length (privateKey data) = 66.
Proof.
  destruct (exported_key_round_trip default_env example_identity)
    as (data & sk & H & _ & L & _).
  - apply (from_constructor default_env (Some (lit "abc123")) example_world).
    vm_compute. reflexivity.
  - exists data. split; assumption.
Defined.

(** Property X12.  The address of every identity obtained from the
    constructor or from the registry is [0x] followed by the 40
    hexadecimal digits of 20 bytes: 42 characters, with either hash. *)
Theorem address_has_42_characters (env : Env) (h : HardwareIdentity) :
  obtainable env h ->
  exists digest20,
    length digest20 = 20 /\
    address h = Some (lit "0x" ++ pystr.hex digest20) /\
    length (lit "0x" ++ pystr.hex digest20) = 42 /\
    forallb is_hex_digit (pystr.hex digest20) = true.
Proof.
  revert h. apply obtainable_from_init. intros cam w h Hi.
  destruct (init_stages env cam w h Hi)
    as (s & wa & hw & sk & vk & out & _ & _ & _ & _ & -> & _).
  cbn [address built_identity].
  eexists. split; [|split; [reflexivity|]].
  - destruct (KECCAK_AVAILABLE env).
    + apply last_bytes_length. rewrite keccak_256_length. lia.
    + apply firstn_length_le. rewrite sha256_length. lia.
  - split; [|apply hex_digits].
    rewrite length_app, hex_length.
    destruct (KECCAK_AVAILABLE env).
    + rewrite last_bytes_length by (rewrite keccak_256_length; lia).
      reflexivity.
    + rewrite firstn_length_le by (rewrite sha256_length; lia).
      reflexivity.
Qed.

Lemma address_has_42_characters_witness :
  exists digest20,
    length digest20 = 20 /\
    address example_identity = Some (lit "0x" ++ pystr.hex digest20).
Proof.
  destruct (address_has_42_characters default_env example_identity)
    as (d & L & A & _).
  - apply (from_constructor default_env (Some (lit "abc123")) example_world).
    vm_compute. reflexivity.
  - exists d. split; assumption.
Defined.

(** ** Signing and verification: formats and frames *)

(** Property X13.  On well-formed arguments [verify_signature] answers.
    For a Ready identity, data that can be encoded (bytes, or a string
    without surrogates) and a signature given as bytes or as hexadecimal
    text with an optional [0x], the call gives the answer it gives for the
    encoded data and the decoded signature, and this is [True] or
    [False], never an exception. *)
Theorem verify_signature_answers
        (self : HardwareIdentity) (data signature : pyarg) (d sg : bytes) :
  ready self ->
  as_bytes data = Ok d ->
  denotes_hash signature sg ->
  verify_signature self data signature
  = verify_signature self (PyBytes d) (PyBytes sg) /\
  exists answer, verify_signature self data signature = Ok answer.
Proof.
  intros (Hi & _) Hd Hs. unfold verify_signature. rewrite Hi. cbn [negb].
  rewrite Hd, (denotes_hash_normalized signature sg Hs). cbn.
  split; [reflexivity|].
  destruct (match public_key self with
            | Some vk => ecdsa.verify vk sg d
            | None => Raise AttributeError
            end); eexists; reflexivity.
Qed.

Lemma verify_signature_answers_witness :
  exists answer,
    verify_signature example_identity (PyStr (lit "test"))
                     (PyStr (lit "0xabcd")) = Ok answer.
Proof.
  apply (verify_signature_answers example_identity (PyStr (lit "test"))
           (PyStr (lit "0xabcd")) (ascii_bytes "test") [xab; xcd]).
  - exact example_identity_ready.
  - reflexivity.
  - right. exists (lit "abcd"). split; [now right|]. split; reflexivity.
Defined.

(** Property X14.  A signature of the wrong size or out of range is
    rejected, not raised.  For a Ready identity and any data,
    [verify_signature] returns [False] for a signature that does not have
    64 bytes, or whose first or second half, read as a big-endian integer,
    is 0 or not below the order of the curve. *)
Theorem malformed_signature_is_rejected
        (self : HardwareIdentity) (data sg : bytes) :
  ready self ->
  length sg <> 64 \/
  (BigEndian.to_Z (firstn 32 sg) < 1)%Z \/
  (ecdsa.order <= BigEndian.to_Z (firstn 32 sg))%Z \/
  (BigEndian.to_Z (skipn 32 sg) < 1)%Z \/
  (ecdsa.order <= BigEndian.to_Z (skipn 32 sg))%Z ->
  verify_signature self (PyBytes data) (PyBytes sg) = Ok false.
Proof.
  intros (Hi & _ & _ & Hk & _) H. unfold verify_signature.
  rewrite Hi. cbn [negb as_bytes hex_as_bytes rbind].
  destruct (public_key self) as [vk|]; [|congruence].
  unfold ecdsa.verify. change (2 * ecdsa.baselen) with 64.
  change ecdsa.baselen with 32.
  destruct (length sg =? 64) eqn:L; cbn [negb]; [|reflexivity].
  apply Nat.eqb_eq in L. destruct H as [H | H]; [contradiction|].
  unfold ecdsa.verifies.
  set (r := BigEndian.to_Z (firstn 32 sg)) in *.
  set (s := BigEndian.to_Z (skipn 32 sg)) in *.
  destruct ((r <? 1)%Z || (ecdsa.order - 1 <? r)%Z) eqn:R; [reflexivity|].
  destruct ((s <? 1)%Z || (ecdsa.order - 1 <? s)%Z) eqn:S; [reflexivity|].
  exfalso. apply orb_false_iff in R as [R1 R2], S as [S1 S2].
  apply Z.ltb_ge in R1, R2, S1, S2. lia.
Qed.

Lemma malformed_signature_is_rejected_witness :
  verify_signature example_identity (PyBytes (ascii_bytes "test"))
                   (PyBytes (repeat x00 64)) = Ok false.
Proof.
  apply malformed_signature_is_rejected.
  - exact example_identity_ready.
  - right; left. vm_compute. reflexivity.
Defined.

Lemma sign_length (sk : ecdsa.SigningKey) (data : bytes) (k : Z) (sg : bytes) :
  ecdsa.sign sk data k = Ok sg -> length sg = 64.
Proof.
  unfold ecdsa.sign. cbv zeta.
  destruct (ecdsa.mul _ _) as [|x y]; [discriminate|].
  destruct (x mod ecdsa.order =? 0)%Z; [discriminate|].
  match goal with |- context [if ?c then _ else _] => destruct c end;
    [discriminate|].
  intros H.
  apply (f_equal (fun r => match r with Ok b => length b | Raise _ => 64 end))
    in H.
  cbv beta iota in H. rewrite <- H, length_app, !length_of_Z. reflexivity.
Qed.

Lemma sign_with_length (self : HardwareIdentity) (data : bytes) (w : world)
      (sg : bytes) :
  fst (sign_with self data w) = Ok sg -> length sg = 64.
Proof.
  unfold sign_with. destruct (private_key self) as [sk|]; [|discriminate].
  unfold bind, draw_nonce, lift. cbn [fst]. apply sign_length.
Qed.

(** Property X15.  Signatures have a fixed size: whatever the identity and
    the input, a signature that [sign_data] returns has 64 bytes, and the
    [signature] of a record that [sign_hash] returns is 128 hexadecimal
    digits. *)
Theorem signatures_have_fixed_size
        (env : Env) (self : HardwareIdentity) (data : pyarg) (w : world) :
  (forall sg, fst (sign_data self data w) = Ok sg -> length sg = 64) /\
  (forall r, fst (sign_hash env self data w) = Ok r ->
             length (rec_signature r) = 128 /\
             forallb is_hex_digit (rec_signature r) = true).
Proof.
  split.
  - intros sg. unfold sign_data.
    destruct (negb (initialized self)); [discriminate|].
    unfold bind, lift. destruct (as_bytes data) as [b|e]; [|discriminate].
    apply sign_with_length.
  - intros r. unfold sign_hash.
    destruct (negb (initialized self)); [discriminate|].
    unfold bind, lift, path_exists, ret.
    destruct (hex_as_bytes data) as [b|e]; [|discriminate].
    pose proof (sign_with_length self b w) as Hl.
    destruct (sign_with self b w) as [[sg|e] w1]; [|discriminate].
    cbn. intros [= <-]. cbn [rec_signature].
    rewrite hex_length, (Hl sg eq_refl). split; [reflexivity|].
    apply hex_digits.
Qed.

Lemma signatures_have_fixed_size_witness :
  exists sg,
    fst (sign_data example_identity (PyBytes (ascii_bytes "test"))
                   example_world) = Ok sg /\
    length sg = 64.
Proof.
  destruct (fst (sign_data example_identity (PyBytes (ascii_bytes "test"))
                           example_world)) as [sg|e] eqn:E.
  - exists sg. split; [reflexivity|].
    exact (proj1 (signatures_have_fixed_size default_env example_identity
                    (PyBytes (ascii_bytes "test")) example_world) sg E).
  - exfalso. revert E. vm_compute. discriminate.
Defined.

(** The steps of signing in the world: none, or one nonce. *)
Lemma signing_steps
      (env : Env) (self : HardwareIdentity) (data : pyarg) (w : world) :
  (snd (sign_data self data w) = w \/
   snd (sign_data self data w) = set_nonce_pos (S (nonce_pos w)) w) /\
  (snd (sign_hash env self data w) = w \/
   snd (sign_hash env self data w) = set_nonce_pos (S (nonce_pos w)) w).
Proof.
  split.
  - unfold sign_data. destruct (negb (initialized self)); [now left|].
    unfold bind, lift, sign_with.
    destruct (as_bytes data) as [b|e]; [|now left].
    destruct (private_key self) as [sk|]; [|now left].
    unfold bind, draw_nonce, lift.
    destruct (ecdsa.sign _ _ _); now right.
  - unfold sign_hash. destruct (negb (initialized self)); [now left|].
    unfold bind, lift, sign_with, path_exists, ret.
    destruct (hex_as_bytes data) as [b|e]; [|now left].
    destruct (private_key self) as [sk|]; [|now left].
    unfold bind, draw_nonce, lift.
    destruct (ecdsa.sign _ _ _); now right.
Qed.

(** Property X16.  Signing writes no file and prints nothing: whatever the
    identity and the input, and whether they return or raise, [sign_data]
    and [sign_hash] leave every file, standard output and the registry as
    they are. *)
Theorem signing_writes_and_prints_nothing
        (env : Env) (self : HardwareIdentity) (data : pyarg) (w : world) :
  (files (snd (sign_data self data w)) = files w /\
   stdout (snd (sign_data self data w)) = stdout w /\
   _hardware_identity (snd (sign_data self data w)) = _hardware_identity w)
  /\
  (files (snd (sign_hash env self data w)) = files w /\
   stdout (snd (sign_hash env self data w)) = stdout w /\
   _hardware_identity (snd (sign_hash env self data w))
   = _hardware_identity w).
Proof.
  destruct (signing_steps env self data w) as [[-> | ->] [-> | ->]];
    (split; (split; [reflexivity | split; reflexivity])).
Qed.

(** Property X18.  [sign_hash] signs like [sign_data].  When [sign_hash]
    returns a record for an input that denotes the bytes [h], [sign_data]
    on [h] in the same world returns a signature whose hex text is the
    [signature] of the record; and [verify_signature] takes that text for
    that signature, with any data. *)
Theorem sign_hash_signs_like_sign_data
        (env : Env) (self : HardwareIdentity) (input : pyarg) (h : bytes)
        (w : world) (r : SignatureRecord) :
  denotes_hash input h ->
  fst (sign_hash env self input w) = Ok r ->
  exists sg,
    fst (sign_data self (PyBytes h) w) = Ok sg /\
    rec_signature r = pystr.hex sg /\
    forall data,
      verify_signature self data (PyStr (rec_signature r))
      = verify_signature self data (PyBytes sg).
Proof.
  intros Hd. unfold sign_hash, sign_data.
  destruct (negb (initialized self)); [discriminate|].
  unfold bind, lift, ret, path_exists.
  rewrite (denotes_hash_normalized input h Hd). cbn [as_bytes].
  destruct (sign_with self h w) as [[sg|e] w1]; [|discriminate].
  cbn [fst]. intros [= <-]. exists sg. cbn [rec_signature].
  split; [reflexivity|]. split; [reflexivity|].
  intros data. unfold verify_signature, hex_as_bytes.
  now rewrite (remove_0x_digits _ (hex_digits sg)), fromhex_hex.
Qed.

Lemma sign_hash_signs_like_sign_data_witness :
  exists sg,
    fst (sign_data example_identity (PyBytes test_hash) example_world)
    = Ok sg /\
    rec_signature example_record = pystr.hex sg.
Proof.
  destruct (sign_hash_signs_like_sign_data default_env example_identity
              (PyBytes test_hash) test_hash example_world example_record)
    as (sg & H1 & H2 & _).
  - left. reflexivity.
  - vm_compute. reflexivity.
  - exists sg. split; assumption.
Defined.

(** ** [get_hardware_info] *)

(** Property X17.  [get_hardware_info] on a Ready identity returns without
    any effect a dictionary that says [initialized], carries the camera id
    of the identity and a public key, and agrees with the record of every
    [sign_hash] in the same world on the address and on the salt path. *)
Theorem hardware_info_agrees_with_sign_hash
        (env : Env) (self : HardwareIdentity) (w : world) :
  ready self ->
  exists info,
    get_hardware_info env self w = (Ok info, w) /\
    info_initialized info = true /\
    info_camera_id info = camera_id self /\
    info_public_key_hex info <> None /\
    forall input r,
      fst (sign_hash env self input w) = Ok r ->
      rec_address r = info_address info /\
      rec_salt_path r = info_salt_path info.
Proof.
  intros (Hi & _ & _ & Hk & _).
  destruct (public_key self) as [vk|] eqn:Evk; [|congruence].
  unfold get_hardware_info, get_public_key_hex. rewrite Hi, Evk.
  cbn [negb]. run. eexists. split; [reflexivity|].
  cbn [info_initialized info_camera_id info_public_key_hex info_address
       info_salt_path].
  split; [reflexivity|]. split; [reflexivity|]. split; [discriminate|].
  intros input r. unfold sign_hash. rewrite Hi. cbn [negb].
  unfold bind, lift, ret, path_exists.
  destruct (hex_as_bytes input) as [b|e]; [|discriminate].
  destruct (sign_with self b w) as [[sg|e] w1] eqn:Es; [|discriminate].
  cbn [fst]. intros [= <-]. cbn [rec_address rec_salt_path].
  split; [reflexivity|].
  assert (files w1 = files w) as ->; [|reflexivity].
  revert Es. unfold sign_with.
  destruct (private_key self); [|now intros [= _ <-]].
  unfold bind, draw_nonce, lift.
  destruct (ecdsa.sign _ _ _); intros E;
    apply (f_equal snd) in E; cbn [snd] in E; now rewrite <- E.
Qed.

Lemma hardware_info_agrees_with_sign_hash_witness :
  exists info,
    get_hardware_info default_env example_identity example_world
    = (Ok info, example_world) /\
    info_initialized info = true.
Proof.
  destruct (hardware_info_agrees_with_sign_hash default_env example_identity
              example_world example_identity_ready) as (info & H & I & _).
  exists info. split; assumption.
Defined.

(** ** The script [export_key.py] *)

Lemma writes_salt_only_prints {A} (env : Env) (m : M A) :
  only_prints m -> writes_salt_only env m.
Proof. intros H w path _ _. destruct (H w) as [out ->]. reflexivity. Qed.

Lemma writes_salt_only_bind {A B} (env : Env) (m : M A) (k : A -> M B) :
  writes_salt_only env m -> (forall a, writes_salt_only env (k a)) ->
  writes_salt_only env (bind m k).
Proof.
  intros Hm Hk w path H1 H2. unfold bind. pose proof (Hm w path H1 H2) as E.
  destruct (m w) as [[a|e] w1]; cbn [snd] in *; [|exact E].
  now rewrite (Hk a w1 path H1 H2).
Qed.

Lemma writes_salt_only_try_except {A} (env : Env) (m : M A)
      (catches : exn -> bool) (handler : exn -> M A) :
  writes_salt_only env m -> (forall e, writes_salt_only env (handler e)) ->
  writes_salt_only env (try_except m catches handler).
Proof.
  intros Hm Hh w path H1 H2. unfold try_except.
  pose proof (Hm w path H1 H2) as E.
  destruct (m w) as [[a|e] w1]; cbn [snd] in *; [exact E|].
  destruct (catches e); [|exact E].
  now rewrite (Hh e w1 path H1 H2).
Qed.

Lemma writes_salt_only_salt (env : Env) :
  writes_salt_only env (_get_or_create_salt env).
Proof.
  intros w path H1 H2.
  assert (N1 : str_eqb path (SALT_PATH env) = false).
  { destruct (str_eqb path (SALT_PATH env)) eqn:E; [|reflexivity].
    apply str_eqb_eq in E. contradiction. }
  assert (N2 : str_eqb path (SALT_BACKUP_PATH env) = false).
  { destruct (str_eqb path (SALT_BACKUP_PATH env)) eqn:E; [|reflexivity].
    apply str_eqb_eq in E. contradiction. }
  unfold _get_or_create_salt, try_primary, try_backup, create_salt; run.
  branches; solve [reflexivity | congruence].
Qed.

Lemma writes_salt_only_init (env : Env) (cam : option str) :
  writes_salt_only env (__init__ env cam).
Proof.
  unfold __init__. destruct (negb (ECDSA_AVAILABLE env)).
  { apply writes_salt_only_prints, only_prints_raise. }
  unfold _initialize. apply writes_salt_only_try_except.
  - apply writes_salt_only_bind; [apply writes_salt_only_salt | intros s].
    apply writes_salt_only_prints.
    apply only_prints_bind; [apply only_prints_get_hardware_id | intros hw].
    apply only_prints_bind; [apply only_prints_lift | intros keys].
    apply only_prints_bind; [apply only_prints_get_address | intros addr].
    auto with frame.
  - intros e. apply writes_salt_only_prints. auto with frame.
Qed.


(** What the registry returns is what it holds afterwards; it is Ready
    when the cached instance, if any, was. *)
Lemma registry_result (env : Env) (cam : option str) (w w1 : world)
      (h : HardwareIdentity) :
  (forall h0, _hardware_identity w = Some h0 -> ready h0) ->
  get_hardware_identity env cam w = (Ok h, w1) ->
  _hardware_identity w1 = Some h /\ ready h.
Proof.
  intros Hinv. unfold get_hardware_identity.
  pose proof (registry_after_construct env cam w) as Hc.
  pose proof (init_ready env cam w) as Hr.
  assert (Hn : construct_and_cache env cam w = (Ok h, w1) ->
               _hardware_identity w1 = Some h /\ ready h).
  { destruct (fst (__init__ env cam w)) as [h1|e]; rewrite Hc.
    - intros [= <- <-]. split; [reflexivity | now apply Hr].
    - discriminate. }
  destruct (_hardware_identity w) as [cached|] eqn:E; [|exact Hn].
  destruct cam as [c|].
  - destruct (camera_id_differs _ _); [exact Hn|].
    intros [= <- <-]. split; [exact E | now apply Hinv].
  - intros [= <- <-]. split; [exact E | now apply Hinv].
Qed.

Lemma registry_fresh (env : Env) (cam : option str) (w : world) :
  _hardware_identity w = None ->
  get_hardware_identity env cam w = construct_and_cache env cam w.
Proof. intros H. unfold get_hardware_identity. now rewrite H. Qed.

Lemma construct_camera_id (env : Env) (cam : option str) (w w1 : world)
      (h : HardwareIdentity) :
  construct_and_cache env cam w = (Ok h, w1) -> camera_id h = cam.
Proof.
  pose proof (registry_after_construct env cam w) as Hc.
  pose proof (init_ready env cam w) as Hr.
  destruct (fst (__init__ env cam w)) as [h1|e]; rewrite Hc.
  - intros [= <- _]. now apply Hr.
  - discriminate.
Qed.

Lemma export_data_of_ready (h : HardwareIdentity) :
  ready h ->
  exists data,
    export_data_of h = Ok data /\
    export_address data = address h /\ cameraId data = camera_id h.
Proof.
  intros (Hi & _ & Hk & Hp & _). unfold export_data_of, get_public_key_hex.
  destruct (private_key h); [|congruence]. rewrite Hi. cbn [negb].
  destruct (public_key h); [|congruence]. cbn [rbind].
  eexists. split; [reflexivity|]. split; reflexivity.
Qed.

(** What [export] has done when it returns. *)
Lemma export_returns (env : Env) (json_dump : ExportData -> bytes)
      (export_file : str) (cam : option str) (w w2 : world)
      (data : ExportData) :
  (forall h0, _hardware_identity w = Some h0 -> ready h0) ->
  export env json_dump export_file cam w = (Ok data, w2) ->
  exists h w1,
    get_hardware_identity env cam w = (Ok h, w1) /\
    _hardware_identity w2 = Some h /\ ready h /\
    export_data_of h = Ok data /\
    files w2 export_file = Some (json_dump data).
Proof.
  intros Hinv. unfold export, bind, lift, write_binary, ret.
  destruct (get_hardware_identity env cam w) as [[h|e] w1] eqn:G;
    [|discriminate].
  destruct (registry_result env cam w w1 h Hinv G) as [Hreg Hr].
  destruct (export_data_of h) as [d|e] eqn:D; [|discriminate].
  destruct (write_fault w1 export_file);
    [destruct (write_progress w1 export_file); discriminate|].
  intros [= <- <-]. exists h, w1. cbn [_hardware_identity files set_files].
  rewrite str_eqb_refl. split; [reflexivity|]. split; [exact Hreg|].
  split; [exact Hr|]. split; [exact D | reflexivity].
Qed.






(** The camera id that the script settles on in a new process. *)
Lemma existing_camera_id_fresh (env : Env) (cam0 : option str) (w : world) :
  _hardware_identity w = None ->
  exists cam1 w1,
    existing_camera_id env cam0 w = (Ok (cam1, []), w1) /\
    (forall path,
        path <> SALT_PATH env -> path <> SALT_BACKUP_PATH env ->
        files w1 path = files w path) /\
    ((truthy cam0 = true /\ cam1 = cam0 /\ w1 = w) \/
     (truthy cam0 = false /\ cam1 = None /\
      exists h0, _hardware_identity w1 = Some h0 /\ ready h0 /\
                 camera_id h0 = None) \/
     (truthy cam0 = false /\ cam1 = cam0 /\ _hardware_identity w1 = None)).
Proof.
  intros Hf. unfold existing_camera_id.
  destruct (truthy cam0) eqn:T; cbn [negb].
  { exists cam0, w. split; [reflexivity|]. split; [reflexivity|].
    left. repeat split. }
  unfold try_except, bind, ret. rewrite (registry_fresh env None w Hf).
  pose proof (registry_after_construct env None w) as Hc.
  pose proof (init_ready env None w) as Hr.
  pose proof (keeps_init env None w) as Hk.
  pose proof (writes_salt_only_init env None w) as Hw.
  destruct (fst (__init__ env None w)) as [h0|e]; rewrite Hc.
  - destruct (Hr h0 eq_refl) as [Hready Hcam].
    unfold get_camera_id. rewrite Hcam.
    eexists _, _. split; [reflexivity|]. split; [exact Hw|].
    right; left. split; [reflexivity|]. split; [reflexivity|].
    exists h0. split; [reflexivity|]. split; [exact Hready | exact Hcam].
  - cbn [any_exception].
    eexists _, _. split; [reflexivity|]. split; [exact Hw|].
    right; right. split; [reflexivity|]. split; [reflexivity|].
    now rewrite Hk.
Qed.

(** Property X19.  In a new process, a run of [export_key.py] that ends
    with status 0 has exported the identity that the registry holds: that
    identity is Ready, the export file holds the JSON text of its export
    dictionary, and the script has printed the file name, the address and
    the camera id of that identity, and nothing on standard error.  The
    camera id of the identity is the first command-line argument, or else
    the variable [CAMERA_ID], when that is a non-empty string; otherwise
    it is [None] or empty. *)
Theorem export_key_exports_the_registered_identity
        (env : Env) (json_dump : ExportData -> bytes) (export_file : str)
        (argv : list str) (environ_CAMERA_ID : option str) (w : world) :
  _hardware_identity w = None ->
  exit_status
    (fst (export_key env json_dump export_file argv environ_CAMERA_ID w))
  = 0%Z ->
  exists h data,
    _hardware_identity
      (snd (export_key env json_dump export_file argv environ_CAMERA_ID w))
    = Some h /\
    ready h /\
    export_data_of h = Ok data /\
    files
      (snd (export_key env json_dump export_file argv environ_CAMERA_ID w))
      export_file
    = Some (json_dump data) /\
    fst (export_key env json_dump export_file argv environ_CAMERA_ID w)
    = {| exit_status := 0;
         stderr := [];
         printed := [KeyExported export_file;
                     ExportedAddress (address h);
                     ExportedCameraId (camera_id h)] |} /\
    (if truthy (argument_camera_id argv environ_CAMERA_ID)
     then camera_id h = argument_camera_id argv environ_CAMERA_ID
     else truthy (camera_id h) = false).
Proof.
  intros Hf. unfold export_key.
  set (cam0 := argument_camera_id argv environ_CAMERA_ID).
  destruct (existing_camera_id_fresh env cam0 w Hf)
    as (cam1 & w1 & -> & _ & Hcase).
  destruct (export env json_dump export_file cam1 w1) as [[data|e] w2] eqn:E;
    cbn [fst snd exit_status]; [intros _ | discriminate].
  assert (Hinv : forall h0, _hardware_identity w1 = Some h0 -> ready h0).
  { destruct Hcase as [(_ & _ & ->) | [(_ & _ & h0 & H0 & Hr & _)
                                      | (_ & _ & H0)]];
      intros h1 H1; congruence. }
  destruct (export_returns env json_dump export_file cam1 w1 w2 data Hinv E)
    as (h & w1' & G & Hreg & Hr & Hd & Hfile).
  destruct (export_data_of_ready h Hr) as (data' & Hd' & Ha & Hc).
  assert (data' = data) as -> by congruence.
  exists h, data. split; [exact Hreg|]. split; [exact Hr|].
  split; [exact Hd|]. split; [exact Hfile|].
  split; [now rewrite Ha, Hc|].
  destruct Hcase as [(T & -> & ->) | [(T & -> & h0 & H0 & _ & Hc0)
                                     | (T & -> & H0)]]; rewrite T.
  - destruct cam0 as [c|]; [|discriminate].
    apply (registry_camera_id env c w). now rewrite G.
  - unfold get_hardware_identity in G. rewrite H0 in G.
    injection G as <- _. now rewrite Hc0.
  - rewrite (registry_fresh env cam0 w1 H0) in G.
    now rewrite (construct_camera_id env cam0 w1 w1' h G).
Qed.

Lemma export_key_exports_the_registered_identity_witness :
  exists data,
    export_data_of example_identity = Ok data /\
    files
      (snd (export_key default_env example_json_dump example_export_file
              [lit "export_key.py"; lit "abc123"] None example_world))
      example_export_file
    = Some (example_json_dump data).
Proof.
  destruct (export_key_exports_the_registered_identity default_env
              example_json_dump example_export_file
              [lit "export_key.py"; lit "abc123"] None example_world)
    as (h & data & Hreg & _ & Hd & Hfile & _).
  - reflexivity.
  - vm_compute. reflexivity.
  - assert (h = example_identity) as ->.
    { assert (Some h = Some example_identity) as [= ->];
        [|reflexivity].
      rewrite <- Hreg. vm_compute. reflexivity. }
    exists data. split; assumption.
Defined.



(** ** The application: [_export_device_key] *)

(** Property X21.  The application and the script export the same
    dictionary.  For every identity, the dictionary that
    [_export_device_key] builds from [get_hardware_info] is the dictionary
    of [export_key.py], or the same exception, and building it has no
    effect; so when that dictionary exists and the file can be written,
    [_export_device_key] leaves its JSON text in the export file, and when
    it does not exist the application changes nothing. *)
Theorem application_exports_like_the_script
        (env : Env) (json_dump : ExportData -> bytes) (export_file : str)
        (h : HardwareIdentity) (w : world) :
  device_key_data env h w = (export_data_of h, w) /\
  (forall data,
      export_data_of h = Ok data ->
      write_fault w export_file = None ->
      files (snd (_export_device_key env json_dump export_file (Some h) w))
            export_file
      = Some (json_dump data)) /\
  (forall e,
      export_data_of h = Raise e ->
      _export_device_key env json_dump export_file (Some h) w
      = ([DeviceKeyExportFailed e], w)).
Proof.
  assert (Hd : device_key_data env h w = (export_data_of h, w)).
  { unfold device_key_data, get_hardware_info, export_data_of, get_address,
      get_camera_id, get_public_key_hex; run.
    destruct (negb (initialized h)), (private_key h), (public_key h);
      reflexivity. }
  split; [exact Hd|]. split.
  - intros data Hok Hw. unfold _export_device_key, bind, write_binary, ret.
    rewrite Hd, Hok, Hw. cbn [snd files set_files].
    now rewrite str_eqb_refl.
  - intros e He. unfold _export_device_key, bind. now rewrite Hd, He.
Qed.

Lemma application_exports_like_the_script_witness :
  exists data,
    export_data_of example_identity = Ok data /\
    files (snd (_export_device_key default_env example_json_dump
                  example_export_file (Some example_identity)
                  example_world))
          example_export_file
    = Some (example_json_dump data).
Proof.
  destruct (export_data_of example_identity) as [data|e] eqn:E;
    [|discriminate].
  exists data. split; [reflexivity|].
  apply (application_exports_like_the_script default_env example_json_dump
           example_export_file example_identity example_world);
    [exact E | reflexivity].
Defined.

(** ** Lenient inputs *)

Lemma remove_0x_inside (a b : str) :
  forallb is_hex_digit a = true ->
  pystr.remove_0x (a ++ lit "0x" ++ b) = a ++ pystr.remove_0x b.
Proof.
  induction a as [|c a IH]; intros H; [reflexivity|].
  simpl in H. apply andb_true_iff in H as [_ Ha].
  destruct a as [|d a].
  - change (pystr.remove_0x ([c] ++ lit "0x" ++ b))
      with (if ((c =? 48)%N && (48 =? 120)%N)%bool
            then pystr.remove_0x (120%N :: b)
            else c :: pystr.remove_0x (lit "0x" ++ b)).
    now rewrite andb_false_r, remove_0x_prefixed.
  - assert (Hd : (d =? 120)%N = false).
    { simpl in Ha. apply andb_true_iff in Ha as [Hd _].
      now apply hex_digit_not_x. }
    change (pystr.remove_0x ((c :: d :: a) ++ lit "0x" ++ b))
      with (if ((c =? 48)%N && (d =? 120)%N)%bool
            then pystr.remove_0x (a ++ lit "0x" ++ b)
            else c :: pystr.remove_0x ((d :: a) ++ lit "0x" ++ b)).
    rewrite Hd, andb_false_r, (IH Ha). reflexivity.
Qed.

(** Property X22.  The marker [0x] is dropped wherever it stands, not only
    in front: for hexadecimal digits [a] and [b], [sign_hash] treats the
    hash text [a0xb], and [verify_signature] the signature text [a0xb],
    exactly like the text [ab]. *)
Theorem hex_text_may_hold_0x_anywhere
        (env : Env) (self : HardwareIdentity) (a b : str) :
  forallb is_hex_digit a = true ->
  forallb is_hex_digit b = true ->
  (forall w,
      sign_hash env self (PyStr (a ++ lit "0x" ++ b)) w
      = sign_hash env self (PyStr (a ++ b)) w) /\
  (forall data,
      verify_signature self data (PyStr (a ++ lit "0x" ++ b))
      = verify_signature self data (PyStr (a ++ b))).
Proof.
  intros Ha Hb.
  assert (E : hex_as_bytes (PyStr (a ++ lit "0x" ++ b))
              = hex_as_bytes (PyStr (a ++ b))).
  { unfold hex_as_bytes.
    rewrite (remove_0x_inside a b Ha), (remove_0x_digits b Hb).
    rewrite remove_0x_digits; [reflexivity|].
    now rewrite forallb_app, Ha, Hb. }
  split.
  - intros w. unfold sign_hash. now rewrite E.
  - intros data. unfold verify_signature. now rewrite E.
Qed.

Lemma hex_text_may_hold_0x_anywhere_witness :
  verify_signature example_identity (PyBytes (ascii_bytes "test"))
                   (PyStr (lit "ab0xcd"))
  = verify_signature example_identity (PyBytes (ascii_bytes "test"))
                     (PyStr (lit "abcd")).
Proof.
  apply (hex_text_may_hold_0x_anywhere default_env example_identity
           (lit "ab") (lit "cd")); reflexivity.
Defined.

(** Property X23.  An empty camera id derives the keys of no camera id.
    When the construction without camera id returns an identity, the
    construction with the empty string as camera id, in the same world,
    returns an identity with the same salt, keys and address; only its
    [camera_id] is the empty string. *)
Theorem empty_camera_id_derives_the_same_keys
        (env : Env) (w : world) (h : HardwareIdentity) :
  fst (__init__ env None w) = Ok h ->
  exists h',
    fst (__init__ env (Some []) w) = Ok h' /\
    camera_id h' = Some [] /\
    salt h' = salt h /\
    private_key h' = private_key h /\
    public_key h' = public_key h /\
    address h' = address h.
Proof.
  intros Hi.
  destruct (init_stages env None w h Hi)
    as (s & wa & hw & sk & vk & out & He & Hs & Hhw & Hd & -> & _).
  exists (built_identity env (Some []) s sk vk).
  split; [|repeat split].
  exact (init_success env (Some []) w wa s hw sk vk He Hs Hhw Hd).
Qed.

Lemma empty_camera_id_derives_the_same_keys_witness :
  exists h',
    fst (__init__ default_env (Some []) example_world) = Ok h' /\
    camera_id h' = Some [].
Proof.
  destruct (empty_camera_id_derives_the_same_keys default_env example_world
              (constructed default_env None example_world))
    as (h' & H1 & H2 & _).
  - vm_compute. reflexivity.
  - exists h'. split; assumption.
Defined.

(** ** The application: [_sign_image] *)

(** What [sign_hash] has done on bytes when it returns. *)
Lemma sign_hash_bytes_returns (env : Env) (self : HardwareIdentity)
      (b : bytes) (w w1 : world) (r : SignatureRecord) :
  sign_hash env self (PyBytes b) w = (Ok r, w1) ->
  exists sg,
    fst (sign_data self (PyBytes b) w) = Ok sg /\
    rec_signature r = pystr.hex sg /\
    rec_address r = address self /\
    files w1 = files w /\ write_fault w1 = write_fault w.
Proof.
  unfold sign_hash, sign_data.
  destruct (negb (initialized self)); [discriminate|].
  unfold bind, lift, ret, path_exists. cbn [hex_as_bytes as_bytes].
  assert (F : files (snd (sign_with self b w)) = files w /\
              write_fault (snd (sign_with self b w)) = write_fault w).
  { unfold sign_with. destruct (private_key self); [|split; reflexivity].
    unfold bind, draw_nonce, lift.
    destruct (ecdsa.sign _ _ _); split; reflexivity. }
  destruct (sign_with self b w) as [[sg|e] w0]; [|discriminate].
  cbn [snd] in F. intros [= <- <-]. exists sg. cbn [fst rec_signature
                                                     rec_address].
  split; [reflexivity|]. split; [reflexivity|]. split; [reflexivity|].
  exact F.
Qed.

(** [sign_hash] leaves the files, and the progress of failing writes, as
    they are. *)
Lemma sign_hash_keeps_files (env : Env) (self : HardwareIdentity)
      (input : pyarg) (w : world) :
  files (snd (sign_hash env self input w)) = files w /\
  write_progress (snd (sign_hash env self input w)) = write_progress w.
Proof.
  unfold sign_hash. destruct (negb (initialized self)); [split; reflexivity|].
  unfold bind, lift, ret, path_exists, sign_with.
  destruct (hex_as_bytes input) as [b|e]; [|split; reflexivity].
  destruct (private_key self); [|split; reflexivity].
  unfold bind, draw_nonce, lift.
  destruct (ecdsa.sign _ _ _); split; reflexivity.
Qed.

(** Property X24.  [_sign_image] signs the SHA-256 digest of the image
    file.  When it returns a dictionary, the image file was readable; the
    [image_hash] is the hex text of the SHA-256 digest of its content; the
    [signature] is the hex text of the signature that [sign_data] gives
    for the digest bytes in the same world, under the address of the
    identity; the signature file holds the JSON text of the dictionary
    and its name was printed; and the image file is left as it was unless
    the signature file is that very file. *)
Theorem sign_image_signs_the_digest
        (env : Env) (json_dump : ImageSignature -> bytes)
        (now_isoformat : str) (with_suffix_sig_json : str -> result str)
        (h : HardwareIdentity) (path : str) (w : world)
        (info : ImageSignature) :
  fst (fst (_sign_image env json_dump now_isoformat with_suffix_sig_json
                        (Some h) path w)) = Some info ->
  exists image_data sg sig_path,
    files w path = Some image_data /\
    image_hash info = pystr.hex (hashlib.sha256 image_data) /\
    image_path info = path /\
    timestamp info = now_isoformat /\
    fst (sign_data h (PyBytes (hashlib.sha256 image_data)) w) = Ok sg /\
    rec_signature (signature_info info) = pystr.hex sg /\
    rec_address (signature_info info) = address h /\
    with_suffix_sig_json path = Ok sig_path /\
    files (snd (_sign_image env json_dump now_isoformat with_suffix_sig_json
                            (Some h) path w)) sig_path
    = Some (json_dump info) /\
    snd (fst (_sign_image env json_dump now_isoformat with_suffix_sig_json
                          (Some h) path w)) = [SignatureSaved sig_path] /\
    (sig_path <> path ->
     files (snd (_sign_image env json_dump now_isoformat
                             with_suffix_sig_json (Some h) path w)) path
     = Some image_data).
Proof.
  intros H.
  destruct (_sign_image env json_dump now_isoformat with_suffix_sig_json
                        (Some h) path w) as [[o ev] w2] eqn:E.
  cbn [fst snd] in *. subst o. revert E.
  unfold _sign_image, bind, read_binary, lift, write_binary, ret.
  destruct (read_fault w path); [discriminate|].
  destruct (files w path) as [image_data|] eqn:Ef; [|discriminate].
  destruct (sign_hash env h (PyBytes (hashlib.sha256 image_data)) w)
    as [[r|e] w1] eqn:Es; [|discriminate].
  destruct (sign_hash_bytes_returns env h _ w w1 r Es)
    as (sg & Hsg & Hr & Ha & Hf & _).
  destruct (with_suffix_sig_json path) as [sig_path|e]; [|discriminate].
  destruct (write_fault w1 sig_path);
    [destruct (write_progress w1 sig_path); discriminate|].
  intros [= <- <- <-].
  exists image_data, sg, sig_path. cbn [image_hash image_path timestamp
                                        signature_info files set_files].
  rewrite str_eqb_refl, Hf.
  split; [reflexivity|]. split; [reflexivity|]. split; [reflexivity|].
  split; [reflexivity|]. split; [exact Hsg|]. split; [exact Hr|].
  split; [exact Ha|]. split; [reflexivity|]. split; [reflexivity|].
  split; [reflexivity|].
  intros Hne. destruct (str_eqb path sig_path) eqn:E; [|exact Ef].
  apply str_eqb_eq in E. congruence.
Qed.

Lemma sign_image_signs_the_digest_witness :
  exists info,
    fst (fst (_sign_image default_env example_json_dump_signature
                          example_time example_sig_path
                          (Some example_identity) example_photo
                          photo_world)) = Some info /\
    image_hash info
    = pystr.hex (hashlib.sha256 (ascii_bytes "test image data")).
Proof.
  destruct (fst (fst (_sign_image default_env example_json_dump_signature
                                  example_time example_sig_path
                                  (Some example_identity) example_photo
                                  photo_world))) as [info|] eqn:E.
  - exists info. split; [reflexivity|].
    destruct (sign_image_signs_the_digest default_env
                example_json_dump_signature example_time example_sig_path
                example_identity example_photo photo_world info E)
      as (image_data & sg & sig_path & Hf & Hh & _).
    rewrite Hh. injection Hf as <-. reflexivity.
  - exfalso. revert E. vm_compute. discriminate.
Defined.

(** Property X25.  A failed [_sign_image] touches the signature file at
    most.  When [_sign_image] returns [None], it has printed nothing
    without a hardware identity, and with one the single line that reports
    the exception.  No file has changed, unless the signature file was
    opened before the write failed: then that file has been created or
    truncated and holds the beginning of the JSON text, and every other
    file is as it was. *)
Theorem failed_image_signing_touches_one_file
        (env : Env) (json_dump : ImageSignature -> bytes)
        (now_isoformat : str) (with_suffix_sig_json : str -> result str)
        (hardware_identity : option HardwareIdentity) (path : str)
        (w : world) :
  fst (fst (_sign_image env json_dump now_isoformat with_suffix_sig_json
                        hardware_identity path w)) = None ->
  match hardware_identity with
  | None =>
      snd (fst (_sign_image env json_dump now_isoformat with_suffix_sig_json
                            hardware_identity path w)) = []
  | Some _ =>
      exists e,
        snd (fst (_sign_image env json_dump now_isoformat
                              with_suffix_sig_json hardware_identity path w))
        = [SignImageFailed e]
  end /\
  (files (snd (_sign_image env json_dump now_isoformat with_suffix_sig_json
                           hardware_identity path w))
   = files w \/
   exists sig_path info n,
     with_suffix_sig_json path = Ok sig_path /\
     write_progress w sig_path = Some n /\
     forall p,
       files (snd (_sign_image env json_dump now_isoformat
                               with_suffix_sig_json hardware_identity path w))
             p
       = if str_eqb p sig_path then Some (firstn n (json_dump info))
         else files w p).
Proof.
  unfold _sign_image. destruct hardware_identity as [h|];
    [|intros _; split; [reflexivity | left; reflexivity]].
  unfold bind, read_binary, lift, write_binary, ret.
  destruct (read_fault w path) as [e|];
    [intros _; split; [now exists e | left; reflexivity]|].
  destruct (files w path) as [image_data|];
    [|intros _; split; [now eexists | left; reflexivity]].
  destruct (sign_hash_keeps_files env h
              (PyBytes (hashlib.sha256 image_data)) w) as [Hf Hg].
  destruct (sign_hash env h (PyBytes (hashlib.sha256 image_data)) w)
    as [[r|e] w1]; cbn [snd] in Hf, Hg;
    [|intros _; split; [now exists e | left; exact Hf]].
  destruct (with_suffix_sig_json path) as [sig_path|e];
    [|intros _; split; [now exists e | left; exact Hf]].
  destruct (write_fault w1 sig_path) as [e|]; [|discriminate].
  rewrite Hg.
  destruct (write_progress w sig_path) as [n|] eqn:Pg; intros _;
    (split; [now exists e|]); [|left; exact Hf].
  right. eexists sig_path, _, n. split; [reflexivity|].
  split; [exact Pg|]. intros p. cbn [snd files set_files].
  now rewrite Hf.
Qed.

Lemma failed_image_signing_touches_one_file_witness :
  exists e,
    snd (fst (_sign_image default_env example_json_dump_signature
                          example_time example_sig_path
                          (Some example_identity) example_photo
                          full_home_world))
    = [SignImageFailed e].
Proof.
  apply (failed_image_signing_touches_one_file default_env
           example_json_dump_signature example_time example_sig_path
           (Some example_identity) example_photo full_home_world).
  vm_compute. reflexivity.
Defined.

(** ** The fingerprint tells camera ids apart *)

Lemma to_N_byte_of_N (n : N) : (n < 256)%N -> Byte.to_N (byte_of_N n) = n.
Proof.
  intros H. unfold byte_of_N.
  destruct (Byte.of_N n) as [b|] eqn:E.
  - now apply Byte.to_of_N.
  - exfalso. pose proof (Byte.to_of_N_option_map n) as H1.
    rewrite E in H1. simpl in H1.
    destruct (n <=? 255)%N eqn:L; [discriminate|].
    apply N.leb_gt in L. lia.
Qed.

Lemma byte_of_N_inj (m n : N) :
  (m < 256)%N -> (n < 256)%N -> byte_of_N m = byte_of_N n -> m = n.
Proof.
  intros Hm Hn H. apply (f_equal Byte.to_N) in H.
  now rewrite !to_N_byte_of_N in H.
Qed.

(** The parts of a code point that UTF-8 stores. *)
Lemma utf8_parts (c : N) :
  (c < 1114112)%N ->
  (c = 64 * (c / 64) + c mod 64 /\
   c / 64 = 64 * (c / 4096) + (c / 64) mod 64 /\
   c / 4096 = 64 * (c / 262144) + (c / 4096) mod 64 /\
   c mod 64 < 64 /\ (c / 64) mod 64 < 64 /\ (c / 4096) mod 64 < 64 /\
   c / 262144 < 5)%N.
Proof.
  intros H.
  assert (E1 : (c / 4096 = c / 64 / 64)%N) by now rewrite N.Div0.div_div.
  assert (E2 : (c / 262144 = c / 4096 / 64)%N)
    by now rewrite N.Div0.div_div.
  pose proof (N.Div0.div_mod c 64) as D1.
  pose proof (N.Div0.div_mod (c / 64) 64) as D2. rewrite <- E1 in D2.
  pose proof (N.Div0.div_mod (c / 4096) 64) as D3. rewrite <- E2 in D3.
  pose proof (N.mod_lt c 64 ltac:(lia)).
  pose proof (N.mod_lt (c / 64) 64 ltac:(lia)).
  pose proof (N.mod_lt (c / 4096) 64 ltac:(lia)).
  repeat (split; [assumption|]).
  clear E1 E2.
  generalize dependent (c / 262144)%N. intros q3.
  generalize dependent (c / 4096)%N. intros q2.
  generalize dependent (c / 64)%N. intros q1.
  generalize (c mod 64)%N (q1 mod 64)%N (q2 mod 64)%N. intros.
  lia.
Qed.

Lemma encode_char_inj (c1 c2 : N) (b1 b2 r1 r2 : bytes) :
  code_point c1 = true -> code_point c2 = true ->
  pystr.encode_char c1 = Ok b1 -> pystr.encode_char c2 = Ok b2 ->
  b1 ++ r1 = b2 ++ r2 -> c1 = c2.
Proof.
  unfold code_point. intros H1 H2. apply N.ltb_lt in H1, H2.
  pose proof (utf8_parts c1 H1) as P1. pose proof (utf8_parts c2 H2) as P2.
  unfold pystr.encode_char.
  set (x1 := ((c1 / 4096) mod 64)%N) in *; clearbody x1.
  set (y1 := ((c1 / 64) mod 64)%N) in *; clearbody y1.
  set (z1 := (c1 mod 64)%N) in *; clearbody z1.
  set (p1 := (c1 / 262144)%N) in *; clearbody p1.
  set (q1 := (c1 / 4096)%N) in *; clearbody q1.
  set (r1' := (c1 / 64)%N) in *; clearbody r1'.
  set (x2 := ((c2 / 4096) mod 64)%N) in *; clearbody x2.
  set (y2 := ((c2 / 64) mod 64)%N) in *; clearbody y2.
  set (z2 := (c2 mod 64)%N) in *; clearbody z2.
  set (p2 := (c2 / 262144)%N) in *; clearbody p2.
  set (q2 := (c2 / 4096)%N) in *; clearbody q2.
  set (r2' := (c2 / 64)%N) in *; clearbody r2'.
  destruct (c1 <? 128)%N eqn:A1;
    [|destruct (c1 <? 2048)%N eqn:B1;
      [|destruct ((55296 <=? c1)%N && (c1 <=? 57343)%N);
        [discriminate|destruct (c1 <? 65536)%N eqn:C1]]];
  (destruct (c2 <? 128)%N eqn:A2;
    [|destruct (c2 <? 2048)%N eqn:B2;
      [|destruct ((55296 <=? c2)%N && (c2 <=? 57343)%N);
        [discriminate|destruct (c2 <? 65536)%N eqn:C2]]]);
  intros X1 X2 E;
  with_strategy opaque [N.add]
    (injection X1 as <-; injection X2 as <-; unfold app in E;
     rewrite ?N.ltb_lt, ?N.ltb_ge in *;
     repeat match goal with
            | H : _ :: _ = _ :: _ |- _ => injection H as ? ?
            end;
     repeat match goal with
            | H : byte_of_N _ = byte_of_N _ |- _ =>
                apply byte_of_N_inj in H; [|lia|lia]
            end);
  lia.
Qed.

Lemma encode_char_code_point (c : N) (b : bytes) :
  pystr.encode_char c = Ok b -> b <> [].
Proof.
  unfold pystr.encode_char.
  destruct (c <? 128)%N; [|destruct (c <? 2048)%N;
    [|destruct ((55296 <=? c)%N && (c <=? 57343)%N);
      [|destruct (c <? 65536)%N]]]; intros [= <-]; discriminate.
Qed.

(** UTF-8 tells strings apart. *)
Lemma encode_utf8_inj (s1 s2 : str) (d : bytes) :
  text s1 -> text s2 ->
  pystr.encode_utf8 s1 = Ok d -> pystr.encode_utf8 s2 = Ok d -> s1 = s2.
Proof.
  unfold text. revert s2 d.
  induction s1 as [|c1 s1 IH]; intros [|c2 s2] d T1 T2 E1 E2.
  - reflexivity.
  - injection E1 as <-. now apply encode_utf8_empty in E2.
  - injection E2 as <-. now apply encode_utf8_empty in E1.
  - simpl in T1, T2. apply andb_true_iff in T1 as [Tc1 Ts1].
    apply andb_true_iff in T2 as [Tc2 Ts2].
    cbn [pystr.encode_utf8] in E1, E2.
    destruct (pystr.encode_char c1) as [b1|] eqn:C1; [|discriminate].
    destruct (pystr.encode_char c2) as [b2|] eqn:C2; [|discriminate].
    cbn [rbind] in E1, E2.
    destruct (pystr.encode_utf8 s1) as [r1|] eqn:R1; [|discriminate].
    destruct (pystr.encode_utf8 s2) as [r2|] eqn:R2; [|discriminate].
    cbn [rbind] in E1, E2. injection E1 as <-. injection E2 as E.
    assert (c2 = c1) as ->
      by exact (encode_char_inj c2 c1 b2 b1 r2 r1 Tc2 Tc1 C2 C1 E).
    assert (b2 = b1) as -> by congruence.
    apply app_inv_head in E. subst r2.
    f_equal. exact (IH s2 r1 Ts1 Ts2 eq_refl R2).
Qed.

Lemma encode_utf8_app (a b : str) :
  pystr.encode_utf8 (a ++ b)
  = rbind (pystr.encode_utf8 a) (fun x =>
    rbind (pystr.encode_utf8 b) (fun y => Ok (x ++ y))).
Proof.
  induction a as [|c a IH]; cbn [app pystr.encode_utf8].
  - cbn [rbind]. destruct (pystr.encode_utf8 b); reflexivity.
  - destruct (pystr.encode_char c) as [x|]; [|reflexivity]. cbn [rbind].
    rewrite IH. destruct (pystr.encode_utf8 a) as [y|]; [|reflexivity].
    cbn [rbind]. destruct (pystr.encode_utf8 b) as [z|]; [|reflexivity].
    cbn [rbind]. now rewrite app_assoc.
Qed.

Lemma collect_serial_appends : appends collect_serial.
Proof.
  intros w. unfold collect_serial, try_except, bind, print, ret, raise.
  cbn [cpuinfo set_stdout].
  destruct (cpuinfo w) as [out0|e].
  - destruct (find_serial_line (pystr.split 10 out0)) as [line|].
    + destruct (nth_error (pystr.split 58 line) 1) as [field|].
      * eexists. intros ids out. eexists. reflexivity.
      * exists []. intros ids out. eexists. cbn [any_exception].
        rewrite app_nil_r. reflexivity.
    + exists []. intros ids out. exists out. now rewrite app_nil_r.
  - exists []. intros ids out. eexists. cbn [any_exception].
    rewrite app_nil_r. reflexivity.
Qed.

Lemma collect_mac_appends (interfaces : list str) :
  appends (collect_mac interfaces).
Proof.
  intros w. induction interfaces as [|i rest IH]; cbn [collect_mac].
  - exists []. intros ids out. exists out. unfold ret.
    now rewrite app_nil_r.
  - cbn [net_address set_stdout].
    destruct (net_address w i) as [[content|e]|]; try exact IH.
    eexists. intros ids out. eexists. reflexivity.
Qed.

Lemma collect_machine_appends : appends collect_machine.
Proof.
  intros w. unfold collect_machine. cbn [machine_id set_stdout].
  destruct (machine_id w) as [[content|e]|].
  - eexists. intros ids out. eexists. reflexivity.
  - exists []. intros ids out. exists out. now rewrite app_nil_r.
  - exists []. intros ids out. exists out. now rewrite app_nil_r.
Qed.

(** The fingerprint of an object with a camera id: the camera id behind
    its tag, then a text that the machine alone decides. *)
Lemma fingerprint_of_camera (w : world) :
  exists tail,
    forall self c cs,
      camera_id self = Some (c :: cs) ->
      fst (_get_hardware_id self w)
      = pystr.encode_utf8 ((lit "camera:" ++ c :: cs) ++ tail).
Proof.
  destruct (collect_serial_appends w) as [s Hs].
  destruct (collect_mac_appends [lit "wlan0"; lit "eth0"] w) as [m Hm].
  destruct (collect_machine_appends w) as [k Hk].
  exists (match s ++ m ++ k with
          | [] => []
          | rest => lit "|" ++ pystr.join (lit "|") rest
          end).
  intros self c cs Hc.
  assert (C : exists out,
             collect_identifiers (Some (c :: cs)) w
             = (Ok ((lit "camera:" ++ c :: cs) :: s ++ m ++ k),
                set_stdout out w)).
  { unfold collect_identifiers, collect_camera, bind, print, ret.
    cbv beta iota.
    match goal with
    | |- context [collect_serial ?i (set_stdout ?o w)] =>
        destruct (Hs i o) as [o1 E1]; rewrite E1
    end.
    match goal with
    | |- context [collect_mac _ ?i (set_stdout ?o w)] =>
        destruct (Hm i o) as [o2 E2]; rewrite E2
    end.
    match goal with
    | |- context [collect_machine ?i (set_stdout ?o w)] =>
        destruct (Hk i o) as [o3 E3]
    end.
    rewrite E3. exists o3. cbn [app]. now rewrite <- !app_assoc. }
  destruct C as [out C]. unfold _get_hardware_id, bind at 1.
  rewrite Hc, C. unfold bind, print, lift. cbn [fst].
  destruct (s ++ m ++ k) as [|x rest]; [|reflexivity].
  cbn [pystr.join]. now rewrite app_nil_r.
Qed.

(** Property X26.  The fingerprint tells camera ids apart.  On one
    machine, two objects with different non-empty camera ids (Python
    strings: code points below 0x110000) never get the same fingerprint. *)
Theorem camera_ids_give_distinct_fingerprints
        (self1 self2 : HardwareIdentity) (c1 c2 : str) (w w' : world)
        (f1 f2 : bytes) :
  camera_id self1 = Some c1 -> camera_id self2 = Some c2 ->
  c1 <> [] -> c2 <> [] -> text c1 -> text c2 ->
  c1 <> c2 ->
  same_sources w w' ->
  fst (_get_hardware_id self1 w) = Ok f1 ->
  fst (_get_hardware_id self2 w') = Ok f2 ->
  f1 <> f2.
Proof.
  intros H1 H2 N1 N2 T1 T2 Hne Hs E1 E2 <-.
  rewrite <- (proj1 (fingerprint_reads_sources_only self2 w w' Hs)) in E2.
  destruct (fingerprint_of_camera w) as [tail Ht].
  destruct c1 as [|a1 c1]; [congruence|]. destruct c2 as [|a2 c2]; [congruence|].
  rewrite (Ht self1 a1 c1 H1) in E1. rewrite (Ht self2 a2 c2 H2) in E2.
  rewrite <- !app_assoc, !encode_utf8_app in E1, E2.
  destruct (pystr.encode_utf8 (lit "camera:")) as [p|]; [|discriminate].
  cbn [rbind] in E1, E2.
  destruct (pystr.encode_utf8 (a1 :: c1)) as [x1|] eqn:X1; [|discriminate].
  destruct (pystr.encode_utf8 (a2 :: c2)) as [x2|] eqn:X2; [|discriminate].
  cbn [rbind] in E1, E2.
  destruct (pystr.encode_utf8 tail) as [t|]; [|discriminate].
  cbn [rbind] in E1, E2. injection E1 as E1. injection E2 as E2.
  rewrite <- E2 in E1. apply app_inv_head in E1. apply app_inv_tail in E1.
  subst x1. apply Hne.
  exact (encode_utf8_inj (a1 :: c1) (a2 :: c2) x2 T1 T2 X1 X2).
Qed.

Lemma camera_ids_give_distinct_fingerprints_witness :
  fst (_get_hardware_id (fresh_object (Some (lit "abc123"))) example_world)
  <> fst (_get_hardware_id (fresh_object (Some (lit "abc124")))
                           example_world).
Proof.
  destruct (fst (_get_hardware_id (fresh_object (Some (lit "abc123")))
                                  example_world)) as [f1|e1] eqn:E1;
    [|revert E1; vm_compute; discriminate].
  destruct (fst (_get_hardware_id (fresh_object (Some (lit "abc124")))
                                  example_world)) as [f2|e2] eqn:E2;
    [|revert E2; vm_compute; discriminate].
  intros [= H]. revert H.
  apply (camera_ids_give_distinct_fingerprints
           (fresh_object (Some (lit "abc123")))
           (fresh_object (Some (lit "abc124")))
           (lit "abc123") (lit "abc124") example_world example_world);
    try reflexivity; try discriminate; try assumption.
  split; [reflexivity | split; reflexivity].
Defined.
